(** * dranet: cloud attribute inventory, VRF table allocator and the
      namespace-scoped network configuration engine

    A shallow embedding of
      - pkg/apis/defaults.go        (VRFConfig.Default),
      - pkg/apis (validation)       (validateRoutes),
      - pkg/cloudprovider/gce/gce.go (GCEInstance.GetDeviceAttributes),
      - pkg/driver (netnamespace)   (applyRoutingConfig, applyNeighborConfig,
                                     applyRulesConfig, enableVRFSysctls),
    together with the properties the design document states about them.

    Conventions.  A Go [string] is a sequence of bytes: [string] of the
    Standard Library.  A Go [int] is a [Z] (the 64-bit [int] of the
    platforms the driver runs on; no operation below gets near its bounds
    unless said otherwise), a [uint32] is a [Z] reduced modulo 2^32 where
    the code can wrap.  A nil pointer, nil map or nil error is [None]. *)

From Stdlib Require Import ZArith Lia List Ascii String Bool Permutation Sorted.
From stdpp Require Import base option list strings gmap.

Import ListNotations.

#[local] Set Warnings "-register-all".
#[local] Open Scope string_scope.
#[local] Open Scope Z_scope.

(** ** The fragment of Go's [strings] package the code uses *)

Module GoStrings.

(** [len(s)] as an [int]. *)
Definition len (s : string) : Z := Z.of_nat (String.length s).

(** [s[n:]] for [0 <= n <= len(s)]. *)
Fixpoint skip (n : nat) (s : string) : string :=
  match n, s with
  | O, _ => s
  | S _, EmptyString => EmptyString
  | S n', String _ s' => skip n' s'
  end.

(** [s[:n]] for [0 <= n <= len(s)]. *)
Fixpoint keep (n : nat) (s : string) : string :=
  match n, s with
  | O, _ => EmptyString
  | S _, EmptyString => EmptyString
  | S n', String c s' => String c (keep n' s')
  end.

(** [strings.HasPrefix]. *)
Fixpoint HasPrefix (s prefix : string) : bool :=
  match prefix, s with
  | EmptyString, _ => true
  | String _ _, EmptyString => false
  | String p prefix', String c s' => Ascii.eqb c p && HasPrefix s' prefix'
  end.

(** [strings.TrimPrefix]: [s] without the leading [prefix], or [s] itself
    when it does not start with [prefix]. *)
Definition TrimPrefix (s prefix : string) : string :=
  if HasPrefix s prefix then skip (String.length prefix) s else s.

(** [strings.IndexByte]: the position of the first [c] in [s]. *)
Fixpoint IndexByte (s : string) (c : ascii) : option nat :=
  match s with
  | EmptyString => None
  | String d s' =>
      if Ascii.eqb d c then Some O else S <$> IndexByte s' c
  end.

(** [strings.LastIndexByte]: the position of the last [c] in [s]. *)
Fixpoint LastIndexByte (s : string) (c : ascii) : option nat :=
  match s with
  | EmptyString => None
  | String d s' =>
      match LastIndexByte s' c with
      | Some i => Some (S i)
      | None => if Ascii.eqb d c then Some O else None
      end
  end.

(** [strings.Count] for a one-byte separator. *)
Fixpoint Count (s : string) (c : ascii) : nat :=
  match s with
  | EmptyString => O
  | String d s' => (if Ascii.eqb d c then 1 else 0) + Count s' c
  end%nat.

(** The loop of [strings.genSplit] for a one-byte separator: at most
    [n] cuts, the remainder of the string is the last element. *)
Fixpoint genSplit (n : nat) (s : string) (sep : ascii) : list string :=
  match n with
  | O => [s]
  | S n' =>
      match IndexByte s sep with
      | None => [s]
      | Some m => keep m s :: genSplit n' (skip (S m) s) sep
      end
  end.

(** [strings.SplitN(s, sep, n)] for a one-byte [sep]: [n = 0] gives nil,
    [n < 0] all the pieces, [n > 0] at most [n] pieces. *)
Definition SplitN (s : string) (sep : ascii) (n : Z) : list string :=
  if n =? 0 then []
  else if n <? 0 then genSplit (Count s sep) s sep
  else genSplit (Z.to_nat (n - 1)) s sep.

(** [strings.Split(s, sep)] is [SplitN(s, sep, -1)]. *)
Definition Split (s : string) (sep : ascii) : list string :=
  SplitN s sep (-1).

(** [strings.Join]. *)
Fixpoint Join (elems : list string) (sep : string) : string :=
  match elems with
  | [] => ""
  | [e] => e
  | e :: rest => e ++ sep ++ Join rest sep
  end.

(** Whether the byte [c] occurs in [s] ([strings.IndexByte(s, c) >= 0]). *)
Definition ContainsByte (s : string) (c : ascii) : bool :=
  match IndexByte s c with Some _ => true | None => false end.

End GoStrings.

(** ** hash/fnv: the 32-bit FNV-1a hash *)

Module Fnv.

Definition offset32 : Z := 2166136261.
Definition prime32 : Z := 16777619.

Definition byte_val (c : ascii) : Z := Z.of_N (N_of_ascii c).

(** One round of the [Write] method of [sum32a]: [hash ^= uint32(c); hash *= prime32],
    the product taken modulo 2^32. *)
Definition step32a (hash : Z) (c : ascii) : Z :=
  (Z.lxor hash (byte_val c) * prime32) mod 2 ^ 32.

Fixpoint Write32a (hash : Z) (data : string) : Z :=
  match data with
  | EmptyString => hash
  | String c rest => Write32a (step32a hash c) rest
  end.

(** [h := fnv.New32a(); h.Write([]byte(s)); h.Sum32()]. *)
Definition Sum32a (s : string) : Z := Write32a offset32 s.

End Fnv.

(** ** Go error values

    [error] covers the error values the code meets or builds: a
    [syscall.Errno] returned by the kernel, a [*net.ParseError], an error
    built by [fmt.Errorf] (with [%w] it wraps its cause, with [%v] it only
    prints it), and the value of [errors.Join].  The formatted operands
    other than the cause are not kept: nothing below reads a message. *)

Module GoErrors.

Inductive error : Type :=
| Errno (n : Z)
| ParseError (Type_ Text : string)
| Errorf (format : string) (printed : option error)
| Wrapf (format : string) (cause : error)
| joinError (errs : list error).

(** [syscall.EEXIST]. *)
Definition EEXIST : Z := 17.

(** [errors.Is(err, target)] for a [syscall.Errno] target: walk the
    [Unwrap] chain ([Unwrap() error] of a [%w] error, [Unwrap() []error]
    of a joined error) and compare. *)
Fixpoint errors_Is (err : error) (target : Z) : bool :=
  match err with
  | Errno n => n =? target
  | ParseError _ _ => false
  | Errorf _ _ => false
  | Wrapf _ cause => errors_Is cause target
  | joinError errs =>
      (fix any (l : list error) : bool :=
         match l with
         | [] => false
         | e :: l' => errors_Is e target || any l'
         end) errs
  end.

(** [errors.Join(errs...)]: nil when there is nothing to join.  (The
    lists the driver joins hold no nil entry.) *)
Definition errors_Join (errs : list error) : option error :=
  match errs with
  | [] => None
  | _ :: _ => Some (joinError errs)
  end.

(** A fallible result [(T, error)]. *)
Inductive result (T : Type) : Type :=
| Ok (v : T)
| Err (e : error).
#[global] Arguments Ok {T} v.
#[global] Arguments Err {T} e.

End GoErrors.

(** ** The fragment of Go's [net] package the code uses

    Address parsing is a library the driver calls; its address grammar is
    left open ([ParseIP], [ParseMAC] and the address-and-mask half of
    [ParseCIDR] are fields).  What [net.ParseCIDR] does first is kept as
    written in the library: it looks for the ['/'] and fails without
    one. *)

Module GoNet.
Import GoErrors GoStrings.

Class Net : Type := {
  IP : Type;
  IPNet : Type;
  HardwareAddr : Type;
  (** [net.ParseIP]: nil for a text that is not an IP address. *)
  ParseIP : string -> option IP;
  (** [net.ParseMAC]. *)
  ParseMAC : string -> result HardwareAddr;
  (** The second half of [net.ParseCIDR]: the address before the ['/']
      and the prefix length after it. *)
  parseAddrMask : string -> string -> option (IP * IPNet);
}.

(** [net.ParseCIDR]:
    [i := IndexByteString(s, '/'); if i < 0 { return ParseError }],
    then the address [s[:i]] and the mask [s[i+1:]]. *)
Definition ParseCIDR `{Net} (s : string) : result (IP * IPNet) :=
  match IndexByte s "/"%char with
  | None => Err (ParseError "CIDR address" s)
  | Some i =>
      match parseAddrMask (keep i s) (skip (S i) s) with
      | None => Err (ParseError "CIDR address" s)
      | Some r => Ok r
      end
  end.

End GoNet.

(** ** pkg/apis: configuration types, defaulting and validation *)

Module Apis.
Import GoErrors GoStrings GoNet.

(** [unix.RT_SCOPE_UNIVERSE] and [unix.RT_SCOPE_LINK]. *)
Definition RT_SCOPE_UNIVERSE : Z := 0.
Definition RT_SCOPE_LINK : Z := 253.

(** [VRFConfig]: [Table] is a [*int]. *)
Record VRFConfig : Type := {
  vrf_Name : string;
  vrf_Table : option Z;
}.

(** [RouteConfig]; [Scope] is a [uint8] in the Go type. *)
Record RouteConfig : Type := {
  Destination : string;
  Gateway : string;
  Source : string;
  Scope : Z;
  Table : Z;
}.

Record RuleConfig : Type := {
  rule_Priority : Z;
  rule_Table : Z;
  rule_Source : string;
  rule_Destination : string;
}.

Record NeighborConfig : Type := {
  neigh_Destination : string;
  neigh_HardwareAddr : string;
}.

Section Defaults.
(** The constant [VRFTableOffset] of the package (its declaration is in
    a file of the package that is not part of the sources at hand). *)
Variable VRFTableOffset : Z.

(** [tableID := int((h.Sum32() % 1000) + VRFTableOffset)]: the sum is a
    [uint32] sum. *)
Definition deriveTable (name : string) : Z :=
  ((Fnv.Sum32a name mod 1000) + VRFTableOffset) mod 2 ^ 32.

(** [func (c *VRFConfig) Default()]: the receiver after the call. *)
Definition VRFConfig_Default (c : VRFConfig) : VRFConfig :=
  match vrf_Table c with
  | None =>
      if negb (String.eqb (vrf_Name c) "") then
        {| vrf_Name := vrf_Name c;
           vrf_Table := Some (deriveTable (vrf_Name c)) |}
      else c
  | Some _ => c
  end.
End Defaults.

(** The validation errors of [validateRoutes], by field and index
    (the [fmt.Errorf] texts start with [routes[i].<field>]). *)
Inductive RouteField := FDestination | FScope | FGateway | FSource | FTable.

Record FieldError : Type := {
  fe_index : nat;
  fe_field : RouteField;
  fe_text : string;
}.

Section Validation.
Context `{Net}.

Definition isNil {A} (o : option A) : bool :=
  match o with None => true | Some _ => false end.

Definition isErr {A} (r : result A) : bool :=
  match r with Err _ => true | Ok _ => false end.

(** The body of the loop of [validateRoutes] for the route at index
    [i]: the errors it appends. *)
Definition validateRoute (i : nat) (route : RouteConfig) : list FieldError :=
  (if String.eqb (Destination route) "" then
     [{| fe_index := i; fe_field := FDestination; fe_text := "cannot be empty" |}]
   else if isErr (ParseCIDR (Destination route))
             && isNil (ParseIP (Destination route)) then
     [{| fe_index := i; fe_field := FDestination; fe_text := "invalid IP or CIDR format" |}]
   else [])
  ++
  (if negb (Scope route =? RT_SCOPE_UNIVERSE) && negb (Scope route =? RT_SCOPE_LINK) then
     [{| fe_index := i; fe_field := FScope; fe_text := "invalid scope" |}]
   else [])
  ++
  (let scopeIsLink := Scope route =? RT_SCOPE_LINK in
   if negb (String.eqb (Gateway route) "") then
     if isNil (ParseIP (Gateway route)) then
       [{| fe_index := i; fe_field := FGateway; fe_text := "invalid IP address format" |}]
     else []
   else if negb scopeIsLink then
     [{| fe_index := i; fe_field := FGateway;
         fe_text := "must be specified for Universe scope routes" |}]
   else [])
  ++
  (if negb (String.eqb (Source route) "") && isNil (ParseIP (Source route)) then
     [{| fe_index := i; fe_field := FSource; fe_text := "invalid IP address format" |}]
   else [])
  ++
  (if Table route <? 0 then
     [{| fe_index := i; fe_field := FTable; fe_text := "must be a non-negative integer" |}]
   else []).

Fixpoint validateRoutes_from (i : nat) (routes : list RouteConfig) : list FieldError :=
  match routes with
  | [] => []
  | route :: rest => validateRoute i route ++ validateRoutes_from (S i) rest
  end.

(** [validateRoutes(routes, "routes")]. *)
Definition validateRoutes (routes : list RouteConfig) : list FieldError :=
  validateRoutes_from 0 routes.
End Validation.

End Apis.

(** ** fmt.Sscanf for the format of the network path

    [GetDeviceAttributes] calls
    [fmt.Sscanf(network, "projects/%d/networks/%s", &projectNumber, &name)].
    [Sscanf_projects_networks] follows the scanner of package [fmt] for
    that format, byte by byte: the literal text must match; before a verb
    blanks are skipped and a newline is an error; [%d] takes an optional
    sign and then digits (an underscore is read as part of the number and
    then refused by [strconv.ParseInt]), and the value must fit an [int64];
    [%s] takes the bytes up to the next blank and needs at least one.  What
    follows the name in the input is not looked at.  The model reads bytes
    where [fmt] reads UTF-8 runes: the two agree on ASCII input. *)

Module GoFmt.

Definition isDigit (c : ascii) : bool :=
  (48 <=? Fnv.byte_val c) && (Fnv.byte_val c <=? 57).

(** [isSpace] of [fmt/scan.go], for one byte: U+0009..U+000D and U+0020. *)
Definition isSpace (c : ascii) : bool :=
  ((9 <=? Fnv.byte_val c) && (Fnv.byte_val c <=? 13)) || (Fnv.byte_val c =? 32).

(** The scanner's [SkipSpace] with [nlIsSpace = false]: [None] is the error
    "unexpected newline". *)
Fixpoint SkipSpace (s : string) : option string :=
  match s with
  | EmptyString => Some EmptyString
  | String c rest =>
      if Fnv.byte_val c =? 10 then None
      else if isSpace c then SkipSpace rest
      else Some s
  end.

(** The literal text of the format: each byte must be the next input
    byte. *)
Fixpoint matchLiteral (lit s : string) : option string :=
  match lit, s with
  | EmptyString, _ => Some s
  | String _ _, EmptyString => None
  | String l lit', String c s' =>
      if Ascii.eqb l c then matchLiteral lit' s' else None
  end.

(** The loop [for s.accept(digits) {}] of [scanNumber], [digits] being
    ["0123456789_"]: the token and the rest of the input. *)
Fixpoint acceptDigits (s : string) : string * string :=
  match s with
  | EmptyString => (EmptyString, EmptyString)
  | String c rest =>
      if isDigit c || Ascii.eqb c "_" then
        let (tok, rest') := acceptDigits rest in (String c tok, rest')
      else (EmptyString, s)
  end.

(** The decimal value of a token of digits; [None] at any other byte
    (the syntax error of [strconv.ParseInt] in base 10). *)
Fixpoint parseDecimal (acc : Z) (tok : string) : option Z :=
  match tok with
  | EmptyString => Some acc
  | String c rest =>
      if isDigit c then parseDecimal (10 * acc + (Fnv.byte_val c - 48)) rest
      else None
  end.

(** [scanInt('d', 64)]: skip blanks, need input, take a sign, take the
    number, convert it and check the [int64] range. *)
Definition scanInt64 (s : string) : option (Z * string) :=
  match SkipSpace s with
  | None => None
  | Some EmptyString => None
  | Some (String c rest as s1) =>
      let '(neg, s2) :=
        if Ascii.eqb c "+" then (false, rest)
        else if Ascii.eqb c "-" then (true, rest)
        else (false, s1) in
      let (tok, s3) := acceptDigits s2 in
      match tok with
      | EmptyString => None
      | String _ _ =>
          match parseDecimal 0 tok with
          | None => None
          | Some v =>
              let i := if neg then - v else v in
              if (- 2 ^ 63 <=? i) && (i <=? 2 ^ 63 - 1) then Some (i, s3)
              else None
          end
      end
  end.

(** [token(true, notSpace)]: the bytes up to the next blank. *)
Fixpoint token (s : string) : string :=
  match s with
  | EmptyString => EmptyString
  | String c rest => if isSpace c then EmptyString else String c (token rest)
  end.

(** [convertString('s')]: skip blanks, need input, take the token. *)
Definition scanString (s : string) : option string :=
  match SkipSpace s with
  | None => None
  | Some EmptyString => None
  | Some s1 => Some (token s1)
  end.

(** [fmt.Sscanf(str, "projects/%d/networks/%s", &projectNumber, &name)]:
    [None] when it returns an error, else the two values stored. *)
Definition Sscanf_projects_networks (str : string) : option (Z * string) :=
  match matchLiteral "projects/" str with
  | None => None
  | Some s1 =>
      match scanInt64 s1 with
      | None => None
      | Some (projectNumber, s2) =>
          match matchLiteral "/networks/" s2 with
          | None => None
          | Some s3 =>
              match scanString s3 with
              | None => None
              | Some name => Some (projectNumber, name)
              end
          end
      end
  end.

End GoFmt.

(** ** pkg/cloudprovider and pkg/cloudprovider/gce *)

Module Gce.
Import GoStrings.

(** [cloudprovider.DeviceIdentifiers]. *)
Record DeviceIdentifiers : Type := {
  MAC : string;
  PCIAddress : string;
  Name : string;
}.

(** [resourceapi.DeviceAttribute]: the two kinds of value the provider
    stores. *)
Inductive DeviceAttribute : Type :=
| StringValue (s : string)
| IntValue (i : Z).

Definition GCEAttrPrefix : string := "gce.dra.net".
Definition AttrGCEBlock : string := GCEAttrPrefix ++ "/" ++ "block".
Definition AttrGCESubBlock : string := GCEAttrPrefix ++ "/" ++ "subBlock".
Definition AttrGCEHost : string := GCEAttrPrefix ++ "/" ++ "host".
Definition AttrGCENetworkName : string := GCEAttrPrefix ++ "/" ++ "networkName".
Definition AttrGCENetworkProjectNumber : string :=
  GCEAttrPrefix ++ "/" ++ "networkProjectNumber".
Definition AttrGCEIPAliases : string := GCEAttrPrefix ++ "/" ++ "ipAliases".
Definition AttrGCEMachineType : string := GCEAttrPrefix ++ "/" ++ "machineType".

(** [gceNetworkInterface]. *)
Record gceNetworkInterface : Type := {
  IPv4 : string;
  IPv6 : list string;
  Mac : string;
  MTU : Z;
  Network : string;
  IPAliases : list string;
}.

(** [GCEInstance]. *)
Record GCEInstance : Type := {
  inst_Name : string;
  inst_Type : string;
  AcceleratorProtocol : string;
  Interfaces : list gceNetworkInterface;
  Topology : string;
}.

(** The loop over [g.Interfaces]: the first record whose [Mac] is the
    one asked for ([interfaceForMacFound] is [Some]). *)
Fixpoint interfaceForMac (interfaces : list gceNetworkInterface) (mac : string)
  : option gceNetworkInterface :=
  match interfaces with
  | [] => None
  | cloudInterface :: rest =>
      if String.eqb (Mac cloudInterface) mac then Some cloudInterface
      else interfaceForMac rest mac
  end.

(** The attributes of the node: machine type, and the topology when the
    path has its three parts. *)
Definition nodeAttributes (g : GCEInstance) : gmap string DeviceAttribute :=
  let attributes : gmap string DeviceAttribute :=
    <[AttrGCEMachineType := StringValue (inst_Type g)]> ∅ in
  if negb (String.eqb (Topology g) "") then
    let topologyParts := SplitN (TrimPrefix (Topology g) "/") "/"%char 3 in
    if Nat.eqb (List.length topologyParts) 3 then
      <[AttrGCEHost := StringValue (nth 2 topologyParts "")]>
        (<[AttrGCESubBlock := StringValue (nth 1 topologyParts "")]>
           (<[AttrGCEBlock := StringValue (nth 0 topologyParts "")]> attributes))
    else attributes (* klog.Warningf *)
  else attributes.

Section GetDeviceAttributes.
(** [fmt.Sscanf] with the format ["projects/%d/networks/%s"]. *)
Variable Sscanf : string -> option (Z * string).

(** [func (g *GCEInstance) GetDeviceAttributes(id)]; [None] is the nil
    map. *)
Definition GetDeviceAttributes (g : GCEInstance) (id : DeviceIdentifiers)
  : option (gmap string DeviceAttribute) :=
  let attributes := nodeAttributes g in
  if String.eqb (MAC id) "" then Some attributes
  else
    match interfaceForMac (Interfaces g) (MAC id) with
    | Some interfaceForMac =>
        let attributes :=
          if 0 <? Z.of_nat (List.length (IPAliases interfaceForMac)) then
            <[AttrGCEIPAliases :=
                StringValue (Join (IPAliases interfaceForMac) ",")]> attributes
          else attributes in
        match Sscanf (Network interfaceForMac) with
        | None => None (* klog.Warningf; return nil *)
        | Some (projectNumber, name) =>
            Some (<[AttrGCENetworkProjectNumber := IntValue projectNumber]>
                    (<[AttrGCENetworkName := StringValue name]> attributes))
        end
    | None => Some attributes
    end.
End GetDeviceAttributes.

(** The same instance with another topology path. *)
Definition withTopology (g : GCEInstance) (topology : string) : GCEInstance :=
  {| inst_Name := inst_Name g;
     inst_Type := inst_Type g;
     AcceleratorProtocol := AcceleratorProtocol g;
     Interfaces := Interfaces g;
     Topology := topology |}.

(** The segments of a topology path as the design document counts them:
    the pieces between the ['/'] of the path without its leading
    ['/']. *)
Definition topologySegments (topology : string) : list string :=
  Split (TrimPrefix topology "/") "/"%char.



End Gce.

(** ** inventory: short names *)

Module Inventory.
Import GoStrings.

(** Modelled from the spec: [shortName] ([getLastSegmentAndTruncate] in
    the tests) is not part of the sources at hand, only its test is.
    "Return the substring after the final [/] (empty if the input ends
    in [/]), then truncate to [maxLength] by raw length."  [maxLength]
    is an [int] in the test table. *)
Definition lastSegment (path : string) : string :=
  match LastIndexByte path "/"%char with
  | Some i => skip (S i) path
  | None => path
  end.

Definition shortName (path : string) (maxLength : Z) : string :=
  let segment := lastSegment path in
  if maxLength <? len segment then keep (Z.to_nat maxLength) segment
  else segment.

End Inventory.

(** ** slices.SortFunc

    "SortFunc sorts the slice x in ascending order as determined by the cmp
    function.  This sort is not guaranteed to be stable.  cmp(a, b) should
    return a negative number when a < b, a positive number when a > b and
    zero when a == b or a and b are incomparable in the sense of a strict
    weak ordering."  The order of equal elements is the library's choice,
    so the sort is an interface with that contract; [insertionSort] below
    is one implementation of it. *)

Module GoSlices.

Class Slices : Type := {
  SortFunc : forall {E : Type}, (E -> E -> Z) -> list E -> list E;
  SortFunc_Permutation :
    forall (E : Type) (cmp : E -> E -> Z) (x : list E),
      Permutation x (SortFunc cmp x);
  SortFunc_Sorted :
    forall (E : Type) (cmp : E -> E -> Z) (key : E -> Z) (x : list E),
      (forall a b, cmp a b < 0 <-> key a < key b) ->
      StronglySorted (fun a b => key a <= key b) (SortFunc cmp x);
}.

Section Insertion.
Context {E : Type} (cmp : E -> E -> Z).

Fixpoint insertSorted (a : E) (x : list E) : list E :=
  match x with
  | [] => [a]
  | b :: x' => if cmp a b <? 0 then a :: b :: x' else b :: insertSorted a x'
  end.

Fixpoint insertionSort (x : list E) : list E :=
  match x with
  | [] => []
  | a :: x' => insertSorted a (insertionSort x')
  end.
End Insertion.

End GoSlices.

(** ** pkg/driver: the network configuration engine

    The kernel, reached through netlink handles, is an interface: a state
    [K] and the requests the driver sends, each returning its error and
    the next state.  The driver's functions run in a state monad over
    [World], the kernel state together with the list of the programming
    requests sent so far and their answers, oldest first. *)

Module Driver.
Import GoErrors GoStrings GoNet GoSlices Apis.

(** [netlink.Route], the fields the driver sets. *)
Record Route `{Net} : Type := {
  route_LinkIndex : Z;
  route_Scope : Z;
  route_Table : Z;
  route_Dst : option IPNet;
  route_Gw : option IP;
  route_Src : option IP;
}.

(** [netlink.Neigh]. *)
Record Neigh `{Net} : Type := {
  neighbor_LinkIndex : Z;
  neighbor_State : Z;
  neighbor_IP : IP;
  neighbor_HardwareAddr : HardwareAddr;
}.

(** [netlink.Rule]: the fields the driver sets on [netlink.NewRule()]. *)
Record Rule `{Net} : Type := {
  policy_Priority : Z;
  policy_Table : Z;
  policy_Src : option IPNet;
  policy_Dst : option IPNet;
}.

Definition NUD_PERMANENT : Z := 128.

Class Kernel `{Net} : Type := {
  K : Type;
  NsHandle : Type;
  Handle : Type;
  Link : Type;
  netns_GetFromPath : string -> K -> result NsHandle * K;
  NsHandle_Close : NsHandle -> K -> K;
  nlwrap_NewHandleAt : NsHandle -> K -> result Handle * K;
  Handle_Close : Handle -> K -> K;
  Handle_LinkByName : Handle -> string -> K -> result Link * K;
  Link_Index : Link -> Z;
  Handle_RouteAdd : Handle -> Route -> K -> option error * K;
  Handle_NeighAdd : Handle -> Neigh -> K -> option error * K;
  Handle_RuleAdd : Handle -> Rule -> K -> option error * K;
}.

Section Engine.
Context `{Kernel} `{Slices}.

(** A programming request and the kernel's answer. *)
Inductive Request : Type :=
| ReqRouteAdd (r : Route) (answer : option error)
| ReqNeighAdd (n : Neigh) (answer : option error)
| ReqRuleAdd (r : Rule) (answer : option error).

Record World : Type := {
  kernel : K;
  requests : list Request;
}.

Definition M (A : Type) : Type := World -> A * World.

Definition ret {A} (a : A) : M A := fun w => (a, w).

Definition bind {A B} (m : M A) (k : A -> M B) : M B :=
  fun w => let (a, w') := m w in k a w'.

Notation "x <- m ;; k" := (bind m (fun x => k))
  (at level 100, m at next level, right associativity).

(** A kernel operation that is not a programming request. *)
Definition lift {A} (op : K -> A * K) : M A :=
  fun w => let (a, k') := op (kernel w) in
           (a, {| kernel := k'; requests := requests w |}).

(** A [defer]red close: it runs when [body] returns. *)
Definition deferring {A} (close : K -> K) (body : M A) : M A :=
  a <- body ;; _ <- lift (fun k => (tt, close k)) ;; ret a.

Definition RouteAdd (h : Handle) (r : Route) : M (option error) :=
  fun w => let (answer, k') := Handle_RouteAdd h r (kernel w) in
           (answer, {| kernel := k';
                       requests := requests w ++ [ReqRouteAdd r answer] |}).

Definition NeighAdd (h : Handle) (n : Neigh) : M (option error) :=
  fun w => let (answer, k') := Handle_NeighAdd h n (kernel w) in
           (answer, {| kernel := k';
                       requests := requests w ++ [ReqNeighAdd n answer] |}).

Definition RuleAdd (h : Handle) (r : Rule) : M (option error) :=
  fun w => let (answer, k') := Handle_RuleAdd h r (kernel w) in
           (answer, {| kernel := k';
                       requests := requests w ++ [ReqRuleAdd r answer] |}).

(** [err != nil && !errors.Is(err, syscall.EEXIST)]. *)
Definition rejected (answer : option error) : option error :=
  match answer with
  | Some err => if negb (errors_Is err EEXIST) then Some err else None
  | None => None
  end.

(** The comparison handed to [slices.SortFunc]:
    [int(b.Scope) - int(a.Scope)]. *)
Definition byScopeDescending (a b : RouteConfig) : Z := Scope b - Scope a.

(** The [netlink.Route] built for an entry whose destination parsed. *)
Definition routeFor (linkIndex vrfTable : Z) (route : RouteConfig) (dst : IPNet)
  : Route :=
  let table := if vrfTable >? 0 then vrfTable else Table route in
  {| route_LinkIndex := linkIndex;
     route_Scope := Scope route;
     route_Table := table;
     route_Dst := Some dst;
     route_Gw := ParseIP (Gateway route);
     route_Src := if negb (String.eqb (Source route) "")
                  then ParseIP (Source route) else None |}.

(** The loop [for _, route := range routeConfig] of
    [applyRoutingConfig]. *)
Fixpoint routeLoop (nhNs : Handle) (linkIndex vrfTable : Z)
    (routeConfig : list RouteConfig) (errorList : list error)
  : M (list error) :=
  match routeConfig with
  | [] => ret errorList
  | route :: rest =>
      match ParseCIDR (Destination route) with
      | Err err =>
          (* errorList = append(errorList, err); continue *)
          routeLoop nhNs linkIndex vrfTable rest (errorList ++ [err])
      | Ok (_, dst) =>
          answer <- RouteAdd nhNs (routeFor linkIndex vrfTable route dst) ;;
          match rejected answer with
          | Some err =>
              routeLoop nhNs linkIndex vrfTable rest
                (errorList ++ [Wrapf "fail to add route %s for interface %s on namespace %s: %w" err])
          | None => routeLoop nhNs linkIndex vrfTable rest errorList
          end
      end
  end.

(** [applyRoutingConfig(containerNsPAth, ifName, routeConfig, vrfTable)]. *)
Definition applyRoutingConfig (containerNsPAth ifName : string)
    (routeConfig : list RouteConfig) (vrfTable : Z) : M (option error) :=
  containerNs <- lift (netns_GetFromPath containerNsPAth) ;;
  match containerNs with
  | Err err => ret (Some err)
  | Ok containerNs =>
      deferring (NsHandle_Close containerNs)
        (nhNs <- lift (nlwrap_NewHandleAt containerNs) ;;
         match nhNs with
         | Err err => ret (Some (Errorf "can not get netlink handle: %v" (Some err)))
         | Ok nhNs =>
             deferring (Handle_Close nhNs)
               (nsLink <- lift (Handle_LinkByName nhNs ifName) ;;
                match nsLink with
                | Err err =>
                    ret (Some (Wrapf "link not found for interface %s on namespace %s: %w" err))
                | Ok nsLink =>
                    errorList <-
                      routeLoop nhNs (Link_Index nsLink) vrfTable
                        (SortFunc byScopeDescending routeConfig) [] ;;
                    ret (errors_Join errorList)
                end)
         end)
  end.

(** The loop of [applyNeighborConfig]. *)
Fixpoint neighLoop (nhNs : Handle) (linkIndex : Z)
    (neighConfig : list NeighborConfig) (errorList : list error)
  : M (list error) :=
  match neighConfig with
  | [] => ret errorList
  | neigh :: rest =>
      match ParseIP (neigh_Destination neigh) with
      | None =>
          neighLoop nhNs linkIndex rest
            (errorList ++ [Errorf "invalid ip address: %s" None])
      | Some ip =>
          match ParseMAC (neigh_HardwareAddr neigh) with
          | Err _ =>
              neighLoop nhNs linkIndex rest
                (errorList ++ [Errorf "invalid mac address: %s" None])
          | Ok mac =>
              answer <- NeighAdd nhNs
                          {| neighbor_LinkIndex := linkIndex;
                             neighbor_State := NUD_PERMANENT;
                             neighbor_IP := ip;
                             neighbor_HardwareAddr := mac |} ;;
              match rejected answer with
              | Some err =>
                  neighLoop nhNs linkIndex rest
                    (errorList ++ [Wrapf "failed to add permanent neighbor entry %s (%s) for interface %s: %w" err])
              | None => neighLoop nhNs linkIndex rest errorList
              end
          end
      end
  end.

(** [applyNeighborConfig(containerNsPAth, ifName, neighConfig)]. *)
Definition applyNeighborConfig (containerNsPAth ifName : string)
    (neighConfig : list NeighborConfig) : M (option error) :=
  containerNs <- lift (netns_GetFromPath containerNsPAth) ;;
  match containerNs with
  | Err err =>
      ret (Some (Wrapf "could not get network namespace from path %s: %w" err))
  | Ok containerNs =>
      deferring (NsHandle_Close containerNs)
        (nhNs <- lift (nlwrap_NewHandleAt containerNs) ;;
         match nhNs with
         | Err err => ret (Some (Errorf "could not get netlink handle: %v" (Some err)))
         | Ok nhNs =>
             deferring (Handle_Close nhNs)
               (nsLink <- lift (Handle_LinkByName nhNs ifName) ;;
                match nsLink with
                | Err err =>
                    ret (Some (Wrapf "link not found for interface %s on namespace %s: %w" err))
                | Ok nsLink =>
                    errorList <- neighLoop nhNs (Link_Index nsLink) neighConfig [] ;;
                    ret (errors_Join errorList)
                end)
         end)
  end.

(** The two optional matches of a rule: [Err] is the parse error that
    makes the loop [continue]. *)
Definition ruleFor (ruleCfg : RuleConfig) : result Rule :=
  let src :=
    if negb (String.eqb (rule_Source ruleCfg) "") then
      match ParseCIDR (rule_Source ruleCfg) with
      | Err err => Err err
      | Ok (_, src) => Ok (Some src)
      end
    else Ok None in
  match src with
  | Err err => Err err
  | Ok src =>
      let dst :=
        if negb (String.eqb (rule_Destination ruleCfg) "") then
          match ParseCIDR (rule_Destination ruleCfg) with
          | Err err => Err err
          | Ok (_, dst) => Ok (Some dst)
          end
        else Ok None in
      match dst with
      | Err err => Err err
      | Ok dst =>
          Ok {| policy_Priority := rule_Priority ruleCfg;
                policy_Table := rule_Table ruleCfg;
                policy_Src := src;
                policy_Dst := dst |}
      end
  end.

(** The loop of [applyRulesConfig]. *)
Fixpoint ruleLoop (nsHandle : Handle) (rulesConfig : list RuleConfig)
    (errorList : list error) : M (list error) :=
  match rulesConfig with
  | [] => ret errorList
  | ruleCfg :: rest =>
      match ruleFor ruleCfg with
      | Err err => ruleLoop nsHandle rest (errorList ++ [err])
      | Ok rule =>
          answer <- RuleAdd nsHandle rule ;;
          match rejected answer with
          | Some err =>
              ruleLoop nsHandle rest
                (errorList ++ [Wrapf "failed to add rule %s on namespace %s: %w" err])
          | None => ruleLoop nsHandle rest errorList
          end
      end
  end.

(** [applyRulesConfig(containerNsPath, rulesConfig)]. *)
Definition applyRulesConfig (containerNsPath : string)
    (rulesConfig : list RuleConfig) : M (option error) :=
  containerNs <- lift (netns_GetFromPath containerNsPath) ;;
  match containerNs with
  | Err err => ret (Some err)
  | Ok containerNs =>
      deferring (NsHandle_Close containerNs)
        (nsHandle <- lift (nlwrap_NewHandleAt containerNs) ;;
         match nsHandle with
         | Err err => ret (Some (Errorf "could not get netlink handle: %v" (Some err)))
         | Ok nsHandle =>
             deferring (Handle_Close nsHandle)
               (errorList <- ruleLoop nsHandle rulesConfig [] ;;
                ret (errors_Join errorList))
         end)
  end.

End Engine.

End Driver.

(** ** pkg/driver: the VRF sysctl step

    [enableVRFSysctls] works on the calling OS thread: it pins the
    goroutine to it, reads and switches the thread's network namespace and
    writes two sysctls.  [Thread] is what the step can change: the nesting
    count of [runtime.LockOSThread], the namespace the thread is in, and
    the operations performed so far, oldest first.  [Outcomes] gives the
    error, if any, of each fallible call of the function. *)

Module VrfSysctl.
Import GoErrors.

(** The operations on process-wide state.  [EvMutexLock] and
    [EvMutexUnlock] are [sync.Mutex] operations, as the device plugin
    of the same package performs on its own lock. *)
Inductive Event : Type :=
| EvLockOSThread
| EvUnlockOSThread
| EvNetnsGet (answer : option error)
| EvNetnsSet (ns : Z) (answer : option error)
| EvNsClose (ns : Z)
| EvSetSysctl (name : string) (value : Z) (answer : option error)
| EvMutexLock
| EvMutexUnlock.

Record Thread : Type := {
  lockCount : nat;
  ambient : Z;
  events : list Event;
}.

Record Outcomes : Type := {
  netns_Get_err : option error;
  netns_Set_target_err : option error;
  tcp_l3mdev_accept_err : option error;
  udp_l3mdev_accept_err : option error;
  netns_Set_origns_err : option error;
}.

Definition log (e : Event) (t : Thread) : Thread :=
  {| lockCount := lockCount t; ambient := ambient t; events := events t ++ [e] |}.

Definition LockOSThread (t : Thread) : Thread :=
  log EvLockOSThread
    {| lockCount := S (lockCount t); ambient := ambient t; events := events t |}.

Definition UnlockOSThread (t : Thread) : Thread :=
  log EvUnlockOSThread
    {| lockCount := Nat.pred (lockCount t); ambient := ambient t; events := events t |}.

(** [netns.Get()]: a handle on the namespace the thread is in. *)
Definition netns_Get (err : option error) (t : Thread) : result Z * Thread :=
  match err with
  | Some e => (Err e, log (EvNetnsGet err) t)
  | None => (Ok (ambient t), log (EvNetnsGet err) t)
  end.

(** [netns.Set(ns)]: on success the thread is in [ns]. *)
Definition netns_Set (err : option error) (ns : Z) (t : Thread)
  : option error * Thread :=
  match err with
  | Some e => (Some e, log (EvNetnsSet ns err) t)
  | None =>
      (None, log (EvNetnsSet ns err)
               {| lockCount := lockCount t; ambient := ns; events := events t |})
  end.

Definition NsHandle_Close (ns : Z) (t : Thread) : Thread := log (EvNsClose ns) t.

Definition SetSysctl (err : option error) (name : string) (value : Z) (t : Thread)
  : option error * Thread :=
  (err, log (EvSetSysctl name value err) t).

(** [enableVRFSysctls(containerNsFd)]; the deferred calls run, last
    registered first, when the body returns. *)
Definition enableVRFSysctls (o : Outcomes) (containerNsFd : Z) (t : Thread)
  : option error * Thread :=
  let t := LockOSThread t in
  let '(res, t) :=
    match netns_Get (netns_Get_err o) t with
    | (Err err, t) => (Some err, t)
    | (Ok origns, t) =>
        let '(res, t) :=
          match netns_Set (netns_Set_target_err o) containerNsFd t with
          | (Some err, t) => (Some err, t)
          | (None, t) =>
              let '(res, t) :=
                match SetSysctl (tcp_l3mdev_accept_err o)
                        "net/ipv4/tcp_l3mdev_accept" 1 t with
                | (Some err, t) =>
                    (Some (Wrapf "failed to set tcp_l3mdev_accept: %w" err), t)
                | (None, t) =>
                    match SetSysctl (udp_l3mdev_accept_err o)
                            "net/ipv4/udp_l3mdev_accept" 1 t with
                    | (Some err, t) =>
                        (Some (Wrapf "failed to set udp_l3mdev_accept: %w" err), t)
                    | (None, t) => (None, t)
                    end
                end in
              (* defer netns.Set(origns) //nolint:errcheck *)
              (res, snd (netns_Set (netns_Set_origns_err o) origns t))
          end in
        (* defer origns.Close() //nolint:errcheck *)
        (res, NsHandle_Close origns t)
    end in
  (* defer runtime.UnlockOSThread() *)
  (res, UnlockOSThread t).

(** The events a call adds to the thread's history. *)
Definition performed (t t' : Thread) : list Event :=
  drop (List.length (events t)) (events t').

(** The step is "serialized by a mutual-exclusion lock" when its
    switches and sysctl writes happen between a [Lock] and the
    following [Unlock]. *)
Definition isCritical (e : Event) : bool :=
  match e with
  | EvNetnsSet _ _ | EvSetSysctl _ _ _ => true
  | _ => false
  end.

Definition underMutex (evs : list Event) : Prop :=
  exists before inside after : list Event,
    evs = (before ++ [EvMutexLock] ++ inside ++ [EvMutexUnlock] ++ after)%list
    /\ forallb (fun e => negb (isCritical e)) before = true
    /\ forallb (fun e => negb (isCritical e)) after = true.

End VrfSysctl.

(** * Properties *)

(** ** Byte strings *)

Section StringFacts.
Import GoStrings.

Lemma append_cons (c : ascii) (s t : string) :
  (String c s ++ t)%string = String c (s ++ t)%string.
Proof. reflexivity. Qed.

Lemma append_nil (t : string) : ("" ++ t)%string = t.
Proof. reflexivity. Qed.

Ltac ssimpl := simpl; rewrite ?append_cons, ?append_nil; simpl.

Lemma keep_skip (n : nat) (s : string) : (keep n s ++ skip n s)%string = s.
Proof.
  revert s; induction n as [|n IH]; intros [|c s]; ssimpl; try reflexivity.
  now rewrite IH.
Qed.

Lemma length_keep (n : nat) (s : string) :
  String.length (keep n s) = Nat.min n (String.length s).
Proof.
  revert s; induction n as [|n IH]; intros [|c s]; simpl; try reflexivity.
  now rewrite IH.
Qed.

Lemma keep_all (s : string) : keep (String.length s) s = s.
Proof. induction s as [|c s IH]; simpl; [reflexivity | now rewrite IH]. Qed.

Lemma IndexByte_None_app (s1 s2 : string) (c : ascii) :
  IndexByte (s1 ++ s2)%string c = None <->
  IndexByte s1 c = None /\ IndexByte s2 c = None.
Proof.
  induction s1 as [|d s1 IH]; ssimpl.
  - tauto.
  - destruct (Ascii.eqb d c).
    + split; [discriminate | intros [? _]; discriminate].
    + rewrite !fmap_None. exact IH.
Qed.

Lemma IndexByte_Some_split (s : string) (c : ascii) (i : nat) :
  IndexByte s c = Some i ->
  s = (keep i s ++ String c (skip (S i) s))%string /\ IndexByte (keep i s) c = None.
Proof.
  revert i; induction s as [|d s IH]; intros i; simpl; [discriminate|].
  destruct (Ascii.eqb_spec d c) as [->|Hne].
  - intros [= <-]. ssimpl. split; [|reflexivity].
    destruct s; reflexivity.
  - destruct (IndexByte s c) as [j|] eqn:E; simpl; [|discriminate].
    intros [= <-]. destruct (IH j eq_refl) as [H1 H2]. ssimpl.
    split.
    + f_equal. exact H1.
    + destruct (Ascii.eqb_spec d c); [contradiction|]. now rewrite H2.
Qed.

Lemma LastIndexByte_None (s : string) (c : ascii) :
  LastIndexByte s c = None <-> IndexByte s c = None.
Proof.
  induction s as [|d s IH]; simpl; [tauto|].
  destruct (LastIndexByte s c), (Ascii.eqb d c), (IndexByte s c); simpl;
    intuition discriminate.
Qed.

Lemma LastIndexByte_Some_split (s : string) (c : ascii) (i : nat) :
  LastIndexByte s c = Some i ->
  s = (keep i s ++ String c (skip (S i) s))%string
  /\ IndexByte (skip (S i) s) c = None.
Proof.
  revert i; induction s as [|d s IH]; intros i; simpl; [discriminate|].
  destruct (LastIndexByte s c) as [j|] eqn:E.
  - intros [= <-]. destruct (IH j eq_refl) as [H1 H2]. ssimpl.
    split; [f_equal; exact H1 | exact H2].
  - destruct (Ascii.eqb_spec d c) as [->|Hne]; [|discriminate].
    intros [= <-]. ssimpl. split.
    + destruct s; reflexivity.
    + apply LastIndexByte_None in E. destruct s; exact E.
Qed.

Lemma IndexByte_app_sep (p t : string) (c : ascii) :
  IndexByte p c = None ->
  IndexByte (p ++ String c t)%string c = Some (String.length p).
Proof.
  induction p as [|d p IH]; ssimpl.
  - intros _. now rewrite Ascii.eqb_refl.
  - destruct (Ascii.eqb d c); [discriminate|].
    destruct (IndexByte p c) eqn:E; [discriminate|].
    intros _. now rewrite IH.
Qed.

Lemma keep_app_length (p t : string) : keep (String.length p) (p ++ t)%string = p.
Proof. induction p as [|d p IH]; ssimpl; [now destruct t | now rewrite IH]. Qed.

Lemma skip_app_length (p t : string) (c : ascii) :
  skip (S (String.length p)) (p ++ String c t)%string = t.
Proof. induction p as [|d p IH]; ssimpl; [now destruct t | exact IH]. Qed.

Lemma LastIndexByte_app_sep (p t : string) (c : ascii) :
  IndexByte t c = None ->
  LastIndexByte (p ++ String c t)%string c = Some (String.length p).
Proof.
  intros Ht. induction p as [|d p IH]; ssimpl.
  - apply LastIndexByte_None in Ht. rewrite Ht. now rewrite Ascii.eqb_refl.
  - now rewrite IH.
Qed.

End StringFacts.

(** ** The short name of a path (C10) *)

Section ShortName.
Import GoStrings Inventory.

Lemma lastSegment_no_separator (path : string) :
  IndexByte (lastSegment path) "/"%char = None.
Proof.
  unfold lastSegment. destruct (LastIndexByte path "/"%char) as [i|] eqn:E.
  - now apply LastIndexByte_Some_split in E.
  - now apply LastIndexByte_None.
Qed.

Lemma lastSegment_after_final (prefix segment : string) :
  IndexByte segment "/"%char = None ->
  lastSegment (prefix ++ String "/"%char segment)%string = segment.
Proof.
  intros H. unfold lastSegment.
  rewrite (LastIndexByte_app_sep _ _ _ H). apply skip_app_length.
Qed.

(** C10.  [shortName path maxLength] is the part of [path] after its
    final ['/'] (all of [path] without one, empty when [path] ends in
    ['/'] or is empty), cut to its first [maxLength] bytes when it is
    longer; the four values of the design document are as stated. *)
Theorem shortName_last_segment_truncated :
  forall (path : string) (maxLength : Z),
    0 <= maxLength ->
    (* the segment: what follows the final separator *)
    (IndexByte (lastSegment path) "/"%char = None
     /\ (IndexByte path "/"%char = None -> lastSegment path = path)
     /\ (IndexByte path "/"%char <> None ->
         exists prefix, path = (prefix ++ "/" ++ lastSegment path)%string)
     /\ (forall prefix, path = (prefix ++ "/")%string -> lastSegment path = "")
     /\ (path = "" -> lastSegment path = ""))
    (* the truncation, by bytes *)
    /\ (exists cut, lastSegment path = (shortName path maxLength ++ cut)%string)
    /\ len (shortName path maxLength) = Z.min maxLength (len (lastSegment path))
    /\ len (shortName path maxLength) <= maxLength
    (* the documented values *)
    /\ shortName "/path/to/segment" 20 = "segment"
    /\ shortName "/path/to/verylongsegmentname" 10 = "verylongse"
    /\ shortName "/path/to/segment/" 10 = ""
    /\ shortName "" 10 = "".
Proof.
  intros path maxLength Hmax.
  assert (Htrunc : shortName path maxLength
                   = keep (Z.to_nat (Z.min maxLength (len (lastSegment path))))
                       (lastSegment path)).
  { unfold shortName.
    destruct (Z.ltb_spec maxLength (len (lastSegment path))) as [Hlt|Hge].
    - now rewrite Z.min_l by lia.
    - rewrite Z.min_r by lia. unfold len. now rewrite Nat2Z.id, keep_all. }
  repeat split.
  - apply lastSegment_no_separator.
  - intros H. unfold lastSegment. apply LastIndexByte_None in H. now rewrite H.
  - intros H. unfold lastSegment.
    destruct (LastIndexByte path "/"%char) as [i|] eqn:E.
    + exists (keep i path). apply LastIndexByte_Some_split in E as [E _]. exact E.
    + apply LastIndexByte_None in E. contradiction.
  - intros prefix ->. now apply (lastSegment_after_final prefix "").
  - now intros ->.
  - exists (skip (Z.to_nat (Z.min maxLength (len (lastSegment path)))) (lastSegment path)).
    rewrite Htrunc. symmetry. apply keep_skip.
  - rewrite Htrunc. unfold len. rewrite length_keep. unfold len. lia.
  - rewrite Htrunc. unfold len. rewrite length_keep. lia.
Qed.

Lemma shortName_last_segment_truncated_witness :
  0 <= 10
  /\ len (shortName "/path/to/verylongsegmentname" 10) <= 10.
Proof.
  split; [lia|].
  apply (shortName_last_segment_truncated "/path/to/verylongsegmentname" 10). lia.
Defined.

End ShortName.

(** ** The VRF table allocator (C7) *)

Section VRFTable.
Import Apis.

Lemma Write32a_range (hash : Z) (data : string) :
  0 <= hash < 2 ^ 32 -> 0 <= Fnv.Write32a hash data < 2 ^ 32.
Proof.
  revert hash; induction data as [|c data IH]; intros hash H; simpl; [exact H|].
  apply IH. unfold Fnv.step32a. apply Z.mod_pos_bound. lia.
Qed.

Lemma Sum32a_range (s : string) : 0 <= Fnv.Sum32a s < 2 ^ 32.
Proof. apply Write32a_range. unfold Fnv.offset32. lia. Qed.

(** The test vectors of the FNV-1a reference implementation. *)
Example Sum32a_empty : Fnv.Sum32a "" = 0x811c9dc5.
Proof. reflexivity. Qed.

Example Sum32a_a : Fnv.Sum32a "a" = 0xe40c292c.
Proof. vm_compute. reflexivity. Qed.

Example Sum32a_foobar : Fnv.Sum32a "foobar" = 0xbf9cf968.
Proof. vm_compute. reflexivity. Qed.

(** C7.  A VRF configuration without a table and with a name gets the
    table [FNV-1a-32(name) mod 1000 + VRFTableOffset]; two
    configurations with the same name get the same table; a
    configuration that has a table is left as it is. *)
Theorem VRFConfig_Default_table :
  forall (VRFTableOffset : Z),
    0 <= VRFTableOffset <= 2 ^ 32 - 1000 ->
    (forall c : VRFConfig,
        vrf_Table c = None -> vrf_Name c <> "" ->
        VRFConfig_Default VRFTableOffset c
        = {| vrf_Name := vrf_Name c;
             vrf_Table := Some (Fnv.Sum32a (vrf_Name c) mod 1000 + VRFTableOffset) |})
    /\ (forall c1 c2 : VRFConfig,
           vrf_Table c1 = None -> vrf_Table c2 = None ->
           vrf_Name c1 = vrf_Name c2 ->
           vrf_Table (VRFConfig_Default VRFTableOffset c1)
           = vrf_Table (VRFConfig_Default VRFTableOffset c2))
    /\ (forall (c : VRFConfig) (table : Z),
           vrf_Table c = Some table -> VRFConfig_Default VRFTableOffset c = c).
Proof.
  intros off Hoff. repeat split.
  - intros [name table] Ht Hn; simpl in *; subst table.
    unfold VRFConfig_Default; simpl.
    destruct (String.eqb_spec name "") as [->|_]; [contradiction|]. simpl.
    unfold deriveTable. rewrite Z.mod_small; [reflexivity|].
    pose proof (Z.mod_pos_bound (Fnv.Sum32a name) 1000). lia.
  - intros [n1 t1] [n2 t2]; simpl; intros -> -> ->. reflexivity.
  - intros [name t] table; simpl; intros ->. reflexivity.
Qed.

Lemma VRFConfig_Default_table_witness :
  0 <= 1000 <= 2 ^ 32 - 1000
  /\ VRFConfig_Default 1000 {| vrf_Name := "blue"; vrf_Table := None |}
     = {| vrf_Name := "blue";
          vrf_Table := Some (Fnv.Sum32a "blue" mod 1000 + 1000) |}.
Proof.
  split; [lia|].
  apply (VRFConfig_Default_table 1000); [lia | reflexivity | discriminate].
Defined.

End VRFTable.

(** ** Splitting a path *)

Section SplitFacts.
Import GoStrings.

Ltac ssimpl := simpl; rewrite ?append_cons, ?append_nil; simpl.

Lemma Count_zero (s : string) (c : ascii) :
  Count s c = O <-> IndexByte s c = None.
Proof.
  induction s as [|d s IH]; simpl; [tauto|].
  destruct (Ascii.eqb d c); simpl.
  - split; discriminate.
  - rewrite fmap_None. exact IH.
Qed.

Lemma Count_app (s t : string) (c : ascii) :
  Count (s ++ t)%string c = (Count s c + Count t c)%nat.
Proof. induction s as [|d s IH]; ssimpl; [reflexivity | rewrite IH; lia]. Qed.

Lemma Count_cut (s : string) (c : ascii) (m : nat) :
  IndexByte s c = Some m -> Count s c = S (Count (skip (S m) s) c).
Proof.
  intros H. destruct (IndexByte_Some_split _ _ _ H) as [E Hk].
  rewrite E at 1. rewrite Count_app. apply Count_zero in Hk. rewrite Hk.
  simpl. now rewrite Ascii.eqb_refl.
Qed.

Lemma length_genSplit (n : nat) (s : string) (c : ascii) :
  List.length (genSplit n s c) = S (Nat.min n (Count s c)).
Proof.
  revert s; induction n as [|n IH]; intros s; simpl; [reflexivity|].
  destruct (IndexByte s c) as [m|] eqn:E.
  - simpl. rewrite IH. rewrite (Count_cut _ _ _ E). reflexivity.
  - apply Count_zero in E. rewrite E. reflexivity.
Qed.

Lemma length_Split (s : string) (c : ascii) :
  List.length (Split s c) = S (Count s c).
Proof. unfold Split, SplitN. simpl. rewrite length_genSplit. lia. Qed.

(** Cutting further only splits the last piece: the pieces before it
    are the same, and joining the finer pieces gives it back. *)
Lemma Join_genSplit (n : nat) (s : string) (c : ascii) :
  Join (genSplit n s c) (String c "") = s.
Proof.
  revert s; induction n as [|n IH]; intros s; cbn [genSplit]; [reflexivity|].
  destruct (IndexByte s c) as [m|] eqn:E; [|reflexivity].
  specialize (IH (skip (S m) s)).
  destruct (genSplit n (skip (S m) s) c) as [|p ps] eqn:G.
  - pose proof (length_genSplit n (skip (S m) s) c) as L. rewrite G in L.
    discriminate.
  - change (Join (keep m s :: p :: ps) (String c ""))
      with (keep m s ++ String c "" ++ Join (p :: ps) (String c ""))%string.
    rewrite IH. ssimpl. symmetry. now apply IndexByte_Some_split.
Qed.

Lemma genSplit_refine (n k : nat) (s : string) (c : ascii) :
  (n < List.length (genSplit (n + k) s c))%nat ->
  genSplit n s c
  = (take n (genSplit (n + k) s c)
     ++ [Join (drop n (genSplit (n + k) s c)) (String c "")])%list.
Proof.
  revert s; induction n as [|n IH]; intros s; cbn [genSplit Nat.add].
  - intros _. rewrite take_0, drop_0. cbn [app]. now rewrite Join_genSplit.
  - destruct (IndexByte s c) as [m|] eqn:E.
    + intros L. rewrite firstn_cons, skipn_cons. cbn [app]. f_equal.
      apply IH. cbn [List.length] in L. lia.
    + cbn [List.length]. lia.
Qed.

Lemma SplitN_3 (s : string) (c : ascii) : SplitN s c 3 = genSplit 2 s c.
Proof. reflexivity. Qed.

Lemma Split_eq (s : string) (c : ascii) : Split s c = genSplit (Count s c) s c.
Proof. reflexivity. Qed.

(** [SplitN(s, "/", 3)] against [Split(s, "/")]. *)
Lemma SplitN3_Split (s : string) (c : ascii) :
  let all := Split s c in
  if (3 <=? List.length all)%nat then
    SplitN s c 3
    = [nth 0 all ""; nth 1 all ""; Join (drop 2 all) (String c "")]
  else SplitN s c 3 = all /\ (List.length (SplitN s c 3) < 3)%nat.
Proof.
  intros all. subst all. rewrite SplitN_3, Split_eq.
  destruct (Nat.leb_spec 3 (List.length (genSplit (Count s c) s c))) as [L|L].
  - rewrite length_genSplit in L.
    assert (Hc : Count s c = (2 + (Count s c - 2))%nat) by lia.
    pose proof (genSplit_refine 2 (Count s c - 2) s c) as R.
    rewrite <- Hc in R. rewrite R by (rewrite length_genSplit; lia).
    remember (genSplit (Count s c) s c) as l eqn:El.
    assert (Hl : (3 <= List.length l)%nat).
    { subst l. rewrite length_genSplit. lia. }
    destruct l as [|a [|b l]]; simpl in Hl; try lia. reflexivity.
  - rewrite length_genSplit in L.
    assert (Hc : (Count s c <= 1)%nat) by lia.
    assert (E : genSplit 2 s c = genSplit (Count s c) s c).
    { cbn [genSplit]. destruct (IndexByte s c) as [m|] eqn:E.
      - rewrite (Count_cut _ _ _ E) in *.
        assert (H0 : Count (skip (S m) s) c = O) by lia.
        rewrite H0. cbn [genSplit]. rewrite E. f_equal.
        apply Count_zero in H0. now rewrite H0.
      - apply Count_zero in E. rewrite E. reflexivity. }
    rewrite E. split; [reflexivity|]. rewrite length_genSplit. lia.
Qed.

End SplitFacts.

(** ** The attributes of a device on GCE (C1, C2, C8) *)

Section DeviceAttributes.
Import GoStrings Gce.

Ltac keys_ne := apply String.eqb_neq; vm_compute; reflexivity.

(** The three keys of the device itself. *)
Definition isDeviceKey (k : string) : bool :=
  String.eqb k AttrGCEIPAliases || String.eqb k AttrGCENetworkName
  || String.eqb k AttrGCENetworkProjectNumber.

Lemma interfaceForMac_None (interfaces : list gceNetworkInterface) (mac : string) :
  interfaceForMac interfaces mac = None <->
  (forall i, In i interfaces -> Mac i <> mac).
Proof.
  induction interfaces as [|i l IH]; simpl.
  - split; [intros _ ? [] | reflexivity].
  - destruct (String.eqb_spec (Mac i) mac) as [E|N].
    + split; [discriminate|]. intros H. exfalso. apply (H i); auto.
    + rewrite IH. split.
      * intros H j [<-|Hj]; auto.
      * intros H j Hj. apply H. auto.
Qed.

Lemma interfaceForMac_Some (interfaces : list gceNetworkInterface) (mac : string)
    (i : gceNetworkInterface) :
  interfaceForMac interfaces mac = Some i -> In i interfaces /\ Mac i = mac.
Proof.
  induction interfaces as [|j l IH]; simpl; [discriminate|].
  destruct (String.eqb_spec (Mac j) mac) as [E|N].
  - intros [= <-]. auto.
  - intros H. destruct (IH H). auto.
Qed.

Lemma nodeAttributes_machineType (g : GCEInstance) :
  nodeAttributes g !! AttrGCEMachineType = Some (StringValue (inst_Type g)).
Proof.
  unfold nodeAttributes.
  destruct (negb (String.eqb (Topology g) "")); [|apply lookup_insert_eq].
  destruct (Nat.eqb _ 3); [|apply lookup_insert_eq].
  rewrite !lookup_insert_ne by keys_ne. apply lookup_insert_eq.
Qed.

Lemma nodeAttributes_no_device_key (g : GCEInstance) (k : string) :
  isDeviceKey k = true -> nodeAttributes g !! k = None.
Proof.
  unfold isDeviceKey. rewrite !orb_true_iff, !String.eqb_eq.
  intros H. unfold nodeAttributes.
  destruct (negb (String.eqb (Topology g) "")); [destruct (Nat.eqb _ 3)|];
    destruct H as [[-> | ->] | ->];
    rewrite ?lookup_insert_ne by keys_ne; apply lookup_empty.
Qed.

Lemma nodeAttributes_keys (g : GCEInstance) (k : string) :
  is_Some (nodeAttributes g !! k) ->
  In k [AttrGCEMachineType; AttrGCEBlock; AttrGCESubBlock; AttrGCEHost].
Proof.
  unfold nodeAttributes.
  destruct (negb (String.eqb (Topology g) "")); [destruct (Nat.eqb _ 3)|];
    rewrite ?lookup_insert; repeat case_decide; subst; simpl; auto;
    rewrite lookup_empty; intros [? [=]].
Qed.

(** The topology attributes of the node, by the number of segments. *)
Lemma nodeAttributes_topology (g : GCEInstance) :
  Topology g <> "" ->
  let segments := topologySegments (Topology g) in
  if (3 <=? List.length segments)%nat then
    nodeAttributes g !! AttrGCEBlock = Some (StringValue (nth 0 segments ""))
    /\ nodeAttributes g !! AttrGCESubBlock = Some (StringValue (nth 1 segments ""))
    /\ nodeAttributes g !! AttrGCEHost
       = Some (StringValue (Join (drop 2 segments) "/"))
  else
    nodeAttributes g !! AttrGCEBlock = None
    /\ nodeAttributes g !! AttrGCESubBlock = None
    /\ nodeAttributes g !! AttrGCEHost = None.
Proof.
  intros Ht segments. subst segments. unfold topologySegments, nodeAttributes.
  destruct (String.eqb_spec (Topology g) "") as [E|_]; [contradiction|].
  cbn [negb].
  pose proof (SplitN3_Split (TrimPrefix (Topology g) "/") "/"%char) as S3.
  cbv zeta in S3.
  destruct (3 <=? List.length (Split (TrimPrefix (Topology g) "/") "/"%char))%nat.
  - rewrite S3. cbn [List.length Nat.eqb nth].
    repeat split;
      repeat (rewrite lookup_insert_eq || rewrite lookup_insert_ne by keys_ne);
      reflexivity.
  - destruct S3 as [_ L].
    destruct (Nat.eqb_spec (List.length (SplitN (TrimPrefix (Topology g) "/") "/"%char 3)) 3)
      as [E3|_]; [lia|].
    rewrite !lookup_insert_ne by keys_ne. rewrite lookup_empty. auto.
Qed.

Section Scanner.
Variable Sscanf : string -> option (Z * string).

(** What the call adds to the node's attributes is under the three
    device keys only. *)
Lemma GetDeviceAttributes_node_part (g : GCEInstance) (id : DeviceIdentifiers)
    (attrs : gmap string DeviceAttribute) (k : string) :
  GetDeviceAttributes Sscanf g id = Some attrs ->
  isDeviceKey k = false ->
  attrs !! k = nodeAttributes g !! k.
Proof.
  unfold GetDeviceAttributes, isDeviceKey.
  rewrite !orb_false_iff, !String.eqb_neq. intros H [[K1 K2] K3].
  destruct (String.eqb (MAC id) ""); [now inversion H|].
  destruct (interfaceForMac (Interfaces g) (MAC id)) as [i|]; [|now inversion H].
  destruct (Sscanf (Network i)) as [[n name]|]; [|discriminate].
  inversion H; subst attrs; clear H.
  rewrite !lookup_insert_ne by congruence.
  destruct (0 <? _); [now rewrite lookup_insert_ne by congruence | reflexivity].
Qed.

(** Whether the call returns data does not depend on the topology. *)
Lemma GetDeviceAttributes_nil_topology (g : GCEInstance) (id : DeviceIdentifiers)
    (topology : string) :
  GetDeviceAttributes Sscanf g id = None <->
  GetDeviceAttributes Sscanf (withTopology g topology) id = None.
Proof.
  unfold GetDeviceAttributes, withTopology; simpl.
  destruct (String.eqb (MAC id) ""); [split; discriminate|].
  destruct (interfaceForMac (Interfaces g) (MAC id)) as [i|];
    [|split; discriminate].
  destruct (Sscanf (Network i)) as [[n name]|]; [split; discriminate | tauto].
Qed.
End Scanner.

End DeviceAttributes.

Section DeviceAttributeClaims.
Import GoStrings Gce.

Lemma GetDeviceAttributes_matched (Sscanf : string -> option (Z * string))
    (g : GCEInstance) (id : DeviceIdentifiers) (i : gceNetworkInterface) :
  MAC id <> "" ->
  interfaceForMac (Interfaces g) (MAC id) = Some i ->
  GetDeviceAttributes Sscanf g id
  = match Sscanf (Network i) with
    | None => None
    | Some (projectNumber, name) =>
        Some (<[AttrGCENetworkProjectNumber := IntValue projectNumber]>
                (<[AttrGCENetworkName := StringValue name]>
                   (if 0 <? Z.of_nat (List.length (IPAliases i)) then
                      <[AttrGCEIPAliases := StringValue (Join (IPAliases i) ",")]>
                        (nodeAttributes g)
                    else nodeAttributes g)))
    end.
Proof.
  intros Hmac Hi. unfold GetDeviceAttributes.
  destruct (String.eqb_spec (MAC id) "") as [E|_]; [contradiction|].
  rewrite Hi. reflexivity.
Qed.

Lemma GetDeviceAttributes_unmatched (Sscanf : string -> option (Z * string))
    (g : GCEInstance) (id : DeviceIdentifiers) :
  MAC id = "" \/ (forall i, In i (Interfaces g) -> Mac i <> MAC id) ->
  GetDeviceAttributes Sscanf g id = Some (nodeAttributes g).
Proof.
  intros H. unfold GetDeviceAttributes.
  destruct (String.eqb_spec (MAC id) "") as [E|N]; [reflexivity|].
  destruct H as [H|H]; [contradiction|].
  apply interfaceForMac_None in H. now rewrite H.
Qed.

(** An instance whose only interface has the given network path. *)
Definition sampleInstance (network topology : string) : GCEInstance :=
  {| inst_Name := "node-1";
     inst_Type := "machine-type-a";
     AcceleratorProtocol := "";
     Interfaces := [ {| IPv4 := ""; IPv6 := []; Mac := "00:11:22:33:44:55";
                        MTU := 0; Network := network; IPAliases := [] |} ];
     Topology := topology |}.

Definition sampleDevice (mac : string) : DeviceIdentifiers :=
  {| MAC := mac; PCIAddress := ""; Name := "" |}.




(** C2, as the design document words it, does not hold: the topology
    [/block/subblock/host/extra] has four segments, and the call emits
    the three topology attributes for it. *)
Lemma four_segments_still_emitted :
  ~ (forall (g : GCEInstance) (id : DeviceIdentifiers)
            (attrs : gmap string DeviceAttribute),
        Topology g <> "" ->
        GetDeviceAttributes GoFmt.Sscanf_projects_networks g id = Some attrs ->
        List.length (topologySegments (Topology g)) <> 3%nat ->
        attrs !! AttrGCEBlock = None
        /\ attrs !! AttrGCESubBlock = None
        /\ attrs !! AttrGCEHost = None).
Proof.
  intros H.
  destruct (H (sampleInstance "" "/block/subblock/host/extra") (sampleDevice "") _
              ltac:(discriminate) eq_refl ltac:(vm_compute; discriminate))
    as [Hb _].
  pose proof (nodeAttributes_topology
                (sampleInstance "" "/block/subblock/host/extra")
                ltac:(discriminate)) as T.
  cbv zeta in T.
  change (topologySegments
            (Topology (sampleInstance "" "/block/subblock/host/extra")))
    with ["block"; "subblock"; "host"; "extra"] in T.
  cbn [List.length Nat.leb] in T. destruct T as [T _].
  rewrite T in Hb. discriminate Hb.
Qed.

(** C2.  For a topology path that is not empty: whether the call returns
    data does not depend on the path; and in the data it returns, the
    block, sub-block and host attributes are all present when the path,
    without its leading ['/'], has at least three ['/']-separated
    segments, and all absent when it has fewer.  Block and sub-block
    are the first two segments, host is the rest of the path after the
    second separator: the third segment when there are exactly
    three. *)
Theorem topology_attributes_by_segment_count :
  forall (Sscanf : string -> option (Z * string))
         (g : GCEInstance) (id : DeviceIdentifiers),
    Topology g <> "" ->
    let segments := topologySegments (Topology g) in
    (forall topology,
        GetDeviceAttributes Sscanf g id = None <->
        GetDeviceAttributes Sscanf (withTopology g topology) id = None)
    /\ (forall attrs,
           GetDeviceAttributes Sscanf g id = Some attrs ->
           ((3 <= List.length segments)%nat ->
            attrs !! AttrGCEBlock = Some (StringValue (nth 0 segments ""))
            /\ attrs !! AttrGCESubBlock = Some (StringValue (nth 1 segments ""))
            /\ attrs !! AttrGCEHost = Some (StringValue (Join (drop 2 segments) "/")))
           /\ (List.length segments = 3%nat ->
               attrs !! AttrGCEHost = Some (StringValue (nth 2 segments "")))
           /\ ((List.length segments < 3)%nat ->
               attrs !! AttrGCEBlock = None
               /\ attrs !! AttrGCESubBlock = None
               /\ attrs !! AttrGCEHost = None)).
Proof.
  intros Sscanf g id Ht segments. split.
  - intros topology. apply GetDeviceAttributes_nil_topology.
  - intros attrs Ha.
    rewrite !(GetDeviceAttributes_node_part Sscanf g id attrs _ Ha) by reflexivity.
    pose proof (nodeAttributes_topology g Ht) as T. cbv zeta in T.
    fold segments in T. revert T.
    destruct (Nat.leb_spec 3 (List.length segments)) as [L|L];
      intros (T1 & T2 & T3).
    + split; [auto|]. split; [|lia].
      intros L3. rewrite T3.
      destruct segments as [|a [|b [|c [|d l]]]]; simpl in L3; try lia.
      reflexivity.
    + split; [lia|]. split; [lia|]. auto.
Qed.

Lemma topology_attributes_by_segment_count_witness :
  Topology (sampleInstance "projects/12345/networks/test-network"
              "/block/subblock/host") <> ""
  /\ exists attrs,
       GetDeviceAttributes GoFmt.Sscanf_projects_networks
         (sampleInstance "projects/12345/networks/test-network"
            "/block/subblock/host")
         (sampleDevice "00:11:22:33:44:55") = Some attrs
       /\ attrs !! AttrGCEHost = Some (StringValue "host").
Proof.
  split; [discriminate|].
  eexists. split; [vm_compute; reflexivity|].
  refine (proj1 (proj2 (proj2 (topology_attributes_by_segment_count
                   GoFmt.Sscanf_projects_networks
                   (sampleInstance "projects/12345/networks/test-network"
                      "/block/subblock/host")
                   (sampleDevice "00:11:22:33:44:55") _) _ _)) _).
  - discriminate.
  - vm_compute. reflexivity.
  - reflexivity.
Defined.

(** C8.  With a MAC whose first matching interface record has the
    network path [projects/12345/networks/test-network], the call
    returns the network name [test-network] and the project number
    [12345] together with the machine type.  With an empty MAC, or one
    no interface record has, the call returns data (not nil): the
    attributes of the node, which hold the machine type, hold nothing
    under a key other than machine type, block, sub-block and host, and
    hold no attribute of a device. *)
Theorem matched_and_unmatched_mac :
  forall (g : GCEInstance) (id : DeviceIdentifiers),
    (forall i,
        MAC id <> "" ->
        interfaceForMac (Interfaces g) (MAC id) = Some i ->
        Network i = "projects/12345/networks/test-network" ->
        exists attrs,
          GetDeviceAttributes GoFmt.Sscanf_projects_networks g id = Some attrs
          /\ attrs !! AttrGCENetworkName = Some (StringValue "test-network")
          /\ attrs !! AttrGCENetworkProjectNumber = Some (IntValue 12345)
          /\ attrs !! AttrGCEMachineType = Some (StringValue (inst_Type g)))
    /\ (forall Sscanf : string -> option (Z * string),
           MAC id = "" \/ (forall i, In i (Interfaces g) -> Mac i <> MAC id) ->
           exists attrs,
             GetDeviceAttributes Sscanf g id = Some attrs
             /\ attrs = nodeAttributes g
             /\ attrs !! AttrGCEMachineType = Some (StringValue (inst_Type g))
             /\ (forall k, is_Some (attrs !! k) ->
                           In k [AttrGCEMachineType; AttrGCEBlock;
                                 AttrGCESubBlock; AttrGCEHost])
             /\ attrs !! AttrGCENetworkName = None
             /\ attrs !! AttrGCENetworkProjectNumber = None
             /\ attrs !! AttrGCEIPAliases = None).
Proof.
  intros g id. split.
  - intros i Hmac Hi Hn.
    rewrite (GetDeviceAttributes_matched _ g id i Hmac Hi), Hn.
    change (GoFmt.Sscanf_projects_networks "projects/12345/networks/test-network")
      with (Some (12345, "test-network")).
    eexists. split; [reflexivity|]. repeat split.
    + rewrite lookup_insert_ne by (apply String.eqb_neq; vm_compute; reflexivity).
      apply lookup_insert_eq.
    + apply lookup_insert_eq.
    + rewrite !lookup_insert_ne by (apply String.eqb_neq; vm_compute; reflexivity).
      destruct (0 <? _).
      * rewrite lookup_insert_ne by (apply String.eqb_neq; vm_compute; reflexivity).
        apply nodeAttributes_machineType.
      * apply nodeAttributes_machineType.
  - intros Sscanf H. exists (nodeAttributes g).
    split; [now apply GetDeviceAttributes_unmatched|].
    split; [reflexivity|].
    split; [apply nodeAttributes_machineType|].
    split; [apply nodeAttributes_keys|].
    repeat split; now apply nodeAttributes_no_device_key.
Qed.

Lemma matched_and_unmatched_mac_witness :
  exists attrs,
    GetDeviceAttributes GoFmt.Sscanf_projects_networks
      (sampleInstance "projects/12345/networks/test-network" "")
      (sampleDevice "00:11:22:33:44:55") = Some attrs
    /\ attrs !! AttrGCENetworkName = Some (StringValue "test-network")
    /\ attrs !! AttrGCENetworkProjectNumber = Some (IntValue 12345)
    /\ attrs !! AttrGCEMachineType = Some (StringValue "machine-type-a").
Proof.
  destruct (matched_and_unmatched_mac
              (sampleInstance "projects/12345/networks/test-network" "")
              (sampleDevice "00:11:22:33:44:55")) as [H _].
  apply (H _ ltac:(discriminate) eq_refl eq_refl).
Defined.

End DeviceAttributeClaims.

(** ** An implementation of each interface

    The properties of the engine below hold for every address parser,
    every kernel and every sort that fit the interfaces.  This section
    gives one of each, to run the engine on: the IPv4 and 48-bit MAC part
    of package [net], a kernel that keeps the entries it is given and
    answers [EEXIST] for one it already has, and insertion sort. *)

Module Sample.
Import GoErrors GoStrings GoNet GoSlices Apis Driver.

(** A decimal field of an IPv4 address: one to three digits, no
    leading zero, at most 255. *)
Definition parseOctet (s : string) : option Z :=
  if (String.length s =? 0)%nat || (3 <? String.length s)%nat then None
  else if (1 <? String.length s)%nat && HasPrefix s "0" then None
  else match GoFmt.parseDecimal 0 s with
       | Some v => if v <=? 255 then Some v else None
       | None => None
       end.

Definition parseIPv4 (s : string) : option Z :=
  match Split s "."%char with
  | [a; b; c; d] =>
      match parseOctet a, parseOctet b, parseOctet c, parseOctet d with
      | Some a, Some b, Some c, Some d =>
          Some (Z.lor (Z.shiftl a 24) (Z.lor (Z.shiftl b 16) (Z.lor (Z.shiftl c 8) d)))
      | _, _, _, _ => None
      end
  | _ => None
  end.

(** The prefix length after the ['/']: digits only, at most 32. *)
Definition parsePrefixLen (s : string) : option Z :=
  if (String.length s =? 0)%nat then None
  else match GoFmt.parseDecimal 0 s with
       | Some n => if n <=? 32 then Some n else None
       | None => None
       end.

(** Address and network [(address with the host bits cleared, prefix
    length)]. *)
Definition parseIPv4Mask (addr mask : string) : option (Z * (Z * Z)) :=
  match parseIPv4 addr, parsePrefixLen mask with
  | Some ip, Some n => Some (ip, (Z.shiftl (Z.shiftr ip (32 - n)) (32 - n), n))
  | _, _ => None
  end.

Definition hexVal (c : ascii) : option Z :=
  let v := Fnv.byte_val c in
  if (48 <=? v) && (v <=? 57) then Some (v - 48)
  else if (97 <=? v) && (v <=? 102) then Some (v - 87)
  else if (65 <=? v) && (v <=? 70) then Some (v - 55)
  else None.

Definition parseHexByte (s : string) : option Z :=
  match s with
  | String h (String l EmptyString) =>
      match hexVal h, hexVal l with
      | Some h, Some l => Some (16 * h + l)
      | _, _ => None
      end
  | _ => None
  end.

(** The form [xx:xx:xx:xx:xx:xx] of a hardware address. *)
Definition parseMAC48 (s : string) : result (list Z) :=
  let fields := Split s ":"%char in
  match mapM parseHexByte fields with
  | Some bytes =>
      if (List.length bytes =? 6)%nat then Ok bytes
      else Err (Errorf "address %s: invalid MAC address" None)
  | None => Err (Errorf "address %s: invalid MAC address" None)
  end.

#[export] Instance ipv4 : Net := {|
  IP := Z;
  IPNet := Z * Z;
  HardwareAddr := list Z;
  ParseIP := parseIPv4;
  ParseMAC := parseMAC48;
  parseAddrMask := parseIPv4Mask;
|}.

#[export] Instance Route_eq_dec : EqDecision (@Route ipv4).
Proof. unfold EqDecision, Decision. simpl. repeat decide equality. Defined.

#[export] Instance Neigh_eq_dec : EqDecision (@Neigh ipv4).
Proof. unfold EqDecision, Decision. simpl. repeat decide equality. Defined.

#[export] Instance Rule_eq_dec : EqDecision (@Rule ipv4).
Proof. unfold EqDecision, Decision. simpl. repeat decide equality. Defined.

(** The state of the sample kernel: the links of the namespace and the
    entries installed. *)
Record Tables : Type := {
  links : list string;
  routes : list (@Route ipv4);
  neighbors : list (@Neigh ipv4);
  rules : list (@Rule ipv4);
}.

Fixpoint indexOf (name : string) (names : list string) (i : Z) : option Z :=
  match names with
  | [] => None
  | n :: rest => if String.eqb n name then Some i else indexOf name rest (i + 1)
  end.

#[export] Instance tables : @Kernel ipv4 := {|
  K := Tables;
  NsHandle := string;
  Handle := unit;
  Link := Z;
  netns_GetFromPath path k :=
    (if String.eqb path "" then Err (Errno 2) else Ok path, k);
  NsHandle_Close _ k := k;
  nlwrap_NewHandleAt _ k := (Ok tt, k);
  Handle_Close _ k := k;
  Handle_LinkByName _ name k :=
    (match indexOf name (links k) 1 with
     | Some i => Ok i
     | None => Err (Errorf "Link not found" None)
     end, k);
  Link_Index link := link;
  Handle_RouteAdd _ r k :=
    if bool_decide (r ∈ routes k) then (Some (Errno EEXIST), k)
    else (None, {| links := links k; routes := r :: routes k;
                   neighbors := neighbors k; rules := rules k |});
  Handle_NeighAdd _ n k :=
    if bool_decide (n ∈ neighbors k) then (Some (Errno EEXIST), k)
    else (None, {| links := links k; routes := routes k;
                   neighbors := n :: neighbors k; rules := rules k |});
  Handle_RuleAdd _ r k :=
    if bool_decide (r ∈ rules k) then (Some (Errno EEXIST), k)
    else (None, {| links := links k; routes := routes k;
                   neighbors := neighbors k; rules := r :: rules k |});
|}.

Lemma insertSorted_Permutation {E : Type} (cmp : E -> E -> Z) (a : E) (x : list E) :
  Permutation (a :: x) (insertSorted cmp a x).
Proof.
  induction x as [|b x IH]; simpl; [reflexivity|].
  destruct (cmp a b <? 0); [reflexivity|].
  rewrite perm_swap. now apply perm_skip.
Qed.

Lemma insertionSort_Permutation {E : Type} (cmp : E -> E -> Z) (x : list E) :
  Permutation x (insertionSort cmp x).
Proof.
  induction x as [|a x IH]; simpl; [reflexivity|].
  rewrite <- insertSorted_Permutation. now apply perm_skip.
Qed.

Lemma insertSorted_Sorted {E : Type} (cmp : E -> E -> Z) (key : E -> Z)
    (a : E) (x : list E) :
  (forall a b, cmp a b < 0 <-> key a < key b) ->
  StronglySorted (fun a b => key a <= key b) x ->
  StronglySorted (fun a b => key a <= key b) (insertSorted cmp a x).
Proof.
  intros Hcmp. induction x as [|b x IH]; simpl; intros Hs.
  - repeat constructor.
  - inversion Hs as [|? ? Hx Hb]; subst.
    destruct (Z.ltb_spec (cmp a b) 0) as [L|L].
    + apply Hcmp in L. constructor; [exact Hs|].
      constructor; [lia|]. eapply Forall_impl; [exact Hb|].
      simpl. intros; lia.
    + constructor; [now apply IH|].
      assert (Hab : key b <= key a).
      { destruct (Z.le_gt_cases (key b) (key a)) as [?|G]; [assumption|].
        apply Hcmp in G. lia. }
      rewrite <- insertSorted_Permutation. constructor; assumption.
Qed.

Lemma insertionSort_Sorted {E : Type} (cmp : E -> E -> Z) (key : E -> Z)
    (x : list E) :
  (forall a b, cmp a b < 0 <-> key a < key b) ->
  StronglySorted (fun a b => key a <= key b) (insertionSort cmp x).
Proof.
  intros Hcmp. induction x as [|a x IH]; simpl; [constructor|].
  now apply insertSorted_Sorted.
Qed.

#[export] Instance insertion : Slices := {|
  SortFunc := @insertionSort;
  SortFunc_Permutation := @insertionSort_Permutation;
  SortFunc_Sorted := @insertionSort_Sorted;
|}.

End Sample.

(** ** The loops of the engine

    The three loops of the engine have one shape: an entry is turned into
    a request or into a parse error; a parse error is appended and the
    loop goes on; a request is sent, and its answer is appended, wrapped,
    unless it is nil or [EEXIST].  [entryLoop] is that shape; each loop
    of the driver is an instance of it. *)

#[local] Open Scope list_scope.

Section EntryLoop.
Import GoErrors GoNet Driver.
Context `{Kernel}.
Context {E Q : Type}.
Variable prepare : E -> result Q.
Variable send : Q -> M (option error).
Variable mk : Q -> option error -> Request.
Variable wrap : error -> error.

Fixpoint entryLoop (entries : list E) (errorList : list error) : M (list error) :=
  match entries with
  | [] => ret errorList
  | e :: rest =>
      match prepare e with
      | Err err => entryLoop rest (errorList ++ [err])
      | Ok q =>
          bind (send q)
            (fun answer =>
               match rejected answer with
               | Some err => entryLoop rest (errorList ++ [wrap err])
               | None => entryLoop rest errorList
               end)
      end
  end.

(** The requests of the entries that parse, in order. *)
Fixpoint preparedOf (entries : list E) : list Q :=
  match entries with
  | [] => []
  | e :: rest =>
      match prepare e with
      | Ok q => q :: preparedOf rest
      | Err _ => preparedOf rest
      end
  end.

(** The parse errors of the entries that do not parse, in order. *)
Fixpoint parseErrorsOf (entries : list E) : list error :=
  match entries with
  | [] => []
  | e :: rest =>
      match prepare e with
      | Ok _ => parseErrorsOf rest
      | Err err => err :: parseErrorsOf rest
      end
  end.

(** The answer the kernel gave to a request. *)
Definition answerOf (rq : Request) : option error :=
  match rq with
  | ReqRouteAdd _ a | ReqNeighAdd _ a | ReqRuleAdd _ a => a
  end.

(** The answers that are neither nil nor [EEXIST]. *)
Fixpoint rejectionsOf (reqs : list Request) : list error :=
  match reqs with
  | [] => []
  | rq :: rest =>
      match rejected (answerOf rq) with
      | Some err => err :: rejectionsOf rest
      | None => rejectionsOf rest
      end
  end.

Hypothesis send_logs :
  forall q w, requests (snd (send q w)) = requests w ++ [mk q (fst (send q w))].
Hypothesis answerOf_mk : forall q a, answerOf (mk q a) = a.

Lemma entryLoop_spec (entries : list E) (errorList : list error) (w : World) :
  exists (new : list Request) (collected : list error),
    requests (snd (entryLoop entries errorList w)) = requests w ++ new
    /\ fst (entryLoop entries errorList w) = errorList ++ collected
    /\ Forall2 (fun q rq => exists a, rq = mk q a) (preparedOf entries) new
    /\ Permutation collected (parseErrorsOf entries ++ map wrap (rejectionsOf new)).
Proof.
  revert errorList w. induction entries as [|e rest IH]; intros errorList w; simpl.
  - exists [], []. rewrite !app_nil_r. repeat split; constructor.
  - destruct (prepare e) as [q|err] eqn:P.
    + unfold bind. destruct (send q w) as [answer w1] eqn:S1.
      pose proof (send_logs q w) as L. rewrite S1 in L. simpl in L.
      destruct (rejected answer) as [err|] eqn:R.
      * destruct (IH (errorList ++ [wrap err]) w1) as (new & col & H1 & H2 & H3 & H4).
        exists (mk q answer :: new), (wrap err :: col).
        rewrite H1, H2, L, <- !app_assoc. simpl.
        repeat split; [constructor; eauto|].
        rewrite answerOf_mk, R. simpl.
        rewrite H4. now rewrite Permutation_middle.
      * destruct (IH errorList w1) as (new & col & H1 & H2 & H3 & H4).
        exists (mk q answer :: new), col.
        rewrite H1, H2, L, <- !app_assoc. simpl.
        repeat split; [constructor; eauto|].
        now rewrite answerOf_mk, R.
    + destruct (IH (errorList ++ [err]) w) as (new & col & H1 & H2 & H3 & H4).
      exists new, (err :: col). rewrite H1, H2, <- !app_assoc. simpl.
      repeat split; auto.
Qed.

End EntryLoop.

(** The requests a run added to the world's history. *)
Definition issued `{Driver.Kernel} (w w' : Driver.World) : list Driver.Request :=
  drop (List.length (Driver.requests w)) (Driver.requests w').

(** An answer the driver takes for success: nil or "already exists". *)
Definition benign (answer : option GoErrors.error) : bool :=
  match answer with
  | None => true
  | Some err => GoErrors.errors_Is err GoErrors.EEXIST
  end.

Section EntryLoopSummary.
Import GoErrors GoNet Driver.
Context `{Kernel}.
Context {E Q : Type}.
Variable prepare : E -> result Q.
Variable send : Q -> M (option error).
Variable mk : Q -> option error -> Request.
Variable wrap : error -> error.
Variable parses : E -> bool.
Hypothesis send_logs :
  forall q w, requests (snd (send q w)) = requests w ++ [mk q (fst (send q w))].
Hypothesis answerOf_mk : forall q a, answerOf (mk q a) = a.
Hypothesis parses_spec : forall e, parses e = negb (Apis.isErr (prepare e)).

Lemma rejected_benign (a : option error) :
  rejected a = None <-> benign a = true.
Proof.
  unfold rejected, benign. destruct a as [e|]; [|tauto].
  destruct (errors_Is e EEXIST); simpl; split; congruence.
Qed.

Lemma issued_app (w w' : World) (new : list Request) :
  requests w' = requests w ++ new -> issued w w' = new.
Proof. intros Hw. unfold issued. rewrite Hw. apply drop_app_length. Qed.

Lemma length_preparedOf (entries : list E) :
  List.length (preparedOf prepare entries) = List.length (filter parses entries).
Proof.
  induction entries as [|e l IH]; simpl; [reflexivity|].
  rewrite filter_cons. rewrite (parses_spec e).
  destruct (prepare e); simpl; [now rewrite IH | exact IH].
Qed.

Lemma length_parseErrorsOf (entries : list E) :
  List.length (parseErrorsOf prepare entries)
  = List.length (filter (fun e => negb (parses e)) entries).
Proof.
  induction entries as [|e l IH]; simpl; [reflexivity|].
  rewrite filter_cons. rewrite (parses_spec e).
  destruct (prepare e); simpl; [exact IH | now rewrite IH].
Qed.

Lemma parseErrorsOf_In (entries : list E) (err : error) :
  In err (parseErrorsOf prepare entries) <->
  exists e, In e entries /\ prepare e = Err err.
Proof.
  induction entries as [|e l IH]; simpl.
  - split; [tauto | intros (? & [] & _)].
  - destruct (prepare e) as [q|err'] eqn:P; simpl; rewrite IH.
    + split.
      * intros (e' & ? & ?); eauto.
      * intros (e' & [<-|?] & ?); [congruence | eauto].
    + split.
      * intros [<-|(e' & ? & ?)]; eauto.
      * intros (e' & [<-|?] & ?); [left; congruence | eauto].
Qed.

Lemma length_rejectionsOf (reqs : list Request) :
  List.length (rejectionsOf reqs)
  = List.length (filter (fun rq => negb (benign (answerOf rq))) reqs).
Proof.
  induction reqs as [|rq l IH]; simpl; [reflexivity|].
  rewrite filter_cons.
  destruct (rejected (answerOf rq)) as [err|] eqn:R.
  - assert (B : benign (answerOf rq) = false).
    { destruct (benign (answerOf rq)) eqn:B; [|reflexivity].
      apply rejected_benign in B. congruence. }
    rewrite B. simpl. now rewrite IH.
  - apply rejected_benign in R. rewrite R. exact IH.
Qed.

Lemma rejectionsOf_In (reqs : list Request) (err : error) :
  In err (rejectionsOf reqs) <->
  exists rq, In rq reqs /\ rejected (answerOf rq) = Some err.
Proof.
  induction reqs as [|rq l IH]; simpl.
  - split; [tauto | intros (? & [] & _)].
  - destruct (rejected (answerOf rq)) as [err'|] eqn:R; simpl; rewrite IH.
    + split.
      * intros [<-|(rq' & ? & ?)]; eauto.
      * intros (rq' & [<-|?] & ?); [left; congruence | eauto].
    + split.
      * intros (rq' & ? & ?); eauto.
      * intros (rq' & [<-|?] & ?); [congruence | eauto].
Qed.

(** What a run of the loop, started with no error, has done. *)
Lemma entryLoop_summary (entries : list E) (w : World) :
  let errs := fst (entryLoop prepare send wrap entries [] w) in
  let new := issued w (snd (entryLoop prepare send wrap entries [] w)) in
  Forall2 (fun q rq => exists a, rq = mk q a) (preparedOf prepare entries) new
  /\ (errors_Join errs = None <->
      (forall e, In e entries -> parses e = true)
      /\ (forall rq, In rq new -> benign (answerOf rq) = true))
  /\ List.length new = List.length (filter parses entries)
  /\ List.length errs
     = (List.length (filter (fun e => negb (parses e)) entries)
        + List.length (filter (fun rq => negb (benign (answerOf rq))) new))%nat
  /\ (forall e err, In e entries -> prepare e = Err err -> In err errs)
  /\ (forall rq err, In rq new -> rejected (answerOf rq) = Some err ->
                     In (wrap err) errs).
Proof.
  intros errs new. subst errs new.
  destruct (entryLoop_spec prepare send mk wrap send_logs answerOf_mk entries [] w)
    as (new & col & H1 & H2 & H3 & H4).
  rewrite (issued_app _ _ _ H1), H2. simpl.
  split; [exact H3|].
  assert (Hlen : List.length col
                 = (List.length (parseErrorsOf prepare entries)
                    + List.length (rejectionsOf new))%nat).
  { rewrite (Permutation_length H4), length_app, length_map. reflexivity. }
  split; [|split; [|split; [|split]]].
  - split.
    + intros HJ. assert (col = []) as -> by (destruct col; [reflexivity|discriminate]).
      simpl in Hlen. split.
      * intros e He. rewrite parses_spec. destruct (prepare e) as [q|err] eqn:P;
          [reflexivity|].
        assert (Hin : In err (parseErrorsOf prepare entries))
          by (apply parseErrorsOf_In; eauto).
        destruct (parseErrorsOf prepare entries); [destruct Hin | simpl in Hlen; lia].
      * intros rq Hrq. apply rejected_benign.
        destruct (rejected (answerOf rq)) as [err|] eqn:R; [|reflexivity].
        assert (Hin : In err (rejectionsOf new)) by (apply rejectionsOf_In; eauto).
        destruct (rejectionsOf new); [destruct Hin | simpl in Hlen; lia].
    + intros [Hp Hb].
      assert (P0 : parseErrorsOf prepare entries = []).
      { destruct (parseErrorsOf prepare entries) as [|err l] eqn:P; [reflexivity|].
        assert (Hin : In err (parseErrorsOf prepare entries)) by (rewrite P; left; auto).
        apply parseErrorsOf_In in Hin as (e & He & Pe).
        specialize (Hp e He). rewrite parses_spec, Pe in Hp. discriminate. }
      assert (R0 : rejectionsOf new = []).
      { destruct (rejectionsOf new) as [|err l] eqn:R; [reflexivity|].
        assert (Hin : In err (rejectionsOf new)) by (rewrite R; left; auto).
        apply rejectionsOf_In in Hin as (rq & Hrq & Rq).
        specialize (Hb rq Hrq). apply rejected_benign in Hb. congruence. }
      rewrite P0, R0 in Hlen. destruct col; [reflexivity | simpl in Hlen; lia].
  - rewrite <- length_preparedOf. symmetry. eapply Forall2_length. exact H3.
  - rewrite Hlen, length_parseErrorsOf, length_rejectionsOf. reflexivity.
  - intros e err He Pe. apply (Permutation_in _ (Permutation_sym H4)).
    apply in_or_app. left. apply parseErrorsOf_In. eauto.
  - intros rq err Hrq R. apply (Permutation_in _ (Permutation_sym H4)).
    apply in_or_app. right. apply in_map. apply rejectionsOf_In. eauto.
Qed.

End EntryLoopSummary.

(** ** The three applications of the engine *)

Section EngineFacts.
Import GoErrors GoStrings GoNet GoSlices Apis Driver.
Context `{Kernel} `{Slices}.

(** The namespace and the netlink handle of a run, when both are
    obtained. *)
Definition acquireHandle (path : string) (k : K) : option (NsHandle * Handle * K) :=
  match netns_GetFromPath path k with
  | (Ok ns, k1) =>
      match nlwrap_NewHandleAt ns k1 with
      | (Ok h, k2) => Some (ns, h, k2)
      | (Err _, _) => None
      end
  | (Err _, _) => None
  end.

(** The same with the link of the device, for the applications that
    look it up. *)
Definition acquire (path ifName : string) (k : K)
  : option (NsHandle * Handle * Link * K) :=
  match acquireHandle path k with
  | Some (ns, h, k2) =>
      match Handle_LinkByName h ifName k2 with
      | (Ok link, k3) => Some (ns, h, link, k3)
      | (Err _, _) => None
      end
  | None => None
  end.

(** The checks of an entry, as the loops make them. *)
Definition routeParses (route : RouteConfig) : bool :=
  negb (isErr (ParseCIDR (Destination route))).

Definition neighborParses (neigh : NeighborConfig) : bool :=
  negb (isNil (ParseIP (neigh_Destination neigh)))
  && negb (isErr (ParseMAC (neigh_HardwareAddr neigh))).

Definition ruleParses (ruleCfg : RuleConfig) : bool :=
  (String.eqb (rule_Source ruleCfg) "" || negb (isErr (ParseCIDR (rule_Source ruleCfg))))
  && (String.eqb (rule_Destination ruleCfg) ""
      || negb (isErr (ParseCIDR (rule_Destination ruleCfg)))).

Definition prepareRoute (linkIndex vrfTable : Z) (route : RouteConfig) : result Route :=
  match ParseCIDR (Destination route) with
  | Err err => Err err
  | Ok (_, dst) => Ok (routeFor linkIndex vrfTable route dst)
  end.

Definition prepareNeigh (linkIndex : Z) (neigh : NeighborConfig) : result Neigh :=
  match ParseIP (neigh_Destination neigh) with
  | None => Err (Errorf "invalid ip address: %s" None)
  | Some ip =>
      match ParseMAC (neigh_HardwareAddr neigh) with
      | Err _ => Err (Errorf "invalid mac address: %s" None)
      | Ok mac =>
          Ok {| neighbor_LinkIndex := linkIndex;
                neighbor_State := NUD_PERMANENT;
                neighbor_IP := ip;
                neighbor_HardwareAddr := mac |}
      end
  end.

(** The routes among the requests. *)
Fixpoint routesOf (reqs : list Request) : list Route :=
  match reqs with
  | [] => []
  | ReqRouteAdd r _ :: rest => r :: routesOf rest
  | _ :: rest => routesOf rest
  end.

Lemma routeLoop_entryLoop (h : Handle) (linkIndex vrfTable : Z)
    (routeConfig : list RouteConfig) (errorList : list error) (w : World) :
  routeLoop h linkIndex vrfTable routeConfig errorList w
  = entryLoop (prepareRoute linkIndex vrfTable) (RouteAdd h)
      (Wrapf "fail to add route %s for interface %s on namespace %s: %w")
      routeConfig errorList w.
Proof.
  revert errorList w. induction routeConfig as [|route rest IH]; intros; simpl;
    [reflexivity|].
  unfold prepareRoute. destruct (ParseCIDR (Destination route)) as [[ip dst]|err].
  - unfold bind. destruct (RouteAdd h _ w) as [answer w1].
    destruct (rejected answer); apply IH.
  - apply IH.
Qed.

Lemma neighLoop_entryLoop (h : Handle) (linkIndex : Z)
    (neighConfig : list NeighborConfig) (errorList : list error) (w : World) :
  neighLoop h linkIndex neighConfig errorList w
  = entryLoop (prepareNeigh linkIndex) (NeighAdd h)
      (Wrapf "failed to add permanent neighbor entry %s (%s) for interface %s: %w")
      neighConfig errorList w.
Proof.
  revert errorList w. induction neighConfig as [|neigh rest IH]; intros; simpl;
    [reflexivity|].
  unfold prepareNeigh. destruct (ParseIP (neigh_Destination neigh)) as [ip|];
    [|apply IH].
  destruct (ParseMAC (neigh_HardwareAddr neigh)) as [mac|err]; [|apply IH].
  unfold bind. destruct (NeighAdd h _ w) as [answer w1].
  destruct (rejected answer); apply IH.
Qed.

Lemma ruleLoop_entryLoop (h : Handle) (rulesConfig : list RuleConfig)
    (errorList : list error) (w : World) :
  ruleLoop h rulesConfig errorList w
  = entryLoop ruleFor (RuleAdd h)
      (Wrapf "failed to add rule %s on namespace %s: %w")
      rulesConfig errorList w.
Proof.
  revert errorList w. induction rulesConfig as [|ruleCfg rest IH]; intros; simpl;
    [reflexivity|].
  destruct (ruleFor ruleCfg) as [rule|err]; [|apply IH].
  unfold bind. destruct (RuleAdd h rule w) as [answer w1].
  destruct (rejected answer); apply IH.
Qed.

Lemma RouteAdd_logs (h : Handle) (r : Route) (w : World) :
  requests (snd (RouteAdd h r w))
  = requests w ++ [ReqRouteAdd r (fst (RouteAdd h r w))].
Proof. unfold RouteAdd. destruct (Handle_RouteAdd h r (kernel w)). reflexivity. Qed.

Lemma NeighAdd_logs (h : Handle) (n : Neigh) (w : World) :
  requests (snd (NeighAdd h n w))
  = requests w ++ [ReqNeighAdd n (fst (NeighAdd h n w))].
Proof. unfold NeighAdd. destruct (Handle_NeighAdd h n (kernel w)). reflexivity. Qed.

Lemma RuleAdd_logs (h : Handle) (r : Rule) (w : World) :
  requests (snd (RuleAdd h r w))
  = requests w ++ [ReqRuleAdd r (fst (RuleAdd h r w))].
Proof. unfold RuleAdd. destruct (Handle_RuleAdd h r (kernel w)). reflexivity. Qed.

Lemma routeParses_spec (linkIndex vrfTable : Z) (route : RouteConfig) :
  routeParses route = negb (isErr (prepareRoute linkIndex vrfTable route)).
Proof.
  unfold routeParses, prepareRoute.
  now destruct (ParseCIDR (Destination route)) as [[ip dst]|err].
Qed.

Lemma neighborParses_spec (linkIndex : Z) (neigh : NeighborConfig) :
  neighborParses neigh = negb (isErr (prepareNeigh linkIndex neigh)).
Proof.
  unfold neighborParses, prepareNeigh.
  destruct (ParseIP (neigh_Destination neigh)); simpl; [|reflexivity].
  now destruct (ParseMAC (neigh_HardwareAddr neigh)).
Qed.

Lemma ruleParses_spec (ruleCfg : RuleConfig) :
  ruleParses ruleCfg = negb (isErr (ruleFor ruleCfg)).
Proof.
  unfold ruleParses, ruleFor.
  destruct (String.eqb (rule_Source ruleCfg) ""); simpl.
  - destruct (String.eqb (rule_Destination ruleCfg) ""); simpl; [reflexivity|].
    now destruct (ParseCIDR (rule_Destination ruleCfg)) as [[ip dst]|err].
  - destruct (ParseCIDR (rule_Source ruleCfg)) as [[ip src]|err]; simpl;
      [|reflexivity].
    destruct (String.eqb (rule_Destination ruleCfg) ""); simpl; [reflexivity|].
    now destruct (ParseCIDR (rule_Destination ruleCfg)) as [[ip' dst]|err].
Qed.

(** With the handles obtained, each application is its loop, and the
    deferred closes add no request. *)
Lemma applyRoutingConfig_acquired (path ifName : string)
    (routeConfig : list RouteConfig) (vrfTable : Z) (w : World)
    (ns : NsHandle) (h : Handle) (link : Link) (k : K) :
  acquire path ifName (kernel w) = Some (ns, h, link, k) ->
  let loop := routeLoop h (Link_Index link) vrfTable
                (SortFunc byScopeDescending routeConfig) []
                {| kernel := k; requests := requests w |} in
  fst (applyRoutingConfig path ifName routeConfig vrfTable w) = errors_Join (fst loop)
  /\ issued w (snd (applyRoutingConfig path ifName routeConfig vrfTable w))
     = issued {| kernel := k; requests := requests w |} (snd loop).
Proof.
  unfold acquire, acquireHandle, applyRoutingConfig, deferring, bind, lift, ret.
  destruct (netns_GetFromPath path (kernel w)) as [[ns'|e] k1]; [|discriminate].
  simpl. destruct (nlwrap_NewHandleAt ns' k1) as [[h'|e] k2]; [|discriminate].
  simpl. destruct (Handle_LinkByName h' ifName k2) as [[l'|e] k3]; [|discriminate].
  intros [= -> -> -> ->]. simpl.
  destruct (routeLoop h _ _ _ _ _) as [errs w4]. simpl. auto.
Qed.

Lemma applyNeighborConfig_acquired (path ifName : string)
    (neighConfig : list NeighborConfig) (w : World)
    (ns : NsHandle) (h : Handle) (link : Link) (k : K) :
  acquire path ifName (kernel w) = Some (ns, h, link, k) ->
  let loop := neighLoop h (Link_Index link) neighConfig []
                {| kernel := k; requests := requests w |} in
  fst (applyNeighborConfig path ifName neighConfig w) = errors_Join (fst loop)
  /\ issued w (snd (applyNeighborConfig path ifName neighConfig w))
     = issued {| kernel := k; requests := requests w |} (snd loop).
Proof.
  unfold acquire, acquireHandle, applyNeighborConfig, deferring, bind, lift, ret.
  destruct (netns_GetFromPath path (kernel w)) as [[ns'|e] k1]; [|discriminate].
  simpl. destruct (nlwrap_NewHandleAt ns' k1) as [[h'|e] k2]; [|discriminate].
  simpl. destruct (Handle_LinkByName h' ifName k2) as [[l'|e] k3]; [|discriminate].
  intros [= -> -> -> ->]. simpl.
  destruct (neighLoop h _ _ _ _) as [errs w4]. simpl. auto.
Qed.

Lemma applyRulesConfig_acquired (path : string)
    (rulesConfig : list RuleConfig) (w : World)
    (ns : NsHandle) (h : Handle) (k : K) :
  acquireHandle path (kernel w) = Some (ns, h, k) ->
  let loop := ruleLoop h rulesConfig []
                {| kernel := k; requests := requests w |} in
  fst (applyRulesConfig path rulesConfig w) = errors_Join (fst loop)
  /\ issued w (snd (applyRulesConfig path rulesConfig w))
     = issued {| kernel := k; requests := requests w |} (snd loop).
Proof.
  unfold acquireHandle, applyRulesConfig, deferring, bind, lift, ret.
  destruct (netns_GetFromPath path (kernel w)) as [[ns'|e] k1]; [|discriminate].
  simpl. destruct (nlwrap_NewHandleAt ns' k1) as [[h'|e] k2]; [|discriminate].
  intros [= -> -> ->]. simpl.
  destruct (ruleLoop h _ _ _) as [errs w4]. simpl. auto.
Qed.

End EngineFacts.

(** What the design document says of an application: it returns nil
    exactly when every entry parses and every answer of the kernel is
    nil or "already exists"; it sends one request for each entry that
    parses, whatever happened to the entries before it; and the errors
    it joins are as many as the entries that do not parse and the
    answers that are neither nil nor "already exists". *)
Definition appliedTolerantly `{Driver.Kernel} {E : Type} (parses : E -> bool)
    (config : list E) (res : option GoErrors.error) (new : list Driver.Request)
  : Prop :=
  (res = None <->
   (forall e, In e config -> parses e = true)
   /\ (forall rq, In rq new -> benign (answerOf rq) = true))
  /\ List.length new = List.length (filter parses config)
  /\ exists errs,
      res = GoErrors.errors_Join errs
      /\ List.length errs
         = (List.length (filter (fun e => negb (parses e)) config)
            + List.length (filter (fun rq => negb (benign (answerOf rq))) new))%nat.

Section EngineClaims.
Import GoErrors GoStrings GoNet GoSlices Apis Driver.
Context `{Kernel} `{Slices}.

Lemma preparedOf_In {E Q : Type} (prepare : E -> result Q) (entries : list E) (q : Q) :
  In q (preparedOf prepare entries) <->
  exists e, In e entries /\ prepare e = Ok q.
Proof.
  induction entries as [|e l IH]; simpl.
  - split; [tauto | intros (? & [] & _)].
  - destruct (prepare e) as [q'|err] eqn:P; simpl; rewrite IH.
    + split.
      * intros [<-|(e' & ? & ?)]; eauto.
      * intros (e' & [<-|?] & ?); [left; congruence | eauto].
    + split.
      * intros (e' & ? & ?); eauto.
      * intros (e' & [<-|?] & ?); [congruence | eauto].
Qed.

Lemma routesOf_requests (qs : list Route) (new : list Request) :
  Forall2 (fun q rq => exists a, rq = ReqRouteAdd q a) qs new -> routesOf new = qs.
Proof.
  induction 1 as [|q rq qs new [a ->] _ IH]; simpl; [reflexivity | now rewrite IH].
Qed.

Lemma prepareRoute_Ok (linkIndex vrfTable : Z) (route : RouteConfig) (r : Route) :
  prepareRoute linkIndex vrfTable route = Ok r <->
  exists ip dst, ParseCIDR (Destination route) = Ok (ip, dst)
                 /\ r = routeFor linkIndex vrfTable route dst.
Proof.
  unfold prepareRoute. destruct (ParseCIDR (Destination route)) as [[ip dst]|err].
  - split.
    + intros [= <-]. eauto.
    + intros (ip' & dst' & [= <- <-] & ->). reflexivity.
  - split; [discriminate | intros (? & ? & [=] & _)].
Qed.

Lemma preparedOf_routes_sorted (linkIndex vrfTable : Z) (routes : list RouteConfig) :
  StronglySorted (fun a b => - Scope a <= - Scope b) routes ->
  StronglySorted (fun a b => route_Scope b <= route_Scope a)
    (preparedOf (prepareRoute linkIndex vrfTable) routes).
Proof.
  induction 1 as [|route l Hs IH Hf]; simpl; [constructor|].
  destruct (prepareRoute linkIndex vrfTable route) as [r|err] eqn:P; [|exact IH].
  constructor; [exact IH|].
  apply prepareRoute_Ok in P as (ip & dst & _ & ->).
  apply List.Forall_forall. intros r' Hr'.
  apply preparedOf_In in Hr' as (route' & Hin & P').
  apply prepareRoute_Ok in P' as (ip' & dst' & _ & ->). simpl.
  rewrite List.Forall_forall in Hf. specialize (Hf route' Hin). simpl in Hf. lia.
Qed.

Lemma StronglySorted_lookup {A : Type} (R : A -> A -> Prop) (l : list A)
    (i j : nat) (a b : A) :
  StronglySorted R l -> l !! i = Some a -> l !! j = Some b -> (i < j)%nat -> R a b.
Proof.
  intros Hs. revert i j. induction Hs as [|x l Hs IH Hf]; intros i j Hi Hj Hlt.
  - discriminate.
  - destruct j as [|j]; [lia|]. destruct i as [|i]; simpl in *.
    + injection Hi as <-. rewrite List.Forall_forall in Hf. apply Hf.
      apply list_elem_of_In. eapply list_elem_of_lookup_2. exact Hj.
    + apply (IH i j Hi Hj). lia.
Qed.

Lemma length_filter_Permutation {A : Type} (f : A -> bool) (l l' : list A) :
  Permutation l l' -> List.length (filter f l) = List.length (filter f l').
Proof. intros P. apply Permutation_length. now apply filter_Permutation. Qed.

(** What a route application does, with the handles obtained. *)
Lemma applyRoutingConfig_summary (path ifName : string)
    (routeConfig : list RouteConfig) (vrfTable : Z) (w : World)
    (ns : NsHandle) (h : Handle) (link : Link) (k : K) :
  acquire path ifName (kernel w) = Some (ns, h, link, k) ->
  let res := fst (applyRoutingConfig path ifName routeConfig vrfTable w) in
  let new := issued w (snd (applyRoutingConfig path ifName routeConfig vrfTable w)) in
  routesOf new
  = preparedOf (prepareRoute (Link_Index link) vrfTable)
      (SortFunc byScopeDescending routeConfig)
  /\ appliedTolerantly routeParses routeConfig res new
  /\ (forall route err,
         In route routeConfig -> ParseCIDR (Destination route) = Err err ->
         exists errs, res = Some (joinError errs) /\ In err errs).
Proof.
  intros Ha res new. subst res new.
  destruct (applyRoutingConfig_acquired path ifName routeConfig vrfTable w
              ns h link k Ha) as [-> ->].
  rewrite routeLoop_entryLoop.
  pose proof (entryLoop_summary (prepareRoute (Link_Index link) vrfTable)
                (RouteAdd h) ReqRouteAdd
                (Wrapf "fail to add route %s for interface %s on namespace %s: %w")
                routeParses (RouteAdd_logs h) (fun _ _ => eq_refl)
                (routeParses_spec (Link_Index link) vrfTable)
                (SortFunc byScopeDescending routeConfig)
                {| kernel := k; requests := requests w |}) as S.
  cbv zeta in S. destruct S as (S1 & S2 & S3 & S4 & S5 & _).
  pose proof (SortFunc_Permutation _ byScopeDescending routeConfig) as P.
  split; [now apply routesOf_requests|].
  split; [split; [|split]|].
  - rewrite S2. split; intros [Hp Hb]; (split; [|exact Hb]); intros e He; apply Hp.
    + eapply Permutation_in; [exact P | exact He].
    + eapply Permutation_in; [symmetry; exact P | exact He].
  - rewrite S3. symmetry. now apply length_filter_Permutation.
  - eexists. split; [reflexivity|]. rewrite S4. f_equal.
    symmetry. now apply length_filter_Permutation.
  - intros route err Hin Pe.
    assert (Hin' : In err (fst (entryLoop (prepareRoute (Link_Index link) vrfTable)
                                  (RouteAdd h)
                                  (Wrapf "fail to add route %s for interface %s on namespace %s: %w")
                                  (SortFunc byScopeDescending routeConfig) []
                                  {| kernel := k; requests := requests w |}))).
    { apply (S5 route err).
      - eapply Permutation_in; [exact P | exact Hin].
      - unfold prepareRoute. now rewrite Pe. }
    destruct (fst (entryLoop _ _ _ _ _ _)) as [|e0 l]; [destruct Hin'|].
    eexists. split; [reflexivity | exact Hin'].
Qed.

End EngineClaims.

(** ** Route, neighbor and rule application (C3, C4, C5, C9) *)

Section RouteClaims.
Import GoErrors GoStrings GoNet GoSlices Apis Driver.
Context `{Kernel} `{Slices}.

Lemma sorted_by_scope (routeConfig : list RouteConfig) :
  StronglySorted (fun a b => - Scope a <= - Scope b)
    (SortFunc byScopeDescending routeConfig).
Proof.
  apply (SortFunc_Sorted _ byScopeDescending (fun a => - Scope a)).
  intros a b. unfold byScopeDescending. lia.
Qed.

(** C3.  With the namespace, the handle and the link obtained, the
    routes [applyRoutingConfig] sends to the kernel are, whatever the
    order of the input list: one for every entry whose destination
    parses; and in an order where every Link-scope (253) route comes
    before every Universe-scope (0) route, the scopes never increasing
    along the requests. *)
Theorem link_scope_routes_programmed_first :
  forall (path ifName : string) (routeConfig : list RouteConfig) (vrfTable : Z)
         (w : World) (ns : NsHandle) (h : Handle) (link : Link) (k : K),
    acquire path ifName (kernel w) = Some (ns, h, link, k) ->
    let programmed :=
      routesOf (issued w (snd (applyRoutingConfig path ifName routeConfig vrfTable w))) in
    (forall route ip dst,
        In route routeConfig ->
        ParseCIDR (Destination route) = Ok (ip, dst) ->
        In (routeFor (Link_Index link) vrfTable route dst) programmed)
    /\ (forall i j ri rj,
           programmed !! i = Some ri -> programmed !! j = Some rj ->
           route_Scope ri = RT_SCOPE_LINK -> route_Scope rj = RT_SCOPE_UNIVERSE ->
           (i < j)%nat)
    /\ (forall i j ri rj,
           programmed !! i = Some ri -> programmed !! j = Some rj ->
           (i < j)%nat -> route_Scope rj <= route_Scope ri).
Proof.
  intros path ifName routeConfig vrfTable w ns h link k Ha programmed.
  destruct (applyRoutingConfig_summary path ifName routeConfig vrfTable w
              ns h link k Ha) as (Hp & _ & _).
  subst programmed. rewrite Hp.
  pose proof (preparedOf_routes_sorted (Link_Index link) vrfTable _
                (sorted_by_scope routeConfig)) as Hs.
  split; [|split].
  - intros route ip dst Hin Hparse. apply preparedOf_In. exists route. split.
    + eapply Permutation_in; [apply SortFunc_Permutation | exact Hin].
    + apply prepareRoute_Ok. eauto.
  - intros i j ri rj Hi Hj Hl Hu.
    destruct (Nat.lt_trichotomy i j) as [L|[E|G]]; [exact L | |].
    + subst j. rewrite Hi in Hj. injection Hj as <-.
      rewrite Hl in Hu. discriminate.
    + pose proof (StronglySorted_lookup _ _ _ _ _ _ Hs Hj Hi G) as Hle.
      simpl in Hle. rewrite Hl, Hu in Hle. unfold RT_SCOPE_LINK, RT_SCOPE_UNIVERSE in Hle.
      lia.
  - intros i j ri rj Hi Hj L.
    exact (StronglySorted_lookup _ _ _ _ _ _ Hs Hi Hj L).
Qed.

(** C4.  With the namespace, the handle and the link obtained, every
    route sent to the kernel is the route of an entry of the
    configuration whose destination parses, and every such entry has
    its route sent.  The table of the route is the VRF's table when
    [vrfTable > 0], whatever table the entry carries, and the entry's
    own table when [vrfTable] is 0 (or negative). *)
Theorem vrf_table_overrides_route_table :
  forall (path ifName : string) (routeConfig : list RouteConfig) (vrfTable : Z)
         (w : World) (ns : NsHandle) (h : Handle) (link : Link) (k : K),
    acquire path ifName (kernel w) = Some (ns, h, link, k) ->
    let programmed :=
      routesOf (issued w (snd (applyRoutingConfig path ifName routeConfig vrfTable w))) in
    (forall r,
        In r programmed ->
        exists route ip dst,
          In route routeConfig
          /\ ParseCIDR (Destination route) = Ok (ip, dst)
          /\ route_Dst r = Some dst
          /\ route_Scope r = Scope route
          /\ (0 < vrfTable -> route_Table r = vrfTable)
          /\ (vrfTable <= 0 -> route_Table r = Table route))
    /\ (forall route ip dst,
           In route routeConfig ->
           ParseCIDR (Destination route) = Ok (ip, dst) ->
           exists r,
             In r programmed
             /\ route_Dst r = Some dst
             /\ route_Scope r = Scope route
             /\ (0 < vrfTable -> route_Table r = vrfTable)
             /\ (vrfTable <= 0 -> route_Table r = Table route)).
Proof.
  intros path ifName routeConfig vrfTable w ns h link k Ha programmed.
  destruct (applyRoutingConfig_summary path ifName routeConfig vrfTable w
              ns h link k Ha) as (Hp & _ & _).
  subst programmed. rewrite Hp.
  assert (Htable : forall route dst,
             (0 < vrfTable ->
              route_Table (routeFor (Link_Index link) vrfTable route dst) = vrfTable)
             /\ (vrfTable <= 0 ->
                 route_Table (routeFor (Link_Index link) vrfTable route dst)
                 = Table route)).
  { intros route dst. unfold routeFor. simpl.
    destruct (Z.gtb_spec vrfTable 0); split; intros; try lia; reflexivity. }
  split.
  - intros r Hr. apply preparedOf_In in Hr as (route & Hin & P).
    apply prepareRoute_Ok in P as (ip & dst & Hparse & ->).
    exists route, ip, dst. split.
    { eapply Permutation_in; [symmetry; apply SortFunc_Permutation | exact Hin]. }
    split; [exact Hparse|]. split; [reflexivity|]. split; [reflexivity|].
    apply Htable.
  - intros route ip dst Hin Hparse.
    exists (routeFor (Link_Index link) vrfTable route dst). split.
    { apply preparedOf_In. exists route. split.
      - eapply Permutation_in; [apply SortFunc_Permutation | exact Hin].
      - apply prepareRoute_Ok. eauto. }
    split; [reflexivity|]. split; [reflexivity|]. apply Htable.
Qed.

(** C5.  With the namespace, the handle and (for routes and neighbors)
    the link obtained, each of the three applications returns nil
    exactly when every entry parses and every answer of the kernel is
    nil or [EEXIST]; sends a request for every entry that parses,
    whatever the entries before it met; and joins one error for each
    entry that does not parse and each answer that is neither nil nor
    [EEXIST]. *)
Theorem already_exists_is_success :
  forall (path ifName : string) (w : World)
         (ns : NsHandle) (h : Handle) (link : Link) (k : K),
    acquire path ifName (kernel w) = Some (ns, h, link, k) ->
    (forall (routeConfig : list RouteConfig) (vrfTable : Z),
        appliedTolerantly routeParses routeConfig
          (fst (applyRoutingConfig path ifName routeConfig vrfTable w))
          (issued w (snd (applyRoutingConfig path ifName routeConfig vrfTable w))))
    /\ (forall neighConfig : list NeighborConfig,
           appliedTolerantly neighborParses neighConfig
             (fst (applyNeighborConfig path ifName neighConfig w))
             (issued w (snd (applyNeighborConfig path ifName neighConfig w))))
    /\ (forall rulesConfig : list RuleConfig,
           appliedTolerantly ruleParses rulesConfig
             (fst (applyRulesConfig path rulesConfig w))
             (issued w (snd (applyRulesConfig path rulesConfig w)))).
Proof.
  intros path ifName w ns h link k Ha. split; [|split].
  - intros routeConfig vrfTable.
    apply (applyRoutingConfig_summary path ifName routeConfig vrfTable w
             ns h link k Ha).
  - intros neighConfig.
    destruct (applyNeighborConfig_acquired path ifName neighConfig w
                ns h link k Ha) as [-> ->].
    rewrite neighLoop_entryLoop.
    pose proof (entryLoop_summary (prepareNeigh (Link_Index link))
                  (NeighAdd h) ReqNeighAdd
                  (Wrapf "failed to add permanent neighbor entry %s (%s) for interface %s: %w")
                  neighborParses (NeighAdd_logs h) (fun _ _ => eq_refl)
                  (neighborParses_spec (Link_Index link))
                  neighConfig {| kernel := k; requests := requests w |}) as S.
    cbv zeta in S. destruct S as (_ & S2 & S3 & S4 & _).
    split; [exact S2|]. split; [exact S3|]. eexists. split; [reflexivity | exact S4].
  - intros rulesConfig.
    assert (Hh : exists k2, acquireHandle path (kernel w) = Some (ns, h, k2)).
    { unfold acquire in Ha.
      destruct (acquireHandle path (kernel w)) as [[[ns' h'] k2]|]; [|discriminate].
      destruct (Handle_LinkByName h' ifName k2) as [[l'|e] k3]; [|discriminate].
      injection Ha as -> -> _ _. eauto. }
    destruct Hh as [k2 Hh].
    destruct (applyRulesConfig_acquired path rulesConfig w ns h k2 Hh) as [-> ->].
    rewrite ruleLoop_entryLoop.
    pose proof (entryLoop_summary ruleFor (RuleAdd h) ReqRuleAdd
                  (Wrapf "failed to add rule %s on namespace %s: %w")
                  ruleParses (RuleAdd_logs h) (fun _ _ => eq_refl)
                  ruleParses_spec
                  rulesConfig {| kernel := k2; requests := requests w |}) as S.
    cbv zeta in S. destruct S as (_ & S2 & S3 & S4 & _).
    split; [exact S2|]. split; [exact S3|]. eexists. split; [reflexivity | exact S4].
Qed.

End RouteClaims.

Section BareDestination.
Import GoErrors GoStrings GoNet GoSlices Apis Driver.
Context `{Kernel} `{Slices}.

Lemma validateRoutes_from_In (i : nat) (routes : list RouteConfig) (e : FieldError) :
  In e (validateRoutes_from i routes) ->
  exists j route, routes !! j = Some route /\ In e (validateRoute (i + j) route).
Proof.
  revert i. induction routes as [|route rest IH]; intros i; simpl; [tauto|].
  intros Hin. apply in_app_or in Hin as [Hin|Hin].
  - exists 0%nat, route. rewrite Nat.add_0_r. auto.
  - destruct (IH _ Hin) as (j & route' & Hj & He).
    exists (S j), route'. rewrite Nat.add_succ_r. auto.
Qed.

Lemma validateRoute_index (i : nat) (route : RouteConfig) (e : FieldError) :
  In e (validateRoute i route) -> fe_index e = i.
Proof.
  unfold validateRoute. intros Hin.
  repeat (apply in_app_or in Hin as [Hin|Hin]);
    repeat match type of Hin with
           | In _ (if ?c then _ else _) => destruct c
           | In _ (let _ := _ in _) => cbv zeta in Hin
           end;
    simpl in Hin; try tauto; destruct Hin as [<-|[]]; reflexivity.
Qed.

Lemma validateRoute_bare_ip (i : nat) (route : RouteConfig) (e : FieldError) :
  Destination route <> "" ->
  ParseIP (Destination route) <> None ->
  In e (validateRoute i route) -> fe_field e <> FDestination.
Proof.
  intros Hne Hip. unfold validateRoute.
  destruct (String.eqb_spec (Destination route) "") as [E|_]; [contradiction|].
  destruct (ParseIP (Destination route)) as [ip|]; [|contradiction].
  simpl isNil. rewrite andb_false_r. intros Hin.
  repeat (apply in_app_or in Hin as [Hin|Hin]);
    repeat match type of Hin with
           | In _ (if ?c then _ else _) => destruct c
           | In _ (let _ := _ in _) => cbv zeta in Hin
           end;
    simpl in Hin; try tauto; destruct Hin as [<-|[]]; discriminate.
Qed.

(** C9.  Take an entry of the configuration whose destination is a bare
    IP address: a text [net.ParseIP] accepts, with no ['/'].  Validation
    reports no error on its destination, at whatever index the entry
    stands.  With the namespace, the handle and the link obtained,
    [applyRoutingConfig] returns an error that holds the parse error of
    that destination; it sends fewer requests than there are entries,
    one for each entry whose destination parses; and every route it
    sends comes from an entry whose destination has a ['/'] and
    parses as a CIDR. *)
Theorem bare_ip_destination_not_programmed :
  forall (path ifName : string) (routeConfig : list RouteConfig) (vrfTable : Z)
         (w : World) (ns : NsHandle) (h : Handle) (link : Link) (k : K)
         (route : RouteConfig),
    acquire path ifName (kernel w) = Some (ns, h, link, k) ->
    In route routeConfig ->
    Destination route <> "" ->
    ParseIP (Destination route) <> None ->
    IndexByte (Destination route) "/"%char = None ->
    let res := fst (applyRoutingConfig path ifName routeConfig vrfTable w) in
    let programmed :=
      routesOf (issued w (snd (applyRoutingConfig path ifName routeConfig vrfTable w))) in
    (forall routes i e,
        routes !! i = Some route ->
        In e (validateRoutes routes) ->
        fe_index e = i -> fe_field e <> FDestination)
    /\ (exists errs,
           res = Some (joinError errs)
           /\ In (ParseError "CIDR address" (Destination route)) errs)
    /\ routeParses route = false
    /\ List.length programmed = List.length (filter routeParses routeConfig)
    /\ (List.length programmed < List.length routeConfig)%nat
    /\ (forall r,
           In r programmed ->
           exists route' ip dst,
             In route' routeConfig
             /\ IndexByte (Destination route') "/"%char <> None
             /\ ParseCIDR (Destination route') = Ok (ip, dst)
             /\ route_Dst r = Some dst).
Proof.
  intros path ifName routeConfig vrfTable w ns h link k route
         Ha Hin Hne Hip Hbare res programmed.
  assert (Hparse : ParseCIDR (Destination route)
                   = Err (ParseError "CIDR address" (Destination route))).
  { unfold ParseCIDR. now rewrite Hbare. }
  destruct (applyRoutingConfig_summary path ifName routeConfig vrfTable w
              ns h link k Ha) as (Hp & (_ & Hlen & _) & Herr).
  fold res in Herr.
  assert (Hroutes : List.length programmed
                    = List.length (filter routeParses routeConfig)).
  { unfold programmed. rewrite Hp.
    rewrite (length_preparedOf _ routeParses
               (routeParses_spec (Link_Index link) vrfTable)).
    apply length_filter_Permutation. symmetry. apply SortFunc_Permutation. }
  assert (Hfalse : routeParses route = false).
  { unfold routeParses. now rewrite Hparse. }
  split; [|split; [|split; [|split; [|split]]]].
  - intros routes i e Hi He Hidx.
    apply validateRoutes_from_In in He as (j & route' & Hj & He).
    simpl in He. pose proof (validateRoute_index _ _ _ He) as Hidx'.
    assert (j = i) as -> by congruence.
    rewrite Hi in Hj. injection Hj as <-.
    now apply (validateRoute_bare_ip i route e).
  - exact (Herr route _ Hin Hparse).
  - exact Hfalse.
  - exact Hroutes.
  - rewrite Hroutes. clear - Hin Hfalse.
    induction routeConfig as [|r l IH]; [destruct Hin|].
    rewrite filter_cons. destruct Hin as [->|Hin].
    + rewrite Hfalse. simpl.
      pose proof (length_filter (fun x => routeParses x) l). simpl in *. lia.
    + specialize (IH Hin). destruct (routeParses r); simpl in *; lia.
  - intros r Hr. unfold programmed in Hr. rewrite Hp in Hr.
    apply preparedOf_In in Hr as (route' & Hin' & P).
    apply prepareRoute_Ok in P as (ip & dst & Hparse' & ->).
    exists route', ip, dst. split.
    { eapply Permutation_in; [symmetry; apply SortFunc_Permutation | exact Hin']. }
    split; [|split; [exact Hparse' | reflexivity]].
    intros Hnone. unfold ParseCIDR in Hparse'. rewrite Hnone in Hparse'.
    discriminate.
Qed.

End BareDestination.

(** ** The engine on the sample kernel *)

Section EngineOnSample.
Import GoErrors GoStrings GoNet GoSlices Apis Driver Sample.

Definition sampleWorld : World :=
  {| kernel := {| links := ["lo"; "eth0"]; routes := [];
                  neighbors := []; rules := [] |};
     requests := [] |}.

Definition defaultRoute : RouteConfig :=
  {| Destination := "0.0.0.0/0"; Gateway := "10.0.5.1"; Source := "";
     Scope := RT_SCOPE_UNIVERSE; Table := 0 |}.

Definition gatewayRoute : RouteConfig :=
  {| Destination := "10.0.5.1/32"; Gateway := ""; Source := "10.0.5.8";
     Scope := RT_SCOPE_LINK; Table := 7 |}.

Definition bareRoute : RouteConfig :=
  {| Destination := "10.0.5.1"; Gateway := ""; Source := "";
     Scope := RT_SCOPE_LINK; Table := 0 |}.

Definition sampleNs : string := "/proc/4242/ns/net".

Lemma sample_acquired :
  acquire sampleNs "eth0" (kernel sampleWorld)
  = Some (sampleNs, tt, 2, kernel sampleWorld).
Proof. reflexivity. Qed.

(** The Universe-scope route comes first in the configuration and
    second in the requests. *)
Example sample_requests_order :
  map route_Scope
    (routesOf (issued sampleWorld
                 (snd (applyRoutingConfig sampleNs "eth0"
                         [defaultRoute; gatewayRoute] 0 sampleWorld))))
  = [RT_SCOPE_LINK; RT_SCOPE_UNIVERSE].
Proof. vm_compute. reflexivity. Qed.

(** Applying the same routes a second time: the kernel answers
    [EEXIST] to both requests and the application returns nil. *)
Example sample_reapply :
  let once := snd (applyRoutingConfig sampleNs "eth0"
                     [defaultRoute; gatewayRoute] 0 sampleWorld) in
  let twice := applyRoutingConfig sampleNs "eth0" [defaultRoute; gatewayRoute] 0 once in
  fst twice = None
  /\ map answerOf (issued once (snd twice))
     = [Some (Errno EEXIST); Some (Errno EEXIST)].
Proof. vm_compute. split; reflexivity. Qed.

Lemma link_scope_routes_programmed_first_witness :
  acquire sampleNs "eth0" (kernel sampleWorld)
  = Some (sampleNs, tt, 2, kernel sampleWorld)
  /\ In (routeFor 2 0 gatewayRoute (167773441, 32))
       (routesOf (issued sampleWorld
                    (snd (applyRoutingConfig sampleNs "eth0"
                            [defaultRoute; gatewayRoute] 0 sampleWorld)))).
Proof.
  split; [reflexivity|].
  apply (proj1 (link_scope_routes_programmed_first sampleNs "eth0"
                  [defaultRoute; gatewayRoute] 0 sampleWorld
                  sampleNs tt 2 (kernel sampleWorld) sample_acquired)
           gatewayRoute 167773441 (167773441, 32)).
  - simpl. auto.
  - reflexivity.
Defined.

Lemma vrf_table_overrides_route_table_witness :
  acquire sampleNs "eth0" (kernel sampleWorld)
  = Some (sampleNs, tt, 2, kernel sampleWorld)
  /\ exists r,
      In r (routesOf (issued sampleWorld
                        (snd (applyRoutingConfig sampleNs "eth0"
                                [defaultRoute; gatewayRoute] 1042 sampleWorld))))
      /\ route_Dst r = Some (167773441, 32)
      /\ route_Scope r = Scope gatewayRoute
      /\ (0 < 1042 -> route_Table r = 1042)
      /\ (1042 <= 0 -> route_Table r = Table gatewayRoute).
Proof.
  split; [reflexivity|].
  apply (proj2 (vrf_table_overrides_route_table sampleNs "eth0"
                  [defaultRoute; gatewayRoute] 1042 sampleWorld
                  sampleNs tt 2 (kernel sampleWorld) sample_acquired)
           gatewayRoute 167773441 (167773441, 32)).
  - simpl. auto.
  - reflexivity.
Defined.

Lemma already_exists_is_success_witness :
  acquire sampleNs "eth0" (kernel sampleWorld)
  = Some (sampleNs, tt, 2, kernel sampleWorld)
  /\ appliedTolerantly routeParses [defaultRoute; bareRoute; gatewayRoute]
       (fst (applyRoutingConfig sampleNs "eth0"
               [defaultRoute; bareRoute; gatewayRoute] 0 sampleWorld))
       (issued sampleWorld
          (snd (applyRoutingConfig sampleNs "eth0"
                  [defaultRoute; bareRoute; gatewayRoute] 0 sampleWorld))).
Proof.
  split; [reflexivity|].
  apply (proj1 (already_exists_is_success sampleNs "eth0" sampleWorld
                  sampleNs tt 2 (kernel sampleWorld) sample_acquired)).
Defined.

Lemma bare_ip_destination_not_programmed_witness :
  acquire sampleNs "eth0" (kernel sampleWorld)
  = Some (sampleNs, tt, 2, kernel sampleWorld)
  /\ In bareRoute [defaultRoute; bareRoute; gatewayRoute]
  /\ Destination bareRoute <> ""
  /\ ParseIP (Destination bareRoute) <> None
  /\ IndexByte (Destination bareRoute) "/"%char = None
  /\ exists errs,
      fst (applyRoutingConfig sampleNs "eth0"
             [defaultRoute; bareRoute; gatewayRoute] 0 sampleWorld)
      = Some (joinError errs)
      /\ In (ParseError "CIDR address" (Destination bareRoute)) errs.
Proof.
  assert (Hin : In bareRoute [defaultRoute; bareRoute; gatewayRoute])
    by (simpl; auto).
  assert (Hne : Destination bareRoute <> "") by discriminate.
  assert (Hip : ParseIP (Destination bareRoute) <> None)
    by (vm_compute; discriminate).
  assert (Hbare : IndexByte (Destination bareRoute) "/"%char = None)
    by reflexivity.
  repeat (split; [assumption || reflexivity|]).
  apply (proj1 (proj2 (bare_ip_destination_not_programmed sampleNs "eth0"
                         [defaultRoute; bareRoute; gatewayRoute] 0 sampleWorld
                         sampleNs tt 2 (kernel sampleWorld) bareRoute
                         sample_acquired Hin Hne Hip Hbare))).
Defined.

End EngineOnSample.

(** ** The VRF sysctl step (C6) *)

Section VrfSysctlClaims.
Import GoErrors VrfSysctl.

(** The operations of a call, by the outcome of each fallible one;
    [origns] is the namespace the thread is in at the call. *)
Definition stepEvents (o : Outcomes) (containerNsFd origns : Z) : list Event :=
  [EvLockOSThread; EvNetnsGet (netns_Get_err o)]
  ++ match netns_Get_err o with
     | Some _ => []
     | None =>
         [EvNetnsSet containerNsFd (netns_Set_target_err o)]
         ++ match netns_Set_target_err o with
            | Some _ => []
            | None =>
                [EvSetSysctl "net/ipv4/tcp_l3mdev_accept" 1 (tcp_l3mdev_accept_err o)]
                ++ match tcp_l3mdev_accept_err o with
                   | Some _ => []
                   | None =>
                       [EvSetSysctl "net/ipv4/udp_l3mdev_accept" 1
                          (udp_l3mdev_accept_err o)]
                   end
                ++ [EvNetnsSet origns (netns_Set_origns_err o)]
            end
         ++ [EvNsClose origns]
     end
  ++ [EvUnlockOSThread].

Lemma enableVRFSysctls_events (o : Outcomes) (containerNsFd : Z) (t : Thread) :
  events (snd (enableVRFSysctls o containerNsFd t))
  = events t ++ stepEvents o containerNsFd (ambient t).
Proof.
  destruct o as [[e1|] [e2|] [e3|] [e4|] [e5|]];
    unfold enableVRFSysctls, stepEvents; simpl;
    rewrite <- ?app_assoc; reflexivity.
Qed.

Lemma enableVRFSysctls_performed (o : Outcomes) (containerNsFd : Z) (t : Thread) :
  performed t (snd (enableVRFSysctls o containerNsFd t))
  = stepEvents o containerNsFd (ambient t).
Proof.
  unfold performed. rewrite enableVRFSysctls_events. apply drop_app_length.
Qed.

(** The outcomes of a call where nothing fails. *)
Definition allSucceed : Outcomes :=
  {| netns_Get_err := None;
     netns_Set_target_err := None;
     tcp_l3mdev_accept_err := None;
     udp_l3mdev_accept_err := None;
     netns_Set_origns_err := None |}.

Definition freshThread : Thread := {| lockCount := 0; ambient := 1; events := [] |}.

(** C6, as the design document words it, does not hold: the step takes
    no mutual-exclusion lock.  In a call where nothing fails, the
    switches and the sysctl writes are not between a [Lock] and an
    [Unlock]: there is neither. *)
Lemma vrf_sysctl_step_takes_no_lock :
  ~ (forall (o : Outcomes) (containerNsFd : Z) (t : Thread),
        underMutex (performed t (snd (enableVRFSysctls o containerNsFd t)))).
Proof.
  intros Hall.
  destruct (Hall allSucceed 7 freshThread) as (before & inside & after & E & _).
  assert (Hin : In EvMutexLock
                  (performed freshThread (snd (enableVRFSysctls allSucceed 7 freshThread)))).
  { rewrite E. apply in_or_app. right. left. reflexivity. }
  vm_compute in Hin.
  repeat (destruct Hin as [Hin|Hin]; [discriminate Hin|]). exact Hin.
Qed.

(** C6.  On every exit path of [enableVRFSysctls], with or without an
    error: the call starts by pinning the thread and ends by releasing
    the pin, and does neither in between, so the nesting count of the
    pin is what it was; once the switch to the target namespace has
    succeeded, the last things the call does are the switch back to the
    original namespace, the close of its handle and the release of the
    pin, whatever the sysctl writes returned; the thread is back in the
    original namespace unless that switch back itself fails (its error
    is dropped), in which case it is left in the target namespace; and
    the call takes no mutual-exclusion lock.  The call returns nil
    exactly when reading the namespace, switching to the target and
    both sysctl writes succeed. *)
Theorem vrf_sysctl_step_restores_and_unpins :
  forall (o : Outcomes) (containerNsFd : Z) (t : Thread),
    let res := fst (enableVRFSysctls o containerNsFd t) in
    let t' := snd (enableVRFSysctls o containerNsFd t) in
    let evs := performed t t' in
    lockCount t' = lockCount t
    /\ (exists body,
           evs = [EvLockOSThread] ++ body ++ [EvUnlockOSThread]
           /\ ~ In EvLockOSThread body /\ ~ In EvUnlockOSThread body)
    /\ (netns_Get_err o = None -> netns_Set_target_err o = None ->
        exists before,
          evs = before
                ++ [EvNetnsSet (ambient t) (netns_Set_origns_err o);
                    EvNsClose (ambient t); EvUnlockOSThread]
          /\ In (EvNetnsSet containerNsFd None) before)
    /\ (netns_Get_err o <> None \/ netns_Set_target_err o <> None
        \/ netns_Set_origns_err o = None ->
        ambient t' = ambient t)
    /\ (netns_Get_err o = None -> netns_Set_target_err o = None ->
        netns_Set_origns_err o <> None -> ambient t' = containerNsFd)
    /\ ~ In EvMutexLock evs
    /\ ~ In EvMutexUnlock evs
    /\ (res = None <->
        netns_Get_err o = None /\ netns_Set_target_err o = None
        /\ tcp_l3mdev_accept_err o = None /\ udp_l3mdev_accept_err o = None).
Proof.
  intros o containerNsFd t res t' evs. subst evs t' res.
  rewrite enableVRFSysctls_performed.
  destruct t as [n amb evs0].
  destruct o as [[e1|] [e2|] [e3|] [e4|] [e5|]];
    unfold enableVRFSysctls, stepEvents; simpl;
    (split; [reflexivity|]);
    (split; [match goal with
             | |- exists body, ?l = _ /\ _ =>
                 exists (List.removelast (List.tl l)); simpl
             end;
             split; [reflexivity|];
             split; simpl; intros Hin;
             repeat (destruct Hin as [Hin|Hin]; [discriminate Hin|]); exact Hin|]);
    (split; [intros; try discriminate;
             match goal with
             | |- exists before, ?l = _ /\ _ =>
                 exists (take (List.length l - 3) l); simpl;
                 split; [reflexivity | simpl; auto]
             end|]);
    (split; [intros [Hc|[Hc|Hc]]; congruence || reflexivity|]);
    (split; [intros; congruence || reflexivity|]);
    (split; [simpl; intros Hin;
             repeat (destruct Hin as [Hin|Hin]; [discriminate Hin|]); exact Hin|]);
    (split; [simpl; intros Hin;
             repeat (destruct Hin as [Hin|Hin]; [discriminate Hin|]); exact Hin|]);
    (split; [intros; try discriminate; auto
            |intros (? & ? & ? & ?); try discriminate; auto]).
Qed.

End VrfSysctlClaims.

(** * Further properties of the code *)

(** ** The attribute set of a device *)

Section AttributeSet.
Import GoStrings Gce.

(** The same instance with other interface records. *)
Definition withInterfaces (g : GCEInstance) (interfaces : list gceNetworkInterface)
  : GCEInstance :=
  {| inst_Name := inst_Name g;
     inst_Type := inst_Type g;
     AcceleratorProtocol := AcceleratorProtocol g;
     Interfaces := interfaces;
     Topology := Topology g |}.

(** The keys the provider publishes. *)
Definition gceKeys : list string :=
  [AttrGCEMachineType; AttrGCEBlock; AttrGCESubBlock; AttrGCEHost;
   AttrGCEIPAliases; AttrGCENetworkName; AttrGCENetworkProjectNumber].

Lemma gceKeys_prefix (k : string) :
  In k gceKeys -> HasPrefix k (GCEAttrPrefix ++ "/")%string = true.
Proof.
  unfold gceKeys. simpl. intros Hk.
  repeat (destruct Hk as [<-|Hk]; [vm_compute; reflexivity|]). destruct Hk.
Qed.

(** Whatever the call returns, when it returns data, holds the machine
    type of the instance, and holds nothing under a key that is not one
    of the seven keys of the provider, all of which start with
    [gce.dra.net/]. *)
Theorem attributes_within_provider_keys :
  forall (Sscanf : string -> option (Z * string))
         (g : GCEInstance) (id : DeviceIdentifiers)
         (attrs : gmap string DeviceAttribute),
    GetDeviceAttributes Sscanf g id = Some attrs ->
    attrs !! AttrGCEMachineType = Some (StringValue (inst_Type g))
    /\ (forall k, is_Some (attrs !! k) ->
                  In k gceKeys /\ HasPrefix k (GCEAttrPrefix ++ "/")%string = true).
Proof.
  intros Sscanf g id attrs Ha. split.
  - rewrite (GetDeviceAttributes_node_part Sscanf g id attrs _ Ha) by reflexivity.
    apply nodeAttributes_machineType.
  - intros k Hk.
    assert (Hin : In k gceKeys).
    { destruct (isDeviceKey k) eqn:Dk.
      - unfold isDeviceKey in Dk. rewrite !orb_true_iff, !String.eqb_eq in Dk.
        unfold gceKeys. destruct Dk as [[-> | ->] | ->]; simpl; auto 10.
      - rewrite (GetDeviceAttributes_node_part Sscanf g id attrs k Ha Dk) in Hk.
        apply nodeAttributes_keys in Hk. unfold gceKeys. simpl in *. tauto. }
    split; [exact Hin | now apply gceKeys_prefix].
Qed.

Lemma attributes_within_provider_keys_witness :
  exists attrs,
    GetDeviceAttributes GoFmt.Sscanf_projects_networks
      (sampleInstance "projects/12345/networks/test-network" "/block/subblock/host")
      (sampleDevice "00:11:22:33:44:55") = Some attrs
    /\ attrs !! AttrGCEMachineType = Some (StringValue "machine-type-a").
Proof.
  eexists. split; [vm_compute; reflexivity|].
  refine (proj1 (attributes_within_provider_keys GoFmt.Sscanf_projects_networks
                   (sampleInstance "projects/12345/networks/test-network"
                      "/block/subblock/host")
                   (sampleDevice "00:11:22:33:44:55") _ _)).
  vm_compute. reflexivity.
Defined.

Lemma interfaceForMac_first (before after : list gceNetworkInterface)
    (i : gceNetworkInterface) (mac : string) :
  (forall j, In j before -> Mac j <> mac) ->
  Mac i = mac ->
  interfaceForMac (before ++ i :: after) mac = Some i.
Proof.
  intros Hb Hi. induction before as [|j l IH]; simpl.
  - rewrite Hi, String.eqb_refl. reflexivity.
  - destruct (String.eqb_spec (Mac j) mac) as [E|_].
    + exfalso. apply (Hb j); simpl; auto.
    + apply IH. intros j' Hj'. apply Hb. simpl. auto.
Qed.

(** Of several interface records with the MAC asked for, the first in
    list order decides: the records after it, and the records before it
    (which have another MAC), change nothing in the result. *)
Theorem first_matching_record_decides :
  forall (Sscanf : string -> option (Z * string))
         (g : GCEInstance) (id : DeviceIdentifiers)
         (before after : list gceNetworkInterface) (i : gceNetworkInterface),
    (forall j, In j before -> Mac j <> MAC id) ->
    Mac i = MAC id ->
    GetDeviceAttributes Sscanf (withInterfaces g (before ++ i :: after)) id
    = GetDeviceAttributes Sscanf (withInterfaces g [i]) id.
Proof.
  intros Sscanf g id before after i Hb Hi.
  unfold GetDeviceAttributes. simpl.
  destruct (String.eqb (MAC id) ""); [reflexivity|].
  rewrite (interfaceForMac_first before after i (MAC id) Hb Hi).
  rewrite Hi, String.eqb_refl. reflexivity.
Qed.

Definition recordWith (mac network : string) : gceNetworkInterface :=
  {| IPv4 := ""; IPv6 := []; Mac := mac; MTU := 0;
     Network := network; IPAliases := [] |}.

Lemma first_matching_record_decides_witness :
  GetDeviceAttributes GoFmt.Sscanf_projects_networks
    (withInterfaces (sampleInstance "" "")
       ([recordWith "aa:aa" "projects/1/networks/a"]
        ++ recordWith "bb:bb" "projects/2/networks/b"
           :: [recordWith "bb:bb" "not-a-network"]))
    (sampleDevice "bb:bb")
  = GetDeviceAttributes GoFmt.Sscanf_projects_networks
      (withInterfaces (sampleInstance "" "")
         [recordWith "bb:bb" "projects/2/networks/b"])
      (sampleDevice "bb:bb").
Proof.
  apply (first_matching_record_decides GoFmt.Sscanf_projects_networks
           (sampleInstance "" "") (sampleDevice "bb:bb")
           [recordWith "aa:aa" "projects/1/networks/a"]
           [recordWith "bb:bb" "not-a-network"]
           (recordWith "bb:bb" "projects/2/networks/b")).
  - intros j [<-|[]]. discriminate.
  - reflexivity.
Defined.

End AttributeSet.

(** ** Joining and splitting *)

Section JoinSplit.
Import GoStrings.

Lemma Join_cons2 (e e' : string) (rest : list string) (sep : string) :
  Join (e :: e' :: rest) sep = (e ++ sep ++ Join (e' :: rest) sep)%string.
Proof. reflexivity. Qed.

Lemma genSplit_Join (n : nat) (elems : list string) (c : ascii) :
  elems <> [] ->
  (forall e, In e elems -> IndexByte e c = None) ->
  (List.length elems <= S n)%nat ->
  genSplit n (Join elems (String c "")) c = elems.
Proof.
  revert n. induction elems as [|e rest IH]; intros n Hne Hc Hn; [contradiction|].
  destruct rest as [|e' rest].
  - cbn [Join]. destruct n; cbn [genSplit]; [reflexivity|].
    rewrite (Hc e) by (simpl; auto). reflexivity.
  - rewrite Join_cons2. destruct n; [simpl in Hn; lia|]. cbn [genSplit].
    rewrite append_cons, append_nil.
    rewrite (IndexByte_app_sep e _ c) by (apply Hc; simpl; auto).
    rewrite keep_app_length, skip_app_length. f_equal.
    apply IH; [discriminate | | simpl in *; lia].
    intros x Hx. apply Hc. simpl in *. tauto.
Qed.

Lemma Count_Join (elems : list string) (c : ascii) :
  (forall e, In e elems -> IndexByte e c = None) ->
  Count (Join elems (String c "")) c = Nat.pred (List.length elems).
Proof.
  induction elems as [|e rest IH]; intros Hc; [reflexivity|].
  destruct rest as [|e' rest].
  - cbn [Join]. apply Count_zero. apply Hc. simpl; auto.
  - rewrite Join_cons2, append_cons, append_nil, Count_app.
    assert (H0 : Count e c = O) by (apply Count_zero, Hc; simpl; auto).
    rewrite H0. cbn [Count]. rewrite Ascii.eqb_refl.
    rewrite IH by (intros x Hx; apply Hc; simpl in *; tauto). reflexivity.
Qed.

(** [strings.Split] undoes [strings.Join] on a list that is not empty
    and whose elements do not hold the separator. *)
Lemma Split_Join (elems : list string) (c : ascii) :
  elems <> [] ->
  (forall e, In e elems -> IndexByte e c = None) ->
  Split (Join elems (String c "")) c = elems.
Proof.
  intros Hne Hc. rewrite Split_eq, (Count_Join elems c Hc).
  apply genSplit_Join; [exact Hne | exact Hc |].
  destruct elems; [contradiction | simpl; lia].
Qed.

End JoinSplit.

Section IPAliases.
Import GoStrings Gce.

(** For a matched interface record whose network path scans: with IP
    aliases, the call publishes them as one string joined by [","],
    from which splitting on [","] gives the aliases back (no alias
    holding a comma); without IP aliases it publishes no alias
    attribute. *)
Theorem ip_aliases_joined :
  forall (Sscanf : string -> option (Z * string))
         (g : GCEInstance) (id : DeviceIdentifiers) (i : gceNetworkInterface)
         (attrs : gmap string DeviceAttribute),
    MAC id <> "" ->
    interfaceForMac (Interfaces g) (MAC id) = Some i ->
    GetDeviceAttributes Sscanf g id = Some attrs ->
    (IPAliases i = [] -> attrs !! AttrGCEIPAliases = None)
    /\ (IPAliases i <> [] ->
        exists joined,
          attrs !! AttrGCEIPAliases = Some (StringValue joined)
          /\ joined = Join (IPAliases i) ","
          /\ ((forall a, In a (IPAliases i) -> IndexByte a ","%char = None) ->
              Split joined ","%char = IPAliases i)).
Proof.
  intros Sscanf g id i attrs Hmac Hi.
  rewrite (GetDeviceAttributes_matched Sscanf g id i Hmac Hi).
  destruct (Sscanf (Network i)) as [[n name]|]; [|discriminate].
  intros [= <-].
  rewrite !lookup_insert_ne by (apply String.eqb_neq; vm_compute; reflexivity).
  split.
  - intros ->. simpl. apply nodeAttributes_no_device_key. reflexivity.
  - intros Hne. exists (Join (IPAliases i) ",").
    destruct (IPAliases i) as [|a l] eqn:E; [contradiction|].
    cbn [List.length]. rewrite Nat2Z.inj_succ.
    destruct (Z.ltb_spec 0 (Z.succ (Z.of_nat (List.length l)))) as [_|L]; [|lia].
    rewrite lookup_insert_eq. split; [reflexivity|]. split; [reflexivity|].
    intros Hc. now apply Split_Join.
Qed.

Definition aliasedRecord : gceNetworkInterface :=
  {| IPv4 := ""; IPv6 := []; Mac := "00:11:22:33:44:55"; MTU := 0;
     Network := "projects/12345/networks/test-network";
     IPAliases := ["10.0.0.1/24"; "10.0.0.2/24"] |}.

Definition aliasedInstance : GCEInstance :=
  {| inst_Name := "node-1";
     inst_Type := "machine-type-a";
     AcceleratorProtocol := "";
     Interfaces := [aliasedRecord];
     Topology := "" |}.

Lemma ip_aliases_joined_witness :
  exists attrs,
    GetDeviceAttributes GoFmt.Sscanf_projects_networks aliasedInstance
      (sampleDevice "00:11:22:33:44:55") = Some attrs
    /\ exists joined,
        attrs !! AttrGCEIPAliases = Some (StringValue joined)
        /\ joined = Join ["10.0.0.1/24"; "10.0.0.2/24"] ","
        /\ ((forall a, In a ["10.0.0.1/24"; "10.0.0.2/24"] ->
                       IndexByte a ","%char = None) ->
            Split joined ","%char = ["10.0.0.1/24"; "10.0.0.2/24"]).
Proof.
  eexists. split; [vm_compute; reflexivity|].
  refine (proj2 (ip_aliases_joined GoFmt.Sscanf_projects_networks aliasedInstance
                   (sampleDevice "00:11:22:33:44:55") aliasedRecord _ _ _ _) _).
  - discriminate.
  - reflexivity.
  - vm_compute. reflexivity.
  - discriminate.
Defined.

End IPAliases.

(** ** More on the three applications *)

Section EngineMore.
Import GoErrors GoStrings GoNet GoSlices Apis Driver.
Context `{Kernel} `{Slices}.

Lemma issued_same (w w' : World) : requests w' = requests w -> issued w w' = [].
Proof. intros E. unfold issued. rewrite E. apply drop_all. Qed.

(** Without the namespace, the netlink handle or (for routes and
    neighbors) the link of the device, an application returns an error
    and sends nothing to the kernel. *)
Theorem nothing_programmed_without_handles :
  forall (path ifName : string) (w : World),
    (acquire path ifName (kernel w) = None ->
     (forall (routeConfig : list RouteConfig) (vrfTable : Z),
         fst (applyRoutingConfig path ifName routeConfig vrfTable w) <> None
         /\ issued w (snd (applyRoutingConfig path ifName routeConfig vrfTable w)) = [])
     /\ (forall neighConfig : list NeighborConfig,
            fst (applyNeighborConfig path ifName neighConfig w) <> None
            /\ issued w (snd (applyNeighborConfig path ifName neighConfig w)) = []))
    /\ (acquireHandle path (kernel w) = None ->
        forall rulesConfig : list RuleConfig,
          fst (applyRulesConfig path rulesConfig w) <> None
          /\ issued w (snd (applyRulesConfig path rulesConfig w)) = []).
Proof.
  intros path ifName w. split.
  - unfold acquire, acquireHandle. intros Ha. split.
    + intros routeConfig vrfTable.
      unfold applyRoutingConfig, deferring, bind, lift, ret.
      destruct (netns_GetFromPath path (kernel w)) as [[ns|e] k1]; simpl;
        [|split; [discriminate | now apply issued_same]].
      destruct (nlwrap_NewHandleAt ns k1) as [[h|e] k2]; simpl;
        [|split; [discriminate | now apply issued_same]].
      destruct (Handle_LinkByName h ifName k2) as [[l|e] k3]; simpl;
        [discriminate Ha | split; [discriminate | now apply issued_same]].
    + intros neighConfig.
      unfold applyNeighborConfig, deferring, bind, lift, ret.
      destruct (netns_GetFromPath path (kernel w)) as [[ns|e] k1]; simpl;
        [|split; [discriminate | now apply issued_same]].
      destruct (nlwrap_NewHandleAt ns k1) as [[h|e] k2]; simpl;
        [|split; [discriminate | now apply issued_same]].
      destruct (Handle_LinkByName h ifName k2) as [[l|e] k3]; simpl;
        [discriminate Ha | split; [discriminate | now apply issued_same]].
  - unfold acquireHandle. intros Ha rulesConfig.
    unfold applyRulesConfig, deferring, bind, lift, ret.
    destruct (netns_GetFromPath path (kernel w)) as [[ns|e] k1]; simpl;
      [|split; [discriminate | now apply issued_same]].
    destruct (nlwrap_NewHandleAt ns k1) as [[h|e] k2]; simpl;
      [discriminate Ha | split; [discriminate | now apply issued_same]].
Qed.

Lemma preparedOf_Permutation {E Q : Type} (prepare : E -> result Q) (l l' : list E) :
  Permutation l l' ->
  Permutation (preparedOf prepare l) (preparedOf prepare l').
Proof.
  induction 1 as [|x l l' _ IH|x y l|l l' l'' _ IH1 _ IH2]; simpl.
  - reflexivity.
  - destruct (prepare x); [now apply perm_skip | exact IH].
  - destruct (prepare x), (prepare y); try reflexivity. apply perm_swap.
  - now rewrite IH1.
Qed.

(** The sort neither drops nor repeats an entry: with the handles
    obtained, the routes sent to the kernel are, up to their order, the
    routes of the entries whose destination parses, each entry sent as
    many times as it stands in the configuration. *)
Theorem each_parseable_route_sent_once :
  forall (path ifName : string) (routeConfig : list RouteConfig) (vrfTable : Z)
         (w : World) (ns : NsHandle) (h : Handle) (link : Link) (k : K),
    acquire path ifName (kernel w) = Some (ns, h, link, k) ->
    let new := issued w (snd (applyRoutingConfig path ifName routeConfig vrfTable w)) in
    Permutation (routesOf new)
      (preparedOf (prepareRoute (Link_Index link) vrfTable) routeConfig)
    /\ List.length new = List.length (routesOf new).
Proof.
  intros path ifName routeConfig vrfTable w ns h link k Ha new.
  destruct (applyRoutingConfig_summary path ifName routeConfig vrfTable w
              ns h link k Ha) as (Hp & (_ & Hlen & _) & _).
  fold new in Hp, Hlen. rewrite Hp. split.
  - apply preparedOf_Permutation. symmetry. apply SortFunc_Permutation.
  - rewrite Hlen.
    rewrite (length_preparedOf _ routeParses
               (routeParses_spec (Link_Index link) vrfTable)).
    apply length_filter_Permutation. apply SortFunc_Permutation.
Qed.

Lemma preparedOf_filter {E Q : Type} (prepare : E -> result Q) (parses : E -> bool)
    (mk : Q -> option error -> Request) (entries : list E) (new : list Request) :
  (forall e, parses e = negb (isErr (prepare e))) ->
  Forall2 (fun q rq => exists a, rq = mk q a) (preparedOf prepare entries) new ->
  Forall2 (fun e rq => exists q a, prepare e = Ok q /\ rq = mk q a)
    (filter parses entries) new.
Proof.
  intros Hp. revert new. induction entries as [|e l IH]; intros new; simpl.
  - intros Hf. inversion Hf. constructor.
  - rewrite filter_cons, (Hp e). destruct (prepare e) as [q|err] eqn:P; simpl.
    + intros Hf. inversion Hf as [|? rq ? new' [a ->] Hf']; subst.
      constructor; [eauto | now apply IH].
    + apply IH.
Qed.

(** Neighbors and rules are not sorted: with the handles obtained, the
    requests are those of the entries that parse, in the order of the
    configuration.  A neighbor is added as a permanent entry on the
    link of the device, with the parsed address and hardware address; a
    rule carries the priority and the table of its entry, and a source
    or destination match only when the entry has one. *)
Theorem neighbors_and_rules_in_configuration_order :
  forall (path ifName : string) (w : World)
         (ns : NsHandle) (h : Handle) (link : Link) (k : K),
    acquire path ifName (kernel w) = Some (ns, h, link, k) ->
    (forall neighConfig : list NeighborConfig,
        Forall2
          (fun neigh rq =>
             exists ip mac answer,
               ParseIP (neigh_Destination neigh) = Some ip
               /\ ParseMAC (neigh_HardwareAddr neigh) = Ok mac
               /\ rq = ReqNeighAdd
                         {| neighbor_LinkIndex := Link_Index link;
                            neighbor_State := NUD_PERMANENT;
                            neighbor_IP := ip;
                            neighbor_HardwareAddr := mac |} answer)
          (filter neighborParses neighConfig)
          (issued w (snd (applyNeighborConfig path ifName neighConfig w))))
    /\ (forall rulesConfig : list RuleConfig,
           Forall2
             (fun ruleCfg rq =>
                exists rule answer,
                  rq = ReqRuleAdd rule answer
                  /\ policy_Priority rule = rule_Priority ruleCfg
                  /\ policy_Table rule = rule_Table ruleCfg
                  /\ (rule_Source ruleCfg = "" <-> policy_Src rule = None)
                  /\ (rule_Destination ruleCfg = "" <-> policy_Dst rule = None))
             (filter ruleParses rulesConfig)
             (issued w (snd (applyRulesConfig path rulesConfig w)))).
Proof.
  intros path ifName w ns h link k Ha. split.
  - intros neighConfig.
    destruct (applyNeighborConfig_acquired path ifName neighConfig w
                ns h link k Ha) as [_ ->].
    rewrite neighLoop_entryLoop.
    pose proof (entryLoop_summary (prepareNeigh (Link_Index link))
                  (NeighAdd h) ReqNeighAdd
                  (Wrapf "failed to add permanent neighbor entry %s (%s) for interface %s: %w")
                  neighborParses (NeighAdd_logs h) (fun _ _ => eq_refl)
                  (neighborParses_spec (Link_Index link))
                  neighConfig {| kernel := k; requests := requests w |}) as S.
    cbv zeta in S. destruct S as (S1 & _).
    apply (preparedOf_filter _ neighborParses _ _ _
             (neighborParses_spec (Link_Index link))) in S1.
    eapply Forall2_impl; [exact S1|].
    intros neigh rq (q & a & P & ->). unfold prepareNeigh in P.
    destruct (ParseIP (neigh_Destination neigh)) as [ip|]; [|discriminate].
    destruct (ParseMAC (neigh_HardwareAddr neigh)) as [mac|e]; [|discriminate].
    injection P as <-. eauto 10.
  - intros rulesConfig.
    assert (Hh : exists k2, acquireHandle path (kernel w) = Some (ns, h, k2)).
    { unfold acquire in Ha.
      destruct (acquireHandle path (kernel w)) as [[[ns' h'] k2]|]; [|discriminate].
      destruct (Handle_LinkByName h' ifName k2) as [[l'|e] k3]; [|discriminate].
      injection Ha as -> -> _ _. eauto. }
    destruct Hh as [k2 Hh].
    destruct (applyRulesConfig_acquired path rulesConfig w ns h k2 Hh) as [_ ->].
    rewrite ruleLoop_entryLoop.
    pose proof (entryLoop_summary ruleFor (RuleAdd h) ReqRuleAdd
                  (Wrapf "failed to add rule %s on namespace %s: %w")
                  ruleParses (RuleAdd_logs h) (fun _ _ => eq_refl)
                  ruleParses_spec
                  rulesConfig {| kernel := k2; requests := requests w |}) as S.
    cbv zeta in S. destruct S as (S1 & _).
    apply (preparedOf_filter _ ruleParses _ _ _ ruleParses_spec) in S1.
    eapply Forall2_impl; [exact S1|].
    intros ruleCfg rq (rule & a & P & ->). exists rule, a.
    split; [reflexivity|]. unfold ruleFor in P.
    destruct (String.eqb_spec (rule_Source ruleCfg) "") as [Es|Ns];
      destruct (String.eqb_spec (rule_Destination ruleCfg) "") as [Ed|Nd];
      simpl in P;
      repeat match type of P with
             | context [ParseCIDR ?x] =>
                 destruct (ParseCIDR x) as [[? ?]|?]; simpl in P
             end;
      try discriminate; injection P as <-; simpl;
      repeat split; try reflexivity; try assumption; try discriminate;
      intros; congruence.
Qed.

End EngineMore.

Section EngineMoreOnSample.
Import GoErrors GoStrings GoNet GoSlices Apis Driver Sample.

Lemma nothing_programmed_without_handles_witness :
  acquire sampleNs "eth9" (kernel sampleWorld) = None
  /\ fst (applyRoutingConfig sampleNs "eth9" [defaultRoute] 0 sampleWorld) <> None
  /\ issued sampleWorld
       (snd (applyRoutingConfig sampleNs "eth9" [defaultRoute] 0 sampleWorld)) = [].
Proof.
  split; [reflexivity|].
  apply (proj1 (proj1 (nothing_programmed_without_handles sampleNs "eth9" sampleWorld)
                  eq_refl) [defaultRoute] 0).
Defined.

Lemma each_parseable_route_sent_once_witness :
  acquire sampleNs "eth0" (kernel sampleWorld)
  = Some (sampleNs, tt, 2, kernel sampleWorld)
  /\ Permutation
       (routesOf (issued sampleWorld
                    (snd (applyRoutingConfig sampleNs "eth0"
                            [defaultRoute; bareRoute; gatewayRoute] 0 sampleWorld))))
       (preparedOf (prepareRoute 2 0) [defaultRoute; bareRoute; gatewayRoute]).
Proof.
  split; [reflexivity|].
  apply (proj1 (each_parseable_route_sent_once sampleNs "eth0"
                  [defaultRoute; bareRoute; gatewayRoute] 0 sampleWorld
                  sampleNs tt 2 (kernel sampleWorld) sample_acquired)).
Defined.

Definition sampleNeighbor : NeighborConfig :=
  {| neigh_Destination := "10.0.5.1"; neigh_HardwareAddr := "00:11:22:33:44:ff" |}.

Lemma neighbors_and_rules_in_configuration_order_witness :
  acquire sampleNs "eth0" (kernel sampleWorld)
  = Some (sampleNs, tt, 2, kernel sampleWorld)
  /\ List.length (filter neighborParses [sampleNeighbor])
     = List.length (issued sampleWorld
                      (snd (applyNeighborConfig sampleNs "eth0"
                              [sampleNeighbor] sampleWorld))).
Proof.
  split; [reflexivity|].
  eapply Forall2_length.
  apply (proj1 (neighbors_and_rules_in_configuration_order sampleNs "eth0"
                  sampleWorld sampleNs tt 2 (kernel sampleWorld) sample_acquired)
           [sampleNeighbor]).
Defined.

End EngineMoreOnSample.

(** ** More on the VRF sysctl step *)

Section VrfSysctlMore.
Import GoErrors VrfSysctl.

(** The namespace the thread is in after some operations, starting in
    [ns]: a switch that succeeds moves it. *)
Fixpoint namespaceAfter (ns : Z) (evs : list Event) : Z :=
  match evs with
  | [] => ns
  | EvNetnsSet ns' None :: rest => namespaceAfter ns' rest
  | _ :: rest => namespaceAfter ns rest
  end.

Definition isSysctlWrite (e : Event) : bool :=
  match e with EvSetSysctl _ _ _ => true | _ => false end.

(** [P before e] for every element [e] of [l], [before] being what
    precedes it in [l] (after [pre]). *)
Fixpoint eachWithPrefix {A : Type} (P : list A -> A -> Prop) (pre l : list A) : Prop :=
  match l with
  | [] => True
  | e :: rest => P pre e /\ eachWithPrefix P (pre ++ [e]) rest
  end.

Lemma eachWithPrefix_spec {A : Type} (P : list A -> A -> Prop) (pre l : list A) :
  eachWithPrefix P pre l ->
  forall before e after, l = before ++ e :: after -> P (pre ++ before) e.
Proof.
  revert pre. induction l as [|x l IH]; intros pre Hl before e after E.
  - destruct before; discriminate.
  - destruct Hl as [Hx Hl].
    destruct before as [|b before]; simpl in E; injection E as E1 E2; subst.
    + now rewrite app_nil_r.
    + specialize (IH _ Hl before e after eq_refl).
      now rewrite <- app_assoc in IH.
Qed.

(** The two sysctls are written only while the thread is in the target
    namespace, never in the namespace the caller was in; each is set to
    1; [udp_l3mdev_accept] is written only after [tcp_l3mdev_accept]
    was written with success; and nothing is written when reading the
    current namespace or switching to the target fails. *)
Theorem sysctls_written_in_target_namespace_only :
  forall (o : Outcomes) (containerNsFd : Z) (t : Thread),
    let evs := performed t (snd (enableVRFSysctls o containerNsFd t)) in
    (forall before e after,
        evs = before ++ e :: after -> isSysctlWrite e = true ->
        namespaceAfter (ambient t) before = containerNsFd
        /\ (exists name answer, e = EvSetSysctl name 1 answer)
        /\ (forall answer,
               e = EvSetSysctl "net/ipv4/udp_l3mdev_accept" 1 answer ->
               In (EvSetSysctl "net/ipv4/tcp_l3mdev_accept" 1 None) before))
    /\ (netns_Get_err o <> None \/ netns_Set_target_err o <> None ->
        forall e, In e evs -> isSysctlWrite e = false).
Proof.
  intros o containerNsFd t evs. subst evs.
  rewrite enableVRFSysctls_performed. split.
  - intros before e after E.
    apply (eachWithPrefix_spec
             (fun before e =>
                isSysctlWrite e = true ->
                namespaceAfter (ambient t) before = containerNsFd
                /\ (exists name answer, e = EvSetSysctl name 1 answer)
                /\ (forall answer,
                       e = EvSetSysctl "net/ipv4/udp_l3mdev_accept" 1 answer ->
                       In (EvSetSysctl "net/ipv4/tcp_l3mdev_accept" 1 None) before))
             [] _) with (2 := E).
    clear E before e after.
    destruct o as [[e1|] [e2|] [e3|] [e4|] [e5|]]; unfold stepEvents; simpl;
      repeat split; try discriminate; intros;
      try (do 2 eexists; reflexivity);
      try match goal with
          | Heq : EvSetSysctl _ _ _ = EvSetSysctl _ _ _ |- _ =>
              try discriminate Heq; simpl; auto 10
          end.
  - intros Hfail e Hin.
    destruct o as [[e1|] [e2|] [e3|] [e4|] [e5|]]; unfold stepEvents in Hin;
      simpl in Hin, Hfail;
      try (destruct Hfail as [Hf|Hf]; congruence);
      repeat (destruct Hin as [<-|Hin]; [reflexivity|]); destruct Hin.
Qed.

End VrfSysctlMore.

(** ** pkg/apis: the rest of the validation

    [ConfigError] is an error of a validation function: the field path
    it was called with, the index of the entry ([fieldPath[i]]) when the
    function walks a list, the field of the entry, and the text. *)

Module Validation.
Import GoErrors GoStrings GoNet Apis.

Record ConfigError : Type := {
  ce_path : string;
  ce_index : option nat;
  ce_field : string;
  ce_text : string;
}.

Definition MinMTU : Z := 68.
Definition MaxInterfaceNameLen : Z := 15.

(** [InterfaceConfig]; the optional fields are pointers in the Go
    type. *)
Record InterfaceConfig : Type := {
  if_Name : string;
  if_Addresses : list string;
  if_DHCP : option bool;
  if_MTU : option Z;
  if_HardwareAddr : option string;
  if_GSOMaxSize : option Z;
  if_GROMaxSize : option Z;
  if_GSOIPv4MaxSize : option Z;
  if_GROIPv4MaxSize : option Z;
  if_VRF : option VRFConfig;
}.

(** [EthtoolConfig]: nothing of it is read by the validation. *)
Record EthtoolConfig : Type := { ethtool_opaque : unit }.

Record NetworkConfig : Type := {
  cfg_Interface : InterfaceConfig;
  cfg_Routes : list RouteConfig;
  cfg_Rules : list RuleConfig;
  cfg_Neighbors : list NeighborConfig;
  cfg_Ethtool : option EthtoolConfig;
}.

(** What the validation takes from other packages: the runes of a
    string as [range] yields them, the classes of package [unicode],
    and whether [netip.ParsePrefix] accepts a text. *)
Class Library : Type := {
  runesOf : string -> list Z;
  unicode_IsLetter : Z -> bool;
  unicode_IsDigit : Z -> bool;
  unicode_IsSpace : Z -> bool;
  netip_ParsePrefix_ok : string -> bool;
}.

(** [validateVRFConfig]. *)
Definition validateVRFConfig (cfg : VRFConfig) (fieldPath : string)
  : list ConfigError :=
  (if String.eqb (vrf_Name cfg) "" then
     [{| ce_path := fieldPath; ce_index := None; ce_field := ".name";
         ce_text := "cannot be empty" |}]
   else [])
  ++ match vrf_Table cfg with
     | Some table =>
         (if table <=? 0 then
            [{| ce_path := fieldPath; ce_index := None; ce_field := ".table";
                ce_text := "must be a positive integer" |}]
          else [])
         ++ (if (table =? 253) || (table =? 254) || (table =? 255) then
               [{| ce_path := fieldPath; ce_index := None; ce_field := ".table";
                   ce_text := "cannot use reserved table ID" |}]
             else [])
     | None => []
     end.

Section WithNet.
Context `{Net}.

(** The body of the loop of [validateRules] for the rule at index [i]. *)
Definition validateRule (fieldPath : string) (i : nat) (rule : RuleConfig)
  : list ConfigError :=
  (if (rule_Priority rule <? 0) || (32767 <? rule_Priority rule) then
     [{| ce_path := fieldPath; ce_index := Some i; ce_field := ".priority";
         ce_text := "must be an integer between 0 and 32767" |}]
   else [])
  ++ (if rule_Table rule <? 0 then
        [{| ce_path := fieldPath; ce_index := Some i; ce_field := ".table";
            ce_text := "must be a non-negative integer" |}]
      else [])
  ++ (if negb (String.eqb (rule_Source rule) "")
         && isErr (ParseCIDR (rule_Source rule)) then
        [{| ce_path := fieldPath; ce_index := Some i; ce_field := ".source";
            ce_text := "invalid CIDR format" |}]
      else [])
  ++ (if negb (String.eqb (rule_Destination rule) "")
         && isErr (ParseCIDR (rule_Destination rule)) then
        [{| ce_path := fieldPath; ce_index := Some i; ce_field := ".destination";
            ce_text := "invalid CIDR format" |}]
      else []).

Fixpoint validateRules_from (fieldPath : string) (i : nat) (rules : list RuleConfig)
  : list ConfigError :=
  match rules with
  | [] => []
  | rule :: rest =>
      validateRule fieldPath i rule ++ validateRules_from fieldPath (S i) rest
  end.

(** [validateRules(rules, fieldPath)]. *)
Definition validateRules (rules : list RuleConfig) (fieldPath : string)
  : list ConfigError :=
  validateRules_from fieldPath 0 rules.

(** The body of the loop of [validateNeighborConfig]. *)
Definition validateNeighbor (fieldPath : string) (i : nat) (neighbor : NeighborConfig)
  : list ConfigError :=
  (if String.eqb (neigh_Destination neighbor) "" then
     [{| ce_path := fieldPath; ce_index := Some i; ce_field := ".destination";
         ce_text := "cannot be empty" |}]
   else if isNil (ParseIP (neigh_Destination neighbor)) then
     [{| ce_path := fieldPath; ce_index := Some i; ce_field := ".destination";
         ce_text := "invalid IP address format" |}]
   else [])
  ++ (if String.eqb (neigh_HardwareAddr neighbor) "" then
        [{| ce_path := fieldPath; ce_index := Some i; ce_field := ".hardwareAddress";
            ce_text := "cannot be empty" |}]
      else if isErr (ParseMAC (neigh_HardwareAddr neighbor)) then
        [{| ce_path := fieldPath; ce_index := Some i; ce_field := ".hardwareAddress";
            ce_text := "invalid Hardware Address format" |}]
      else []).

Fixpoint validateNeighbors_from (fieldPath : string) (i : nat)
    (neighbors : list NeighborConfig) : list ConfigError :=
  match neighbors with
  | [] => []
  | neighbor :: rest =>
      validateNeighbor fieldPath i neighbor
      ++ validateNeighbors_from fieldPath (S i) rest
  end.

(** [validateNeighborConfig(neighbors, fieldPath)]. *)
Definition validateNeighborConfig (neighbors : list NeighborConfig)
    (fieldPath : string) : list ConfigError :=
  validateNeighbors_from fieldPath 0 neighbors.

Context `{Library}.

(** [strings.ContainsAny(name, " \t\n\v\f\r")]: a byte of [name] is one
    of the six. *)
Fixpoint containsWhitespace (name : string) : bool :=
  match name with
  | EmptyString => false
  | String c rest =>
      (Fnv.byte_val c =? 32) || (Fnv.byte_val c =? 9) || (Fnv.byte_val c =? 10)
      || (Fnv.byte_val c =? 11) || (Fnv.byte_val c =? 12) || (Fnv.byte_val c =? 13)
      || containsWhitespace rest
  end.

(** The loop [for _, r := range name] of [isValidLinuxInterfaceName]:
    one error for each rune that is not a letter, a digit, ['-'], ['_']
    or ['.'], except ['/'] and the spaces. *)
Fixpoint invalidRunes (fieldPath : string) (runes : list Z) : list ConfigError :=
  match runes with
  | [] => []
  | r :: rest =>
      if negb (unicode_IsLetter r) && negb (unicode_IsDigit r)
         && negb (r =? 45) && negb (r =? 95) && negb (r =? 46) then
        if (r =? 47) || unicode_IsSpace r then invalidRunes fieldPath rest
        else
          {| ce_path := fieldPath; ce_index := None; ce_field := "";
             ce_text := "contains invalid character" |}
          :: invalidRunes fieldPath rest
      else invalidRunes fieldPath rest
  end.

(** [isValidLinuxInterfaceName(name, fieldPath)]. *)
Definition isValidLinuxInterfaceName (name fieldPath : string) : list ConfigError :=
  if String.eqb name "" then []
  else
    (if MaxInterfaceNameLen <? len name then
       [{| ce_path := fieldPath; ce_index := None; ce_field := "";
           ce_text := "exceeds maximum length" |}]
     else [])
    ++ (if ContainsByte name "/" then
          [{| ce_path := fieldPath; ce_index := None; ce_field := "";
              ce_text := "cannot contain '/'" |}]
        else [])
    ++ (if containsWhitespace name then
          [{| ce_path := fieldPath; ce_index := None; ce_field := "";
              ce_text := "cannot contain whitespace" |}]
        else [])
    ++ (if String.eqb name "." || String.eqb name ".." then
          [{| ce_path := fieldPath; ce_index := None; ce_field := "";
              ce_text := "cannot be '.' or '..'" |}]
        else [])
    ++ invalidRunes fieldPath (runesOf name).

(** The loop over [cfg.Addresses]. *)
Fixpoint validateAddresses (fieldPath : string) (i : nat) (addresses : list string)
  : list ConfigError :=
  match addresses with
  | [] => []
  | addr :: rest =>
      (if negb (netip_ParsePrefix_ok addr) then
         [{| ce_path := fieldPath; ce_index := Some i; ce_field := ".addresses";
             ce_text := "invalid IP CIDR format" |}]
       else [])
      ++ validateAddresses fieldPath (S i) rest
  end.

(** [if p != nil && *p <= 0] for the four size fields. *)
Definition validatePositive (fieldPath field : string) (p : option Z)
  : list ConfigError :=
  match p with
  | Some v =>
      if v <=? 0 then
        [{| ce_path := fieldPath; ce_index := None; ce_field := field;
            ce_text := "must be positive" |}]
      else []
  | None => []
  end.

(** [validateInterfaceConfig(cfg, fieldPath)]; [None] is the nil
    pointer. *)
Definition validateInterfaceConfig (cfg : option InterfaceConfig) (fieldPath : string)
  : list ConfigError :=
  match cfg with
  | None => []
  | Some cfg =>
      isValidLinuxInterfaceName (if_Name cfg) (fieldPath ++ ".name")
      ++ validateAddresses fieldPath 0 (if_Addresses cfg)
      ++ (match if_DHCP cfg with
          | Some true =>
              if (0 <? Z.of_nat (List.length (if_Addresses cfg))) then
                [{| ce_path := fieldPath; ce_index := None; ce_field := "";
                    ce_text := "dhcp and addresses are mutually exclusive" |}]
              else []
          | _ => []
          end)
      ++ (match if_MTU cfg with
          | Some mtu =>
              if mtu <? MinMTU then
                [{| ce_path := fieldPath; ce_index := None; ce_field := ".mtu";
                    ce_text := "must be at least 68" |}]
              else []
          | None => []
          end)
      ++ (match if_HardwareAddr cfg with
          | Some hw =>
              if isErr (ParseMAC hw) then
                [{| ce_path := fieldPath; ce_index := None;
                    ce_field := ".hardwareAddress";
                    ce_text := "invalid Hardware Address format" |}]
              else []
          | None => []
          end)
      ++ validatePositive fieldPath ".gsoMaxSize" (if_GSOMaxSize cfg)
      ++ validatePositive fieldPath ".groMaxSize" (if_GROMaxSize cfg)
      ++ validatePositive fieldPath ".gsov4MaxSize" (if_GSOIPv4MaxSize cfg)
      ++ validatePositive fieldPath ".grov4MaxSize" (if_GROIPv4MaxSize cfg)
      ++ (match if_VRF cfg with
          | Some vrf => validateVRFConfig vrf (fieldPath ++ ".vrf")
          | None => []
          end)
  end.

(** [validateEthtoolConfig]: it checks nothing. *)
Definition validateEthtoolConfig (cfg : EthtoolConfig) (fieldPath : string)
  : list ConfigError := [].

(** An error of [ValidateConfig]. *)
Inductive ConfigIssue : Type :=
| UnmarshalFailed (err : error)
| StrictUnmarshalFailed (err : error)
| RulesWithVRF
| Invalid (e : ConfigError)
| InvalidRoute (e : FieldError).

Section ValidateConfig.
(** The constant [VRFTableOffset] and [json.UnmarshalStrict] into a
    [NetworkConfig]: the configuration and the strict errors, or the
    error of the decoding. *)
Variable VRFTableOffset : Z.
Variable UnmarshalStrict : string -> result (NetworkConfig * list error).

(** [func (c *NetworkConfig) Default()]. *)
Definition NetworkConfig_Default (c : NetworkConfig) : NetworkConfig :=
  match if_VRF (cfg_Interface c) with
  | Some vrf =>
      {| cfg_Interface :=
           {| if_Name := if_Name (cfg_Interface c);
              if_Addresses := if_Addresses (cfg_Interface c);
              if_DHCP := if_DHCP (cfg_Interface c);
              if_MTU := if_MTU (cfg_Interface c);
              if_HardwareAddr := if_HardwareAddr (cfg_Interface c);
              if_GSOMaxSize := if_GSOMaxSize (cfg_Interface c);
              if_GROMaxSize := if_GROMaxSize (cfg_Interface c);
              if_GSOIPv4MaxSize := if_GSOIPv4MaxSize (cfg_Interface c);
              if_GROIPv4MaxSize := if_GROIPv4MaxSize (cfg_Interface c);
              if_VRF := Some (VRFConfig_Default VRFTableOffset vrf) |};
         cfg_Routes := cfg_Routes c;
         cfg_Rules := cfg_Rules c;
         cfg_Neighbors := cfg_Neighbors c;
         cfg_Ethtool := cfg_Ethtool c |}
  | None => c
  end.

(** The validations of [ValidateConfig], on the configuration with its
    defaults applied. *)
Definition validateAll (config : NetworkConfig) : list ConfigIssue :=
  map Invalid (validateInterfaceConfig (Some (cfg_Interface config)) "interface")
  ++ (if 0 <? Z.of_nat (List.length (cfg_Routes config)) then
        map InvalidRoute (validateRoutes (cfg_Routes config))
      else [])
  ++ (if 0 <? Z.of_nat (List.length (cfg_Rules config)) then
        match if_VRF (cfg_Interface config) with
        | Some _ => [RulesWithVRF]
        | None => map Invalid (validateRules (cfg_Rules config) "rules")
        end
      else [])
  ++ (match cfg_Ethtool config with
      | Some ethtool => map Invalid (validateEthtoolConfig ethtool "ethtool")
      | None => []
      end)
  ++ (if 0 <? Z.of_nat (List.length (cfg_Neighbors config)) then
        map Invalid (validateNeighborConfig (cfg_Neighbors config) "neighbors")
      else []).

(** [ValidateConfig(raw)]; [raw] is [None] for a nil pointer and holds
    the bytes of [raw.Raw] otherwise (none when [raw.Raw] is nil). *)
Definition ValidateConfig (raw : option string)
  : option NetworkConfig * list ConfigIssue :=
  match raw with
  | None => (None, [])
  | Some bytes =>
      if String.eqb bytes "" then (None, [])
      else
        match UnmarshalStrict bytes with
        | Err err => (None, [UnmarshalFailed err])
        | Ok (config, strictErrs) =>
            let allErrors := map StrictUnmarshalFailed strictErrs in
            let config := NetworkConfig_Default config in
            (Some config, allErrors ++ validateAll config)
        end
  end.
End ValidateConfig.

End WithNet.

End Validation.

(** ** Validation, defaulting and the engine *)

Section ValidationFacts.
Import GoErrors GoStrings GoNet Apis Validation.
Context `{Net}.

Lemma validateRoutes_from_nil (i : nat) (routes : list RouteConfig) :
  validateRoutes_from i routes = [] ->
  forall route, In route routes -> exists j, validateRoute j route = [].
Proof.
  revert i. induction routes as [|r l IH]; intros i E route Hin; [destruct Hin|].
  simpl in E. apply app_eq_nil in E as [E1 E2].
  destruct Hin as [<-|Hin]; [eauto | eapply IH; eauto].
Qed.

Lemma validateRules_from_nil (fieldPath : string) (i : nat) (rules : list RuleConfig) :
  validateRules_from fieldPath i rules = [] ->
  forall rule, In rule rules -> exists j, validateRule fieldPath j rule = [].
Proof.
  revert i. induction rules as [|r l IH]; intros i E rule Hin; [destruct Hin|].
  simpl in E. apply app_eq_nil in E as [E1 E2].
  destruct Hin as [<-|Hin]; [eauto | eapply IH; eauto].
Qed.

Lemma validateNeighbors_from_nil (fieldPath : string) (i : nat)
    (neighbors : list NeighborConfig) :
  validateNeighbors_from fieldPath i neighbors = [] ->
  forall neighbor, In neighbor neighbors ->
                   exists j, validateNeighbor fieldPath j neighbor = [].
Proof.
  revert i. induction neighbors as [|n l IH]; intros i E neighbor Hin; [destruct Hin|].
  simpl in E. apply app_eq_nil in E as [E1 E2].
  destruct Hin as [<-|Hin]; [eauto | eapply IH; eauto].
Qed.

(** Split an equation [l1 ++ ... ++ ln = []] into its parts. *)
Ltac split_nil E :=
  repeat match type of E with
         | _ ++ _ = [] =>
             let E1 := fresh "E" in
             apply app_eq_nil in E as [E1 E]
         end.

(** What an accepted route is. *)
Lemma validateRoute_nil (j : nat) (route : RouteConfig) :
  validateRoute j route = [] ->
  Destination route <> ""
  /\ (isErr (ParseCIDR (Destination route)) = false
      \/ ParseIP (Destination route) <> None)
  /\ (Scope route = RT_SCOPE_UNIVERSE \/ Scope route = RT_SCOPE_LINK)
  /\ (Scope route = RT_SCOPE_UNIVERSE -> Gateway route <> "")
  /\ (Gateway route <> "" -> ParseIP (Gateway route) <> None)
  /\ (Source route <> "" -> ParseIP (Source route) <> None)
  /\ 0 <= Table route.
Proof.
  unfold validateRoute. intros E. split_nil E.
  destruct (String.eqb_spec (Destination route) "") as [Ed|Nd]; [discriminate|].
  destruct (isErr (ParseCIDR (Destination route))) eqn:Pc;
    destruct (ParseIP (Destination route)) as [ip|] eqn:Pi; simpl in *;
    try discriminate;
    (split; [assumption|]); (split; [auto; right; discriminate|]);
    unfold RT_SCOPE_UNIVERSE, RT_SCOPE_LINK in *;
    destruct (Z.eqb_spec (Scope route) 0) as [S0|S0];
    destruct (Z.eqb_spec (Scope route) 253) as [S253|S253];
    simpl in *; try discriminate; try lia;
    destruct (String.eqb_spec (Gateway route) "") as [Eg|Ng]; simpl in *;
    try discriminate;
    destruct (ParseIP (Gateway route)) as [gw|] eqn:Pg; simpl in *;
    try discriminate;
    destruct (String.eqb_spec (Source route) "") as [Es|Ns]; simpl in *;
    destruct (ParseIP (Source route)) as [src|] eqn:Ps; simpl in *;
    try discriminate;
    destruct (Z.ltb_spec (Table route) 0); try discriminate;
    repeat split; auto; try lia; try congruence; try discriminate.
Qed.

Lemma validateRule_nil (fieldPath : string) (j : nat) (rule : RuleConfig) :
  validateRule fieldPath j rule = [] ->
  0 <= rule_Priority rule <= 32767
  /\ 0 <= rule_Table rule
  /\ (rule_Source rule = "" \/ isErr (ParseCIDR (rule_Source rule)) = false)
  /\ (rule_Destination rule = ""
      \/ isErr (ParseCIDR (rule_Destination rule)) = false).
Proof.
  unfold validateRule. intros E. split_nil E.
  destruct (Z.ltb_spec (rule_Priority rule) 0);
    destruct (Z.ltb_spec 32767 (rule_Priority rule)); simpl in *; try discriminate.
  destruct (Z.ltb_spec (rule_Table rule) 0); try discriminate.
  destruct (String.eqb_spec (rule_Source rule) "");
    destruct (isErr (ParseCIDR (rule_Source rule))); simpl in *; try discriminate;
    destruct (String.eqb_spec (rule_Destination rule) "");
    destruct (isErr (ParseCIDR (rule_Destination rule))); simpl in *;
    try discriminate; repeat split; auto; lia.
Qed.

Lemma validateNeighbor_nil (fieldPath : string) (j : nat) (neighbor : NeighborConfig) :
  validateNeighbor fieldPath j neighbor = [] ->
  neigh_Destination neighbor <> ""
  /\ ParseIP (neigh_Destination neighbor) <> None
  /\ neigh_HardwareAddr neighbor <> ""
  /\ isErr (ParseMAC (neigh_HardwareAddr neighbor)) = false.
Proof.
  unfold validateNeighbor. intros E. split_nil E.
  destruct (String.eqb_spec (neigh_Destination neighbor) ""); [discriminate|].
  destruct (ParseIP (neigh_Destination neighbor)); simpl in *; [|discriminate].
  destruct (String.eqb_spec (neigh_HardwareAddr neighbor) ""); [discriminate|].
  destruct (isErr (ParseMAC (neigh_HardwareAddr neighbor))); [discriminate|].
  repeat split; auto; discriminate.
Qed.

Lemma validateVRFConfig_nil (cfg : VRFConfig) (fieldPath : string) :
  validateVRFConfig cfg fieldPath = [] <->
  vrf_Name cfg <> ""
  /\ (forall table, vrf_Table cfg = Some table ->
                    0 < table /\ table <> 253 /\ table <> 254 /\ table <> 255).
Proof.
  unfold validateVRFConfig.
  destruct (String.eqb_spec (vrf_Name cfg) "") as [En|Nn];
    destruct (vrf_Table cfg) as [t|];
    try destruct (Z.leb_spec t 0);
    try destruct (Z.eqb_spec t 253);
    try destruct (Z.eqb_spec t 254);
    try destruct (Z.eqb_spec t 255);
    simpl; split;
    try discriminate;
    try (intros [Hn Ht]; try contradiction;
         try (specialize (Ht _ eq_refl); lia); reflexivity);
    intros _; (split; [assumption|]);
    intros ? [= <-]; lia.
Qed.

(** The table [Default] derives lies in the thousand tables from
    [VRFTableOffset] on; when these are above the tables Linux
    reserves (253 to 255), a VRF configuration with a name and no
    table passes [validateVRFConfig] once [Default] has run. *)
Theorem derived_vrf_table_validates :
  forall (VRFTableOffset : Z) (c : VRFConfig) (fieldPath : string),
    256 <= VRFTableOffset <= 2 ^ 32 - 1000 ->
    vrf_Table c = None ->
    vrf_Name c <> "" ->
    exists table,
      vrf_Table (VRFConfig_Default VRFTableOffset c) = Some table
      /\ VRFTableOffset <= table < VRFTableOffset + 1000
      /\ validateVRFConfig (VRFConfig_Default VRFTableOffset c) fieldPath = [].
Proof.
  intros off c fieldPath Hoff Ht Hn.
  destruct (VRFConfig_Default_table off ltac:(lia)) as (Hd & _ & _).
  rewrite (Hd c Ht Hn). eexists. split; [reflexivity|].
  pose proof (Z.mod_pos_bound (Fnv.Sum32a (vrf_Name c)) 1000 ltac:(lia)) as Hm.
  split; [lia|]. apply validateVRFConfig_nil. simpl. split; [exact Hn|].
  intros t [= <-]. lia.
Qed.

Lemma derived_vrf_table_validates_witness :
  256 <= 1000 <= 2 ^ 32 - 1000
  /\ exists table,
      vrf_Table (VRFConfig_Default 1000 {| vrf_Name := "blue"; vrf_Table := None |})
      = Some table
      /\ 1000 <= table < 1000 + 1000
      /\ validateVRFConfig
           (VRFConfig_Default 1000 {| vrf_Name := "blue"; vrf_Table := None |})
           "interface.vrf" = [].
Proof.
  split; [lia|].
  apply (derived_vrf_table_validates 1000 {| vrf_Name := "blue"; vrf_Table := None |}
           "interface.vrf"); [lia | reflexivity | discriminate].
Defined.

End ValidationFacts.

Section ValidatedEngine.
Import GoErrors GoStrings GoNet GoSlices Apis Driver Validation.
Context `{Kernel} `{Slices}.

Lemma filter_all {A : Type} (f : A -> bool) (l : list A) :
  (forall x, In x l -> f x = true) -> filter f l = l.
Proof.
  induction l as [|x l IH]; intros Hf; [reflexivity|].
  rewrite filter_cons. rewrite (Hf x) by (simpl; auto). simpl.
  f_equal. apply IH. intros y Hy. apply Hf. simpl. auto.
Qed.

(** A validated route configuration and the engine: the only entries
    the engine skips for a parse error are those whose destination is
    an IP address for [net.ParseIP]; when no destination is, the engine
    sends every entry and returns nil exactly when every answer of the
    kernel is nil or [EEXIST]. *)
Theorem validated_routes_skipped_only_for_bare_ip :
  forall (path ifName : string) (routeConfig : list RouteConfig) (vrfTable : Z)
         (w : World) (ns : NsHandle) (h : Handle) (link : Link) (k : K),
    acquire path ifName (kernel w) = Some (ns, h, link, k) ->
    validateRoutes routeConfig = [] ->
    let res := fst (applyRoutingConfig path ifName routeConfig vrfTable w) in
    let new := issued w (snd (applyRoutingConfig path ifName routeConfig vrfTable w)) in
    (forall route,
        In route routeConfig -> routeParses route = false ->
        ParseIP (Destination route) <> None)
    /\ ((forall route, In route routeConfig -> ParseIP (Destination route) = None) ->
        List.length new = List.length routeConfig
        /\ (res = None <-> forall rq, In rq new -> benign (answerOf rq) = true)).
Proof.
  intros path ifName routeConfig vrfTable w ns h link k Ha Hv res new.
  assert (Hskip : forall route,
             In route routeConfig -> routeParses route = false ->
             ParseIP (Destination route) <> None).
  { intros route Hin Hp.
    destruct (validateRoutes_from_nil 0 routeConfig Hv route Hin) as [j Hj].
    apply validateRoute_nil in Hj as (_ & [Hc|Hi] & _); [|exact Hi].
    unfold routeParses in Hp. rewrite Hc in Hp. discriminate. }
  split; [exact Hskip|]. intros Hnone.
  assert (Hall : forall route, In route routeConfig -> routeParses route = true).
  { intros route Hin. destruct (routeParses route) eqn:Hp; [reflexivity|].
    exfalso. apply (Hskip route Hin Hp). now apply Hnone. }
  destruct (applyRoutingConfig_summary path ifName routeConfig vrfTable w
              ns h link k Ha) as (_ & (Hres & Hlen & _) & _).
  fold res new in Hres, Hlen. split.
  - rewrite Hlen. now rewrite filter_all.
  - rewrite Hres. split; [intros [_ Hb]; exact Hb | intros Hb; split; assumption].
Qed.

(** Validated rules never meet a parse error in the engine: with the
    namespace and the handle obtained, [applyRulesConfig] sends one
    request for each rule and returns nil exactly when every answer of
    the kernel is nil or [EEXIST]. *)
Theorem validated_rules_all_programmed :
  forall (path fieldPath : string) (rulesConfig : list RuleConfig)
         (w : World) (ns : NsHandle) (h : Handle) (k : K),
    acquireHandle path (kernel w) = Some (ns, h, k) ->
    validateRules rulesConfig fieldPath = [] ->
    let res := fst (applyRulesConfig path rulesConfig w) in
    let new := issued w (snd (applyRulesConfig path rulesConfig w)) in
    List.length new = List.length rulesConfig
    /\ (res = None <-> forall rq, In rq new -> benign (answerOf rq) = true).
Proof.
  intros path fieldPath rulesConfig w ns h k Ha Hv res new.
  assert (Hall : forall rule, In rule rulesConfig -> ruleParses rule = true).
  { intros rule Hin.
    destruct (validateRules_from_nil fieldPath 0 rulesConfig Hv rule Hin) as [j Hj].
    apply validateRule_nil in Hj as (_ & _ & Hs & Hd). unfold ruleParses.
    apply andb_true_iff. split; apply orb_true_iff.
    - destruct Hs as [Hs|Hs]; rewrite Hs; [left | right]; reflexivity.
    - destruct Hd as [Hd|Hd]; rewrite Hd; [left | right]; reflexivity. }
  subst res new.
  destruct (applyRulesConfig_acquired path rulesConfig w ns h k Ha) as [-> ->].
  rewrite ruleLoop_entryLoop.
  pose proof (entryLoop_summary ruleFor (RuleAdd h) ReqRuleAdd
                (Wrapf "failed to add rule %s on namespace %s: %w")
                ruleParses (RuleAdd_logs h) (fun _ _ => eq_refl)
                ruleParses_spec
                rulesConfig {| kernel := k; requests := requests w |}) as S.
  cbv zeta in S. destruct S as (_ & S2 & S3 & _). split.
  - rewrite S3. now rewrite filter_all.
  - rewrite S2. split; [intros [_ Hb]; exact Hb | intros Hb; split; assumption].
Qed.

(** Validated neighbors never meet a parse error in the engine: with
    the namespace, the handle and the link obtained,
    [applyNeighborConfig] sends one request for each neighbor and
    returns nil exactly when every answer of the kernel is nil or
    [EEXIST]. *)
Theorem validated_neighbors_all_programmed :
  forall (path ifName fieldPath : string) (neighConfig : list NeighborConfig)
         (w : World) (ns : NsHandle) (h : Handle) (link : Link) (k : K),
    acquire path ifName (kernel w) = Some (ns, h, link, k) ->
    validateNeighborConfig neighConfig fieldPath = [] ->
    let res := fst (applyNeighborConfig path ifName neighConfig w) in
    let new := issued w (snd (applyNeighborConfig path ifName neighConfig w)) in
    List.length new = List.length neighConfig
    /\ (res = None <-> forall rq, In rq new -> benign (answerOf rq) = true).
Proof.
  intros path ifName fieldPath neighConfig w ns h link k Ha Hv res new.
  assert (Hall : forall neigh, In neigh neighConfig -> neighborParses neigh = true).
  { intros neigh Hin.
    destruct (validateNeighbors_from_nil fieldPath 0 neighConfig Hv neigh Hin)
      as [j Hj].
    apply validateNeighbor_nil in Hj as (_ & Hip & _ & Hmac). unfold neighborParses.
    rewrite Hmac. destruct (ParseIP (neigh_Destination neigh)); [reflexivity|].
    contradiction. }
  subst res new.
  destruct (applyNeighborConfig_acquired path ifName neighConfig w
              ns h link k Ha) as [-> ->].
  rewrite neighLoop_entryLoop.
  pose proof (entryLoop_summary (prepareNeigh (Link_Index link))
                (NeighAdd h) ReqNeighAdd
                (Wrapf "failed to add permanent neighbor entry %s (%s) for interface %s: %w")
                neighborParses (NeighAdd_logs h) (fun _ _ => eq_refl)
                (neighborParses_spec (Link_Index link))
                neighConfig {| kernel := k; requests := requests w |}) as S.
  cbv zeta in S. destruct S as (_ & S2 & S3 & _). split.
  - rewrite S3. now rewrite filter_all.
  - rewrite S2. split; [intros [_ Hb]; exact Hb | intros Hb; split; assumption].
Qed.

End ValidatedEngine.

Section ValidatedEngineOnSample.
Import GoErrors GoStrings GoNet GoSlices Apis Driver Validation Sample.

Definition sampleRule : RuleConfig :=
  {| rule_Priority := 100; rule_Table := 7;
     rule_Source := "10.0.5.0/24"; rule_Destination := "" |}.

Lemma sample_handle_acquired :
  acquireHandle sampleNs (kernel sampleWorld)
  = Some (sampleNs, tt, kernel sampleWorld).
Proof. reflexivity. Qed.

Lemma validated_routes_skipped_only_for_bare_ip_witness :
  acquire sampleNs "eth0" (kernel sampleWorld)
  = Some (sampleNs, tt, 2, kernel sampleWorld)
  /\ validateRoutes [defaultRoute; bareRoute; gatewayRoute] = []
  /\ ParseIP (Destination bareRoute) <> None.
Proof.
  split; [reflexivity|]. split; [vm_compute; reflexivity|].
  apply (proj1 (validated_routes_skipped_only_for_bare_ip sampleNs "eth0"
                  [defaultRoute; bareRoute; gatewayRoute] 0 sampleWorld
                  sampleNs tt 2 (kernel sampleWorld) sample_acquired
                  ltac:(vm_compute; reflexivity)) bareRoute).
  - simpl. auto.
  - vm_compute. reflexivity.
Defined.

Lemma validated_rules_all_programmed_witness :
  acquireHandle sampleNs (kernel sampleWorld)
  = Some (sampleNs, tt, kernel sampleWorld)
  /\ validateRules [sampleRule] "rules" = []
  /\ List.length (issued sampleWorld
                    (snd (applyRulesConfig sampleNs [sampleRule] sampleWorld)))
     = List.length [sampleRule].
Proof.
  split; [reflexivity|]. split; [vm_compute; reflexivity|].
  apply (proj1 (validated_rules_all_programmed sampleNs "rules" [sampleRule]
                  sampleWorld sampleNs tt (kernel sampleWorld)
                  sample_handle_acquired ltac:(vm_compute; reflexivity))).
Defined.

Lemma validated_neighbors_all_programmed_witness :
  acquire sampleNs "eth0" (kernel sampleWorld)
  = Some (sampleNs, tt, 2, kernel sampleWorld)
  /\ validateNeighborConfig [sampleNeighbor] "neighbors" = []
  /\ List.length (issued sampleWorld
                    (snd (applyNeighborConfig sampleNs "eth0"
                            [sampleNeighbor] sampleWorld)))
     = List.length [sampleNeighbor].
Proof.
  split; [reflexivity|]. split; [vm_compute; reflexivity|].
  apply (proj1 (validated_neighbors_all_programmed sampleNs "eth0" "neighbors"
                  [sampleNeighbor] sampleWorld sampleNs tt 2 (kernel sampleWorld)
                  sample_acquired ltac:(vm_compute; reflexivity))).
Defined.

End ValidatedEngineOnSample.

Section ValidationMore.
Import GoErrors GoStrings GoNet Apis Validation.
Context `{Net} `{Library}.

Lemma validateRoutes_from_indices (i : nat) (routes : list RouteConfig) :
  Forall (fun e => (i <= fe_index e)%nat) (validateRoutes_from i routes)
  /\ StronglySorted (fun a b => (fe_index a <= fe_index b)%nat)
       (validateRoutes_from i routes).
Proof.
  revert i. induction routes as [|route rest IH]; intros i; simpl.
  - split; constructor.
  - destruct (IH (S i)) as [IHf IHs].
    assert (Hi : Forall (fun e => fe_index e = i) (validateRoute i route)).
    { apply List.Forall_forall. intros e He. now apply validateRoute_index in He. }
    split.
    + apply Forall_app. split.
      * eapply Forall_impl; [exact Hi|]. simpl. intros; lia.
      * eapply Forall_impl; [exact IHf|]. simpl. intros; lia.
    + induction Hi as [|e l He Hl IHl]; simpl; [exact IHs|].
      constructor; [exact IHl|].
      apply Forall_app. split.
      * eapply Forall_impl; [exact Hl|]. simpl. intros; lia.
      * eapply Forall_impl; [exact IHf|]. simpl. intros; lia.
Qed.

(** Every error of [validateRoutes] carries the index of an entry of
    the list, is one of the errors of that entry, and the errors come
    in the order of the entries. *)
Theorem route_errors_point_at_entries :
  forall (routes : list RouteConfig),
    (forall e,
        In e (validateRoutes routes) ->
        (fe_index e < List.length routes)%nat
        /\ exists route,
            routes !! fe_index e = Some route
            /\ In e (validateRoute (fe_index e) route))
    /\ StronglySorted (fun a b => (fe_index a <= fe_index b)%nat)
         (validateRoutes routes).
Proof.
  intros routes. split.
  - intros e He.
    apply validateRoutes_from_In in He as (j & route & Hj & He). simpl in He.
    pose proof (validateRoute_index _ _ _ He) as ->.
    split; [eapply lookup_lt_Some; exact Hj | eauto].
  - apply validateRoutes_from_indices.
Qed.

Lemma invalidRunes_nil (fieldPath : string) (runes : list Z) :
  invalidRunes fieldPath runes = [] <->
  forall r, In r runes ->
            unicode_IsLetter r = true \/ unicode_IsDigit r = true
            \/ r = 45 \/ r = 95 \/ r = 46 \/ r = 47 \/ unicode_IsSpace r = true.
Proof.
  induction runes as [|r l IH]; simpl.
  - split; [intros _ ? [] | reflexivity].
  - destruct (unicode_IsLetter r) eqn:L; simpl.
    { rewrite IH. split; [intros Hl x [<-|Hx]; auto | intros Hl x Hx; auto]. }
    destruct (unicode_IsDigit r) eqn:D; simpl.
    { rewrite IH. split; [intros Hl x [<-|Hx]; auto | intros Hl x Hx; auto]. }
    destruct (Z.eqb_spec r 45); simpl.
    { rewrite IH. split; [intros Hl x [<-|Hx]; auto | intros Hl x Hx; auto]. }
    destruct (Z.eqb_spec r 95); simpl.
    { rewrite IH. split; [intros Hl x [<-|Hx]; auto 10 | intros Hl x Hx; auto]. }
    destruct (Z.eqb_spec r 46); simpl.
    { rewrite IH. split; [intros Hl x [<-|Hx]; auto 10 | intros Hl x Hx; auto]. }
    destruct (Z.eqb_spec r 47); simpl.
    { rewrite IH. split; [intros Hl x [<-|Hx]; auto 10 | intros Hl x Hx; auto]. }
    destruct (unicode_IsSpace r) eqn:S; simpl.
    { rewrite IH. split; [intros Hl x [<-|Hx]; auto 10 | intros Hl x Hx; auto]. }
    split; [discriminate|]. intros Hl. exfalso.
    destruct (Hl r (or_introl eq_refl)) as [?|[?|[?|[?|[?|[?|?]]]]]]; congruence.
Qed.

(** [isValidLinuxInterfaceName] reports nothing for the empty name, and
    for another name exactly when it is at most 15 bytes long, holds
    no ['/'] and none of the six ASCII blanks, is neither ["."] nor
    [".."], and each of its runes is a letter, a digit, ['-'], ['_'],
    ['.'], or one the loop passes over (['/'], a space). *)
Theorem interface_name_accepted :
  forall (name fieldPath : string),
    isValidLinuxInterfaceName name fieldPath = [] <->
    name = ""
    \/ (len name <= MaxInterfaceNameLen
        /\ IndexByte name "/"%char = None
        /\ containsWhitespace name = false
        /\ name <> "." /\ name <> ".."
        /\ forall r, In r (runesOf name) ->
                     unicode_IsLetter r = true \/ unicode_IsDigit r = true
                     \/ r = 45 \/ r = 95 \/ r = 46 \/ r = 47
                     \/ unicode_IsSpace r = true).
Proof.
  intros name fieldPath. unfold isValidLinuxInterfaceName, ContainsByte.
  destruct (String.eqb_spec name "") as [E|N]; [tauto|].
  split.
  - intros E. right.
    apply app_eq_nil in E as [E1 E]. apply app_eq_nil in E as [E2 E].
    apply app_eq_nil in E as [E3 E]. apply app_eq_nil in E as [E4 E5].
    destruct (Z.ltb_spec MaxInterfaceNameLen (len name)); [discriminate|].
    destruct (IndexByte name "/"%char); [discriminate|].
    destruct (containsWhitespace name); [discriminate|].
    destruct (String.eqb_spec name "."); [discriminate|].
    destruct (String.eqb_spec name ".."); [discriminate|].
    split; [assumption|]. split; [reflexivity|]. split; [reflexivity|].
    split; [assumption|]. split; [assumption|].
    exact (proj1 (invalidRunes_nil _ _) E5).
  - intros [E|(Hl & Hs & Hw & Hd & Hdd & Hr)]; [contradiction|].
    destruct (Z.ltb_spec MaxInterfaceNameLen (len name)); [lia|].
    rewrite Hs, Hw.
    destruct (String.eqb_spec name "."); [contradiction|].
    destruct (String.eqb_spec name ".."); [contradiction|].
    simpl. exact (proj2 (invalidRunes_nil _ _) Hr).
Qed.

End ValidationMore.

Section AcceptedConfiguration.
Import GoErrors GoStrings GoNet Apis Validation.
Context `{Net} `{Library}.

Lemma Default_names_table (VRFTableOffset : Z) (vrf : VRFConfig) :
  vrf_Name (VRFConfig_Default VRFTableOffset vrf) <> "" ->
  exists table, vrf_Table (VRFConfig_Default VRFTableOffset vrf) = Some table.
Proof.
  unfold VRFConfig_Default. destruct vrf as [name [t|]]; simpl; [eauto|].
  destruct (String.eqb_spec name ""); simpl; [contradiction | eauto].
Qed.

Lemma NetworkConfig_Default_parts (VRFTableOffset : Z) (c : NetworkConfig) :
  cfg_Routes (NetworkConfig_Default VRFTableOffset c) = cfg_Routes c
  /\ cfg_Rules (NetworkConfig_Default VRFTableOffset c) = cfg_Rules c
  /\ cfg_Neighbors (NetworkConfig_Default VRFTableOffset c) = cfg_Neighbors c
  /\ if_VRF (cfg_Interface (NetworkConfig_Default VRFTableOffset c))
     = VRFConfig_Default VRFTableOffset <$> if_VRF (cfg_Interface c).
Proof.
  unfold NetworkConfig_Default.
  destruct (if_VRF (cfg_Interface c)) as [vrf|] eqn:E; simpl; rewrite ?E; auto.
Qed.

(** A configuration [ValidateConfig] returns without any error keeps
    the invariants of the data model.  Rules and a VRF do not come
    together.  A VRF has a name and a table, the table positive and
    none of 253, 254, 255 (so none of the guards of [applyVRFConfig] on
    the configuration can fire).  DHCP comes without static addresses,
    a set MTU is at least 68, and the name of the interface is at most
    15 bytes and has no ['/'].  A route has a destination, the scope
    Universe or Link, a gateway when the scope is Universe, and a table
    that is not negative.  A rule has a priority from 0 to 32767 and a
    table that is not negative; a neighbor has an address
    [net.ParseIP] accepts and a hardware address [net.ParseMAC]
    accepts. *)
Theorem accepted_configuration_invariants :
  forall (VRFTableOffset : Z)
         (UnmarshalStrict : string -> result (NetworkConfig * list error))
         (raw : option string) (config : NetworkConfig),
    ValidateConfig VRFTableOffset UnmarshalStrict raw = (Some config, []) ->
    let itf := cfg_Interface config in
    (cfg_Rules config <> [] -> if_VRF itf = None)
    /\ (forall vrf,
           if_VRF itf = Some vrf ->
           vrf_Name vrf <> ""
           /\ exists table,
               vrf_Table vrf = Some table
               /\ 0 < table /\ table <> 253 /\ table <> 254 /\ table <> 255)
    /\ (if_DHCP itf = Some true -> if_Addresses itf = [])
    /\ (forall mtu, if_MTU itf = Some mtu -> MinMTU <= mtu)
    /\ (len (if_Name itf) <= MaxInterfaceNameLen
        /\ IndexByte (if_Name itf) "/"%char = None)
    /\ (forall route,
           In route (cfg_Routes config) ->
           Destination route <> ""
           /\ (Scope route = RT_SCOPE_UNIVERSE \/ Scope route = RT_SCOPE_LINK)
           /\ (Scope route = RT_SCOPE_UNIVERSE -> Gateway route <> "")
           /\ 0 <= Table route)
    /\ (forall rule,
           In rule (cfg_Rules config) ->
           0 <= rule_Priority rule <= 32767 /\ 0 <= rule_Table rule)
    /\ (forall neighbor,
           In neighbor (cfg_Neighbors config) ->
           ParseIP (neigh_Destination neighbor) <> None
           /\ isErr (ParseMAC (neigh_HardwareAddr neighbor)) = false).
Proof.
  intros off Unmarshal raw config Hv itf.
  unfold ValidateConfig in Hv.
  destruct raw as [bytes|]; [|discriminate].
  destruct (String.eqb bytes ""); [discriminate|].
  destruct (Unmarshal bytes) as [[c0 strictErrs]|err]; [|discriminate].
  injection Hv as Hc Herrs.
  apply app_eq_nil in Herrs as [_ Hall].
  rewrite Hc in Hall.
  destruct (NetworkConfig_Default_parts off c0) as (_ & _ & _ & Hleft).
  rewrite Hc in Hleft. fold itf in Hleft.
  unfold validateAll in Hall. fold itf in Hall.
  apply app_eq_nil in Hall as [Hitf Hall].
  apply app_eq_nil in Hall as [Hroutes Hall].
  apply app_eq_nil in Hall as [Hrules Hall].
  apply app_eq_nil in Hall as [_ Hneigh].
  apply map_eq_nil in Hitf.
  unfold validateInterfaceConfig in Hitf.
  apply app_eq_nil in Hitf as [Hname Hitf].
  apply app_eq_nil in Hitf as [_ Hitf].
  apply app_eq_nil in Hitf as [Hdhcp Hitf].
  apply app_eq_nil in Hitf as [Hmtu Hitf].
  apply app_eq_nil in Hitf as [_ Hitf].
  apply app_eq_nil in Hitf as [_ Hitf].
  apply app_eq_nil in Hitf as [_ Hitf].
  apply app_eq_nil in Hitf as [_ Hitf].
  apply app_eq_nil in Hitf as [_ Hvrf].
  split; [|split; [|split; [|split; [|split; [|split; [|split]]]]]].
  - intros Hne. destruct (cfg_Rules config) as [|r l]; [contradiction|].
    destruct (if_VRF itf); [discriminate Hrules | reflexivity].
  - intros vrf Evrf. rewrite Evrf in Hvrf.
    apply validateVRFConfig_nil in Hvrf as [Hn Ht]. split; [exact Hn|].
    destruct (vrf_Table vrf) as [t|] eqn:Et.
    + exists t. split; [reflexivity|]. apply Ht. reflexivity.
    + exfalso.
      (* the VRF of the configuration is the one [Default] left *)
      rewrite Evrf in Hleft.
      destruct (if_VRF (cfg_Interface c0)) as [vrf0|]; [|discriminate].
      injection Hleft as ->.
      destruct (Default_names_table off vrf0 Hn) as [t Ht']. congruence.
  - intros Ed. rewrite Ed in Hdhcp.
    destruct (if_Addresses itf); [reflexivity | discriminate].
  - intros mtu Em. rewrite Em in Hmtu.
    destruct (Z.ltb_spec mtu MinMTU); [discriminate | assumption].
  - apply (proj1 (interface_name_accepted _ _)) in Hname.
    destruct Hname as [->|(Hl & Hs & _)]; [|auto].
    split; [unfold len, MaxInterfaceNameLen; simpl; lia | reflexivity].
  - intros route Hin.
    destruct (cfg_Routes config) as [|r l] eqn:Er; [destruct Hin|].
    simpl in Hroutes. apply map_eq_nil in Hroutes. rewrite <- Er in Hin.
    rewrite <- Er in Hroutes.
    destruct (validateRoutes_from_nil 0 _ Hroutes route Hin) as [j Hj].
    apply validateRoute_nil in Hj as (Hd & _ & Hs & Hg & _ & _ & Ht). auto.
  - intros rule Hin.
    destruct (cfg_Rules config) as [|r l] eqn:Er; [destruct Hin|].
    simpl in Hrules. destruct (if_VRF itf); [discriminate|].
    apply map_eq_nil in Hrules. rewrite <- Er in Hin. rewrite <- Er in Hrules.
    destruct (validateRules_from_nil _ 0 _ Hrules rule Hin) as [j Hj].
    apply validateRule_nil in Hj as (Hp & Ht & _). auto.
  - intros neighbor Hin.
    destruct (cfg_Neighbors config) as [|n l] eqn:En; [destruct Hin|].
    simpl in Hneigh. apply map_eq_nil in Hneigh. rewrite <- En in Hin.
    rewrite <- En in Hneigh.
    destruct (validateNeighbors_from_nil _ 0 _ Hneigh neighbor Hin) as [j Hj].
    apply validateNeighbor_nil in Hj as (_ & Hi & _ & Hm). auto.
Qed.

End AcceptedConfiguration.

Section AcceptedConfigurationOnSample.
Import GoErrors GoStrings GoNet GoSlices Apis Driver Validation Sample.

(** The library functions on ASCII text: a rune is a byte, letters are
    [a-zA-Z], digits [0-9], white space the six ASCII space
    characters, and a prefix is what [ParseCIDR] of the sample network
    accepts. *)
#[local] Instance asciiText : Library := {|
  runesOf s := map (fun c => Z.of_nat (nat_of_ascii c)) (list_ascii_of_string s);
  unicode_IsLetter r := ((65 <=? r) && (r <=? 90)) || ((97 <=? r) && (r <=? 122));
  unicode_IsDigit r := (48 <=? r) && (r <=? 57);
  unicode_IsSpace r := ((9 <=? r) && (r <=? 13)) || (r =? 32);
  netip_ParsePrefix_ok s := negb (isErr (ParseCIDR s));
|}.

(** A configuration with a VRF that names no table. *)
Definition vrfConfiguration : NetworkConfig :=
  {| cfg_Interface :=
       {| if_Name := "eth0"; if_Addresses := ["10.0.5.7/24"];
          if_DHCP := None; if_MTU := Some 1500; if_HardwareAddr := None;
          if_GSOMaxSize := None; if_GROMaxSize := None;
          if_GSOIPv4MaxSize := None; if_GROIPv4MaxSize := None;
          if_VRF := Some {| vrf_Name := "blue"; vrf_Table := None |} |};
     cfg_Routes := [defaultRoute; gatewayRoute];
     cfg_Rules := [];
     cfg_Neighbors := [sampleNeighbor];
     cfg_Ethtool := None |}.

(** A decoder that knows one document. *)
Definition decodeOnly (document : string) (config : NetworkConfig)
  (bytes : string) : result (NetworkConfig * list error) :=
  if String.eqb bytes document then Ok (config, [])
  else Err (Errorf "failed to unmarshal JSON data: %w" None).

Lemma accepted_configuration_invariants_witness :
  exists config,
    @ValidateConfig ipv4 asciiText 1000
      (decodeOnly "{vrf}" vrfConfiguration) (Some "{vrf}")
    = (Some config, [])
    /\ (forall vrf,
           if_VRF (cfg_Interface config) = Some vrf ->
           vrf_Name vrf <> ""
           /\ exists table,
               vrf_Table vrf = Some table
               /\ 0 < table /\ table <> 253 /\ table <> 254 /\ table <> 255).
Proof.
  eexists. split; [vm_compute; reflexivity|].
  apply (@accepted_configuration_invariants ipv4 asciiText 1000
           (decodeOnly "{vrf}" vrfConfiguration) (Some "{vrf}") _
           ltac:(vm_compute; reflexivity)).
Defined.

End AcceptedConfigurationOnSample.

(** ** pkg/driver: the VRF device of a claim *)

Module VrfDevice.
Import GoErrors GoNet Apis Driver VrfSysctl.

(** [netlink.Vrf], the fields the driver sets: [LinkAttrs.Name] and
    [Table], a [uint32]. *)
Record Vrf : Type := {
  Vrf_Name : string;
  Vrf_Table : Z;
}.

(** The link operations of a netlink handle, and [int(ns)] of a
    namespace handle. *)
Class LinkKernel `{Kernel} : Type := {
  Handle_LinkAdd : Handle -> Vrf -> K -> option error * K;
  Handle_LinkSetUp : Handle -> Link -> K -> option error * K;
  Handle_LinkSetMaster : Handle -> Link -> Link -> K -> option error * K;
  NsHandle_int : NsHandle -> Z;
}.

(** The conversion [uint32(n)] of an [int]. *)
Definition uint32 (n : Z) : Z := n mod 2 ^ 32.

Section Apply.
Context `{LinkKernel}.

(** A call on the kernel and its answer. *)
Inductive Call : Type :=
| CallGetFromPath (path : string) (answer : result NsHandle)
| CallNsClose (ns : NsHandle)
| CallNewHandleAt (ns : NsHandle) (answer : result Handle)
| CallHandleClose (h : Handle)
| CallLinkByName (h : Handle) (name : string) (answer : result Link)
| CallLinkAdd (h : Handle) (vrf : Vrf) (answer : option error)
| CallLinkSetUp (h : Handle) (link : Link) (answer : option error)
| CallLinkSetMaster (h : Handle) (link master : Link) (answer : option error)
| CallEnableVRFSysctls (containerNsFd : Z) (answer : option error).

(** The kernel, the OS thread of the caller and the calls made so far. *)
Record Node : Type := {
  netlinkState : K;
  osThread : Thread;
  calls : list Call;
}.

Definition V (A : Type) : Type := Node -> A * Node.

Definition vret {A} (a : A) : V A := fun n => (a, n).

Definition vbind {A B} (m : V A) (k : A -> V B) : V B :=
  fun n => let (a, n') := m n in k a n'.

Notation "x <~ m ;; k" := (vbind m (fun x => k))
  (at level 100, m at next level, right associativity).

Definition kcall {A} (op : K -> A * K) (record : A -> Call) : V A :=
  fun n => let (a, k') := op (netlinkState n) in
           (a, {| netlinkState := k'; osThread := osThread n;
                  calls := calls n ++ [record a] |}).

Definition kclose (close : K -> K) (record : Call) : V unit :=
  fun n => (tt, {| netlinkState := close (netlinkState n);
                   osThread := osThread n;
                   calls := calls n ++ [record] |}).

(** A [defer]red close: it runs when [body] returns. *)
Definition vdeferring {A} (close : V unit) (body : V A) : V A :=
  a <~ body ;; _ <~ close ;; vret a.

(** The call [enableVRFSysctls(int(containerNs))], with the outcomes
    [o] of its operations. *)
Definition sysctlStep (o : Outcomes) (containerNsFd : Z) : V (option error) :=
  fun n => let (answer, t') := enableVRFSysctls o containerNsFd (osThread n) in
           (answer, {| netlinkState := netlinkState n; osThread := t';
                       calls := calls n ++ [CallEnableVRFSysctls containerNsFd answer] |}).

(** The VRF link: the one found by name, or the one found after
    [LinkAdd]. *)
Definition vrfLinkFor (nhNs : Handle) (vrfName : string) (vrfTable : Z)
  : V (result Link) :=
  vrfLink <~ kcall (Handle_LinkByName nhNs vrfName) (CallLinkByName nhNs vrfName) ;;
  match vrfLink with
  | Ok vrfLink => vret (Ok vrfLink)
  | Err _ =>
      let vrfReq := {| Vrf_Name := vrfName; Vrf_Table := vrfTable |} in
      added <~ kcall (Handle_LinkAdd nhNs vrfReq) (CallLinkAdd nhNs vrfReq) ;;
      match added with
      | Some err => vret (Err (Wrapf "failed to add vrf %s: %w" err))
      | None =>
          vrfLink <~ kcall (Handle_LinkByName nhNs vrfName)
                       (CallLinkByName nhNs vrfName) ;;
          match vrfLink with
          | Err err =>
              vret (Err (Wrapf "failed to find vrf %s after creation: %w" err))
          | Ok vrfLink => vret (Ok vrfLink)
          end
      end
  end.

(** [applyVRFConfig(containerNsPath, ifName, vrfConfig)]; [None] is
    the nil pointer, [int] has 64 bits. *)
Definition applyVRFConfig (o : Outcomes) (containerNsPath ifName : string)
    (vrfConfig : option VRFConfig) : V (Z * option error) :=
  match vrfConfig with
  | None => vret (0, Some (Errorf "vrf config is nil" None))
  | Some vrfConfig =>
      if String.eqb (vrf_Name vrfConfig) "" then
        vret (0, Some (Errorf "vrf name not specified" None))
      else
        match vrf_Table vrfConfig with
        | None => vret (0, Some (Errorf "vrf table not specified" None))
        | Some table =>
            containerNs <~ kcall (netns_GetFromPath containerNsPath)
                             (CallGetFromPath containerNsPath) ;;
            match containerNs with
            | Err err => vret (0, Some err)
            | Ok containerNs =>
                vdeferring
                  (kclose (Driver.NsHandle_Close containerNs) (CallNsClose containerNs))
                  (nhNs <~ kcall (nlwrap_NewHandleAt containerNs)
                             (CallNewHandleAt containerNs) ;;
                   match nhNs with
                   | Err err =>
                       vret (0, Some (Errorf "can not get netlink handle: %v" (Some err)))
                   | Ok nhNs =>
                       vdeferring
                         (kclose (Handle_Close nhNs) (CallHandleClose nhNs))
                         (nsLink <~ kcall (Handle_LinkByName nhNs ifName)
                                      (CallLinkByName nhNs ifName) ;;
                          match nsLink with
                          | Err err =>
                              vret (0, Some (Wrapf "link not found for interface %s on namespace %s: %w" err))
                          | Ok nsLink =>
                              let vrfName := vrf_Name vrfConfig in
                              let vrfTable := uint32 table in
                              vrfLink <~ vrfLinkFor nhNs vrfName vrfTable ;;
                              match vrfLink with
                              | Err err => vret (0, Some err)
                              | Ok vrfLink =>
                                  up <~ kcall (Handle_LinkSetUp nhNs vrfLink)
                                          (CallLinkSetUp nhNs vrfLink) ;;
                                  match up with
                                  | Some err =>
                                      vret (0, Some (Wrapf "failed to set up vrf %s: %w" err))
                                  | None =>
                                      enslaved <~ kcall (Handle_LinkSetMaster nhNs nsLink vrfLink)
                                                    (CallLinkSetMaster nhNs nsLink vrfLink) ;;
                                      match enslaved with
                                      | Some err =>
                                          vret (0, Some (Wrapf "failed to enslave %s to vrf %s: %w" err))
                                      | None =>
                                          sysctls <~ sysctlStep o (NsHandle_int containerNs) ;;
                                          match sysctls with
                                          | Some err =>
                                              vret (0, Some (Wrapf "failed to enable vrf sysctls: %w" err))
                                          | None => vret (vrfTable, None)
                                          end
                                      end
                                  end
                              end
                          end)
                   end)
            end
        end
  end.

(** The calls a run adds. *)
Definition made (n n' : Node) : list Call :=
  drop (List.length (calls n)) (calls n').

(** The calls on links and the sysctl step: what is done between the
    opening of the handles and their closing. *)
Definition isLinkWork (nhNs : Handle) (c : Call) : Prop :=
  match c with
  | CallLinkByName h _ _ | CallLinkAdd h _ _ | CallLinkSetUp h _ _
  | CallLinkSetMaster h _ _ _ => h = nhNs
  | CallEnableVRFSysctls _ _ => True
  | _ => False
  end.

End Apply.

End VrfDevice.

Section VrfDeviceFacts.
Import GoErrors GoNet Apis Driver VrfSysctl VrfDevice.
Context `{LinkKernel}.

Lemma made_app (n : Node) (k : K) (t : Thread) (added : list Call) :
  made n {| netlinkState := k; osThread := t; calls := calls n ++ added |} = added.
Proof. unfold made. simpl. apply drop_app_length. Qed.

Ltac vrf_answer R op :=
  let E := fresh "E" in destruct op as [[?|?] ?] eqn:E; simpl in R.

Ltac vrf_error R op :=
  let E := fresh "E" in destruct op as [[?|] ?] eqn:E; simpl in R.

Ltac vrf_step R :=
  match type of R with
  | context [netns_GetFromPath ?p ?k] => vrf_answer R (netns_GetFromPath p k)
  | context [nlwrap_NewHandleAt ?a ?k] => vrf_answer R (nlwrap_NewHandleAt a k)
  | context [Handle_LinkByName ?h ?a ?k] => vrf_answer R (Handle_LinkByName h a k)
  | context [Handle_LinkAdd ?h ?a ?k] => vrf_error R (Handle_LinkAdd h a k)
  | context [Handle_LinkSetUp ?h ?a ?k] => vrf_error R (Handle_LinkSetUp h a k)
  | context [Handle_LinkSetMaster ?h ?a ?b ?k] =>
      vrf_error R (Handle_LinkSetMaster h a b k)
  | context [enableVRFSysctls ?o ?fd ?t] => vrf_error R (enableVRFSysctls o fd t)
  | context [if String.eqb ?a ?b then _ else _] =>
      let E := fresh "E" in destruct (String.eqb_spec a b) as [E|E]; simpl in R
  | context [match vrf_Table ?c with _ => _ end] =>
      let E := fresh "E" in destruct (vrf_Table c) eqn:E; simpl in R
  end.

Ltac vrf_unfold R :=
  unfold applyVRFConfig, vrfLinkFor, vdeferring, vbind, vret, kcall, kclose,
    sysctlStep in R; simpl in R.

Ltac vrf_made :=
  repeat rewrite <- app_assoc; simpl; rewrite made_app.

(** A call of [applyVRFConfig] that returns no error made these calls
    and no other, in this order: it opened the namespace and a netlink
    handle in it, found the interface, looked the VRF up by name and,
    only when that lookup failed, added a VRF link with the name and
    the table of the configuration and looked it up again; it set the
    VRF link up, made it the master of the interface, ran the sysctl
    step on the namespace, and closed the netlink handle and then the
    namespace.  The table it returns is that of the configuration as a
    [uint32]. *)
Theorem vrf_success_trace :
  forall (o : Outcomes) (containerNsPath ifName : string)
         (vrfConfig : option VRFConfig) (table : Z) (n n' : Node),
    applyVRFConfig o containerNsPath ifName vrfConfig n = ((table, None), n') ->
    exists (cfg : VRFConfig) (t : Z) (ns : NsHandle) (h : Handle)
           (nsLink vrfLink : Link) (missing : option error),
      vrfConfig = Some cfg
      /\ vrf_Name cfg <> ""
      /\ vrf_Table cfg = Some t
      /\ table = uint32 t
      /\ made n n'
         = [CallGetFromPath containerNsPath (Ok ns);
            CallNewHandleAt ns (Ok h);
            CallLinkByName h ifName (Ok nsLink)]
           ++ match missing with
              | Some err =>
                  [CallLinkByName h (vrf_Name cfg) (Err err);
                   CallLinkAdd h {| Vrf_Name := vrf_Name cfg;
                                    Vrf_Table := uint32 t |} None]
              | None => []
              end
           ++ [CallLinkByName h (vrf_Name cfg) (Ok vrfLink);
               CallLinkSetUp h vrfLink None;
               CallLinkSetMaster h nsLink vrfLink None;
               CallEnableVRFSysctls (NsHandle_int ns) None;
               CallHandleClose h;
               CallNsClose ns].
Proof.
  intros o path ifName vrfConfig table n n' R.
  destruct vrfConfig as [cfg|]; [|discriminate R].
  vrf_unfold R.
  repeat vrf_step R; try discriminate R.
  all: injection R as <- <-.
  - eexists cfg, _, _, _, _, _, None.
    repeat split; try eassumption; try reflexivity.
    vrf_made. reflexivity.
  - eexists cfg, _, _, _, _, _, (Some _).
    repeat split; try eassumption; try reflexivity.
    vrf_made. reflexivity.
Qed.

Lemma nil_app_eq {A : Type} (rest : list A) : rest = [] ++ rest.
Proof. reflexivity. Qed.

Lemma cons_app_eq {A : Type} (c : A) (l w rest : list A) :
  l = w ++ rest -> c :: l = (c :: w) ++ rest.
Proof. intros ->. reflexivity. Qed.

Ltac vrf_work :=
  repeat first [apply nil_app_eq | eapply cons_app_eq].

(** Whatever the kernel answers, [applyVRFConfig] closes what it
    opened before it returns: a run makes no call at all, or fails to
    open the namespace, or opens the namespace, fails to get a netlink
    handle and closes the namespace, or opens both and closes the
    netlink handle and then the namespace as its last two calls, with
    only link calls on that handle and the sysctl step in between. *)
Theorem vrf_handles_closed :
  forall (o : Outcomes) (containerNsPath ifName : string)
         (vrfConfig : option VRFConfig) (n : Node),
    let trace := made n (snd (applyVRFConfig o containerNsPath ifName vrfConfig n)) in
    trace = []
    \/ (exists err, trace = [CallGetFromPath containerNsPath (Err err)])
    \/ (exists ns err,
           trace = [CallGetFromPath containerNsPath (Ok ns);
                    CallNewHandleAt ns (Err err);
                    CallNsClose ns])
    \/ (exists ns h work,
           trace = [CallGetFromPath containerNsPath (Ok ns);
                    CallNewHandleAt ns (Ok h)]
                   ++ work ++ [CallHandleClose h; CallNsClose ns]
           /\ Forall (isLinkWork h) work).
Proof.
  intros o path ifName vrfConfig n.
  destruct (applyVRFConfig o path ifName vrfConfig n) as [res n'] eqn:R.
  cbv zeta. cbn [snd].
  destruct vrfConfig as [cfg|];
    [|injection R as <- <-; left; unfold made; apply drop_all].
  vrf_unfold R.
  repeat vrf_step R; injection R as <- <-;
    try (left; unfold made; apply drop_all);
    try (vrf_made;
         first
           [ right; left; eexists; reflexivity
           | right; right; left; eexists _, _; reflexivity
           | right; right; right; eexists _, _, _; split;
             [ simpl; do 2 f_equal; vrf_work
             | repeat (constructor; simpl) ] ]).
Qed.

(** A call of [applyVRFConfig] that returns an error returns the table
    0.  The sysctl step is the only part that touches the calling OS
    thread, and it runs only after the kernel made the VRF link the
    master of the interface: in every other run the thread is left as
    it was. *)
Theorem vrf_failure_leaves_nothing :
  forall (o : Outcomes) (containerNsPath ifName : string)
         (vrfConfig : option VRFConfig) (table : Z) (err : option error)
         (n n' : Node),
    applyVRFConfig o containerNsPath ifName vrfConfig n = ((table, err), n') ->
    (err <> None -> table = 0)
    /\ (osThread n' = osThread n
        \/ exists h nsLink vrfLink ns,
             In (CallGetFromPath containerNsPath (Ok ns)) (made n n')
             /\ In (CallLinkSetMaster h nsLink vrfLink None) (made n n')
             /\ osThread n'
                = snd (enableVRFSysctls o (NsHandle_int ns) (osThread n))).
Proof.
  intros o path ifName vrfConfig table err n n' R.
  destruct vrfConfig as [cfg|];
    [|injection R as <- <- <-; split; [reflexivity | left; reflexivity]].
  vrf_unfold R.
  repeat vrf_step R; injection R as <- <- <-;
    (split; [first [reflexivity | intros C; now contradiction C]|]);
    try (left; reflexivity);
    right; vrf_made; eexists _, _, _, _;
    (split; [simpl; eauto 20|]);
    (split; [simpl; eauto 20|]);
    match goal with E : enableVRFSysctls _ _ _ = _ |- _ => rewrite E end;
    reflexivity.
Qed.

End VrfDeviceFacts.
